(** * K-means clustering on tensors: a model of [NetworkExamples_3.ipynb]

    The notebook defines three functions on top of PyTorch and NumPy:
    [pairwise_distance], [initial_points] and [kmeans].  They are embedded
    here line by line.  The tensor primitives they call ([unsqueeze],
    broadcasting subtraction, [sum], [squeeze], [argmin], [nonzero],
    [index_select], [mean], item assignment) are modelled on row-major
    tensors with an explicit shape, and floating-point scalars follow the
    IEEE 754 specification of the Standard Library ([SpecFloat]), for an
    arbitrary binary format [(prec, emax)]: [torch.Tensor] builds float32
    tensors (24, 128) and [torch.from_numpy] on NumPy doubles float64
    tensors (53, 1024).  The order in which the library adds the terms of a
    reduction and its square-root kernel are parameters of the model (a
    [backend]): the properties below hold for every order and every
    kernel. *)

From Stdlib Require Import ZArith List Bool Arith Lia.
From Stdlib Require Import Floats.SpecFloat.
From Stdlib Require Strings.String.
Import ListNotations.

Set Implicit Arguments.

(** ** Python exceptions and results *)

Inductive exn : Type :=
| ValueError
| IndexError
| RuntimeError
| TypeError.

Inductive result (A : Type) : Type :=
| Ok (a : A)
| Raise (e : exn).

Arguments Ok {A} a.
Arguments Raise {A} e.

Definition bind {A B : Type} (r : result A) (k : A -> result B) : result B :=
  match r with
  | Ok a => k a
  | Raise e => Raise e
  end.

Notation "x <- e ;; k" := (bind e (fun x => k))
  (at level 61, e at next level, right associativity).

(** A [while True] loop is run with fuel: it returns, raises, or is still
    iterating when the fuel is spent. *)
Inductive outcome (A : Type) : Type :=
| Returns (a : A)
| Raises (e : exn)
| Running.

Arguments Returns {A} a.
Arguments Raises {A} e.
Arguments Running {A}.

(** ** Tensors *)

(** Value read at an index outside the storage; never reached on a
    well-formed tensor. *)
Class Dflt (A : Type) : Type := dflt : A.

#[export] Instance Dflt_nat : Dflt nat := 0.
#[export] Instance Dflt_bool : Dflt bool := false.
#[export] Instance Dflt_float : Dflt spec_float := S754_zero false.

Record tensor (A : Type) : Type := mkTensor {
  shape : list nat;
  data : list A
}.

Definition numel (s : list nat) : nat := fold_right Nat.mul 1 s.

Definition wf {A : Type} (t : tensor A) : Prop :=
  length (data t) = numel (shape t).

Definition tabulate {A : Type} (n : nat) (f : nat -> A) : list A :=
  map f (seq 0 n).

Definition tmap {A B : Type} (f : A -> B) (t : tensor A) : tensor B :=
  mkTensor (shape t) (map f (data t)).

(** [dim] arguments may be negative; [rank] dimensions accept
    [-rank <= dim < rank]. *)
Definition norm_dim (rank : nat) (dim : Z) : result nat :=
  let r := Z.of_nat rank in
  if ((- r <=? dim) && (dim <? r))%Z
  then Ok (Z.to_nat (if (dim <? 0)%Z then dim + r else dim)%Z)
  else Raise IndexError.

(** [t.unsqueeze(dim)]: a new dimension of size one at position [dim]. *)
Definition unsqueeze {A : Type} (t : tensor A) (dim : Z) : result (tensor A) :=
  d <- norm_dim (S (length (shape t))) dim ;;
  Ok (mkTensor (firstn d (shape t) ++ 1 :: skipn d (shape t)) (data t)).

(** [t.squeeze()]: every dimension of size one is removed. *)
Definition squeeze {A : Type} (t : tensor A) : tensor A :=
  mkTensor (filter (fun n => negb (n =? 1)) (shape t)) (data t).

(** Broadcasting of two shapes, aligned on the last dimension; the lists
    are given last dimension first. *)
Fixpoint broadcast_rev (r1 r2 : list nat) : result (list nat) :=
  match r1, r2 with
  | [], r => Ok r
  | r, [] => Ok r
  | a :: r1', b :: r2' =>
      if a =? b then r <- broadcast_rev r1' r2' ;; Ok (a :: r)
      else if a =? 1 then r <- broadcast_rev r1' r2' ;; Ok (b :: r)
      else if b =? 1 then r <- broadcast_rev r1' r2' ;; Ok (a :: r)
      else Raise RuntimeError
  end.

Definition broadcast_shapes (s1 s2 : list nat) : result (list nat) :=
  r <- broadcast_rev (rev s1) (rev s2) ;; Ok (rev r).

(** Coordinates of the flat index [idx] in a row-major tensor of shape [s]. *)
Fixpoint unravel (s : list nat) (idx : nat) : list nat :=
  match s with
  | [] => []
  | n :: s' => (idx / numel s') mod n :: unravel s' idx
  end.

(** Flat offset of coordinates [cs] in a tensor of shape [s] that is being
    broadcast: a dimension of size one has stride zero. *)
Fixpoint bcast_offset (s cs : list nat) : nat :=
  match s, cs with
  | n :: s', c :: cs' =>
      (if n =? 1 then 0 else c) * numel s' + bcast_offset s' cs'
  | _, _ => 0
  end.

Definition pad_shape (rank : nat) (s : list nat) : list nat :=
  repeat 1 (rank - length s) ++ s.

Definition offset (src dst : list nat) (idx : nat) : nat :=
  bcast_offset (pad_shape (length dst) src) (unravel dst idx).

(** Element-wise binary operation with broadcasting. *)
Definition broadcast2 {A B C : Type} `{Dflt A} `{Dflt B}
    (f : A -> B -> C) (t1 : tensor A) (t2 : tensor B) : result (tensor C) :=
  s <- broadcast_shapes (shape t1) (shape t2) ;;
  Ok (mkTensor s
        (tabulate (numel s) (fun idx =>
           f (nth (offset (shape t1) s idx) (data t1) dflt)
             (nth (offset (shape t2) s idx) (data t2) dflt)))).

(** Reduction of dimension [d] by [f]; the result loses that dimension.  A
    0-dim tensor is reduced as a single element. *)
Definition reduce_dim {A B : Type} `{Dflt A}
    (f : list A -> B) (t : tensor A) (d : nat) : tensor B :=
  let outer := numel (firstn d (shape t)) in
  let n := nth d (shape t) 1 in
  let inner := numel (skipn (S d) (shape t)) in
  mkTensor (firstn d (shape t) ++ skipn (S d) (shape t))
    (tabulate (outer * inner) (fun idx =>
       let o := idx / inner in
       let i := idx mod inner in
       f (tabulate n (fun k => nth ((o * n + k) * inner + i) (data t) dflt)))).

(** The scalar [t[i][j]] of a matrix.  Indexing twice a tensor of lower
    rank raises [IndexError]; on a higher rank [t[i][j]] is a sub-tensor, not
    a scalar. *)
Definition get2 {A : Type} `{Dflt A} (t : tensor A) (i j : nat) : result A :=
  match shape t with
  | [n; m] =>
      if (i <? n) && (j <? m) then Ok (nth (i * m + j) (data t) dflt)
      else Raise IndexError
  | [] | [_] => Raise IndexError
  | _ => Raise TypeError
  end.

(** [len(t)] *)
Definition len {A : Type} (t : tensor A) : result nat :=
  match shape t with
  | [] => Raise TypeError
  | n :: _ => Ok n
  end.

(** [t[indices]] with an integer array: rows are copied. *)
Definition getitem_rows {A : Type} `{Dflt A}
    (t : tensor A) (indices : list nat) : result (tensor A) :=
  match shape t with
  | [] => Raise IndexError
  | n :: s' =>
      if forallb (fun i => i <? n) indices then
        let rs := numel s' in
        Ok (mkTensor (length indices :: s')
              (tabulate (length indices * rs) (fun idx =>
                 nth (nth (idx / rs) indices 0 * rs + idx mod rs) (data t) dflt)))
      else Raise IndexError
  end.

(** [(t == v)] against a Python integer *)
Definition eq_scalar (t : tensor nat) (v : nat) : tensor bool :=
  tmap (fun x => x =? v) t.

(** [torch.nonzero(t)]: one row of coordinates per true element, in
    row-major order. *)
Definition nonzero (t : tensor bool) : tensor nat :=
  let hits := filter (fun idx => nth idx (data t) dflt) (seq 0 (numel (shape t))) in
  mkTensor [length hits; length (shape t)]
    (flat_map (unravel (shape t)) hits).

(** [torch.index_select(t, 0, index)]: [index] is a vector or a 0-dim
    tensor. *)
Definition index_select0 {A : Type} `{Dflt A}
    (t : tensor A) (index : tensor nat) : result (tensor A) :=
  if length (shape index) <=? 1 then getitem_rows t (data index)
  else Raise IndexError.

(** [t[i] = v]: [v] is broadcast to the shape of a row. *)
Definition setitem_row {A : Type} `{Dflt A}
    (t : tensor A) (i : nat) (v : tensor A) : result (tensor A) :=
  match shape t with
  | [] => Raise IndexError
  | n :: s' =>
      if i <? n then
        s <- broadcast_shapes (shape v) s' ;;
        if list_eq_dec Nat.eq_dec s s' then
          let rs := numel s' in
          Ok (mkTensor (shape t)
                (tabulate (numel (shape t)) (fun idx =>
                   if idx / rs =? i
                   then nth (offset (shape v) s' (idx mod rs)) (data v) dflt
                   else nth idx (data t) dflt)))
        else Raise RuntimeError
      else Raise IndexError
  end.

(** [bool(t)]: only a one-element tensor has a truth value. *)
Definition truth (t : tensor bool) : result bool :=
  match data t with
  | [b] => Ok b
  | _ => Raise RuntimeError
  end.

(** ** Floating-point scalars *)

Definition is_nan (x : spec_float) : bool :=
  match x with
  | S754_nan => true
  | _ => false
  end.

Definition is_finite (x : spec_float) : bool :=
  match x with
  | S754_zero _ | S754_finite _ _ _ => true
  | _ => false
  end.

(** A Python [float] is a binary64 number. *)
Definition math_sqrt (x : spec_float) : result spec_float :=
  if SFltb x (S754_zero false) then Raise ValueError
  else Ok (SFsqrt 53 1024 x).

(** The literal [1e-5], the double nearest to 10^-5. *)
Definition default_tol : spec_float :=
  S754_finite false 5902958103587057 (-69).

(** The literal [1e-100], and [1e-50], its square root. *)
Definition tol_1e_100 : spec_float :=
  S754_finite false 7880401239278896 (-385).
Definition d_1e_50 : spec_float :=
  S754_finite false 8424983333484575 (-219).

(** [x] is not NaN and carries the sign [s]. *)
Definition has_sign (s : bool) (x : spec_float) : Prop :=
  match x with
  | S754_nan => False
  | S754_zero s' | S754_infinity s' | S754_finite s' _ _ => s' = s
  end.

(** ** The arithmetic left to the tensor library *)

(** Two things that the notebook's functions compute with are fixed by the
    tensor library and not by the notebook: the order in which a reduction
    ([sum], [mean]) adds its terms, on which the rounding of the result
    depends, and the kernel of [torch.sqrt].  They are parameters of the
    model.

    A [sum_tree] says how the terms of a reduction are added: [Term k] is
    term number [k], [Zero] the initial value of an accumulator, and [Plus]
    one addition in the format of the tensor. *)
Inductive sum_tree : Type :=
| Zero
| Term (k : nat)
| Plus (l r : sum_tree).

Fixpoint terms (t : sum_tree) : list nat :=
  match t with
  | Zero => []
  | Term k => [k]
  | Plus l r => terms l ++ terms r
  end.

(** The tree adds each of the terms [0 .. n-1] once, and no other term. *)
Definition adds_each_once (n : nat) (t : sum_tree) : bool :=
  (length (terms t) =? n) &&
  forallb (fun k => existsb (Nat.eqb k) (terms t)) (seq 0 n).

(** The order of a reduction: one tree for each number of terms. *)
Record reduction : Type := mkReduction {
  tree_of : nat -> sum_tree;
  tree_ok : forall n, adds_each_once n (tree_of n) = true
}.

(** Adding in index order, from zero: [((0 + x0) + x1) + ...]. *)
Fixpoint in_order_tree (n : nat) : sum_tree :=
  match n with
  | 0 => Zero
  | S n' => Plus (in_order_tree n') (Term n')
  end.

(** What the model takes from the library: the orders of [t.sum(dim)],
    [t.mean(dim)] and [torch.sum(t)], and the square root, of which only
    this is assumed: it keeps NaN and zero, and the root of a number that is
    not negative is a number that is not negative. *)
Record backend : Type := mkBackend {
  sum_dim_order : reduction;
  mean_dim_order : reduction;
  sum_order : reduction;
  sqrt_kernel : spec_float -> spec_float;
  sqrt_nan : sqrt_kernel S754_nan = S754_nan;
  sqrt_zero : sqrt_kernel (S754_zero false) = S754_zero false;
  sqrt_sign : forall x, has_sign false x -> has_sign false (sqrt_kernel x)
}.

Section Format.

Variables prec emax : Z.
Variable lib : backend.

Definition fzero : spec_float := S754_zero false.
Definition fadd : spec_float -> spec_float -> spec_float := SFadd prec emax.
Definition fsub : spec_float -> spec_float -> spec_float := SFsub prec emax.
Definition fmul : spec_float -> spec_float -> spec_float := SFmul prec emax.
Definition fdiv : spec_float -> spec_float -> spec_float := SFdiv prec emax.

(** The correctly rounded square root of IEEE 754. *)
Definition fsqrt : spec_float -> spec_float := SFsqrt prec emax.

(** [x ** 2.0]: the power kernel computes an exponent of two as [x * x]. *)
Definition fpow2 (x : spec_float) : spec_float := fmul x x.

(** A count converted to the tensor's format. *)
Definition of_nat (n : nat) : spec_float :=
  binary_normalize prec emax (Z.of_nat n) 0 false.

(** A Python [float] converted to the tensor's format. *)
Definition of_double (x : spec_float) : spec_float :=
  match x with
  | S754_finite s m e => binary_normalize prec emax (cond_Zopp s (Zpos m)) e s
  | _ => x
  end.

(** The terms of [l] added as the tree [t] says. *)
Fixpoint sum_by (t : sum_tree) (l : list spec_float) : spec_float :=
  match t with
  | Zero => fzero
  | Term k => nth k l fzero
  | Plus a b => fadd (sum_by a l) (sum_by b l)
  end.

(** Sum of a list, in the order [r]. *)
Definition fsum (r : reduction) (l : list spec_float) : spec_float :=
  sum_by (tree_of r (length l)) l.

(** Mean of a list: the sum divided by the count; an empty list gives
    0/0. *)
Definition fmean (r : reduction) (l : list spec_float) : spec_float :=
  fdiv (fsum r l) (of_nat (length l)).

(** Index of the minimum: the first NaN if there is one, the first least
    element otherwise. *)
Fixpoint argmin_from (best_i : nat) (best : spec_float) (i : nat)
    (l : list spec_float) : nat :=
  match l with
  | [] => best_i
  | v :: l' =>
      if negb (is_nan best) && (is_nan v || SFltb v best)
      then argmin_from i v (S i) l'
      else argmin_from best_i best (S i) l'
  end.

Definition argmin_list (l : list spec_float) : nat :=
  match l with
  | [] => 0
  | v :: l' => argmin_from 0 v 1 l'
  end.

(** *** Tensor operations on floats *)

(** [t1 - t2] *)
Definition tsub (t1 t2 : tensor spec_float) : result (tensor spec_float) :=
  broadcast2 fsub t1 t2.

(** [t ** 2.0] *)
Definition tpow2 (t : tensor spec_float) : tensor spec_float := tmap fpow2 t.

(** [torch.sqrt(t)] *)
Definition tsqrt (t : tensor spec_float) : tensor spec_float :=
  tmap (sqrt_kernel lib) t.

(** [t.sum(dim)] *)
Definition sum_dim (t : tensor spec_float) (dim : Z) : result (tensor spec_float) :=
  d <- norm_dim (Nat.max 1 (length (shape t))) dim ;;
  Ok (reduce_dim (fsum (sum_dim_order lib)) t d).

(** [torch.sum(t)]: a 0-dim tensor. *)
Definition sum_all (t : tensor spec_float) : tensor spec_float :=
  mkTensor [] [fsum (sum_order lib) (data t)].

(** [t.mean(dim)] *)
Definition mean_dim (t : tensor spec_float) (dim : Z) : result (tensor spec_float) :=
  d <- norm_dim (Nat.max 1 (length (shape t))) dim ;;
  Ok (reduce_dim (fmean (mean_dim_order lib)) t d).

(** [torch.argmin(t, dim)]: an empty dimension cannot be reduced. *)
Definition argmin (t : tensor spec_float) (dim : Z) : result (tensor nat) :=
  d <- norm_dim (Nat.max 1 (length (shape t))) dim ;;
  if nth d (shape t) 1 =? 0 then Raise IndexError
  else Ok (reduce_dim argmin_list t d).

(** [t < x] against a Python float, compared in the tensor's format. *)
Definition lt_scalar (t : tensor spec_float) (x : spec_float) : tensor bool :=
  tmap (fun v => SFltb v (of_double x)) t.

(** ** The notebook's functions *)

(** [pairwise_distance(tensor1, tensor2=None)] *)
Definition pairwise_distance (tensor1 : tensor spec_float)
    (tensor2 : option (tensor spec_float)) : result (tensor spec_float) :=
  let tensor2 := match tensor2 with Some t => t | None => tensor1 end in
  A <- unsqueeze tensor1 1 ;;
  B <- unsqueeze tensor2 0 ;;
  distances <- tsub A B ;;
  let distances := tpow2 distances in
  distances <- sum_dim distances (-1) ;;
  let distances := tsqrt (squeeze distances) in
  Ok distances.

(** The distance of row [i] of [a] to row [j] of [b], rows of [m]
    coordinates, written as the scalar formula
    [sqrt((a.x - b.x)**2 + (a.y - b.y)**2 + ...)] of the notebook's
    [distance_3d], the squares being added in the order of [t.sum(dim)]. *)
Definition euclid (a b : list spec_float) (m i j : nat) : spec_float :=
  sqrt_kernel lib (fsum (sum_dim_order lib) (tabulate m (fun d =>
    fpow2 (fsub (nth (i * m + d) a dflt) (nth (j * m + d) b dflt))))).

(** [np.random.choice(a, size)] for integers [a] and [size]: [size] draws
    from [range(a)], with replacement.  The generator is the explicit
    stream [rng]; draw number [i] is [rng i mod a]. *)
Definition np_random_choice (a : nat) (size : Z) (rng : nat -> nat)
  : result (list nat) :=
  if (size <? 0)%Z then Raise ValueError
  else if (a =? 0) && negb (size =? 0)%Z then Raise ValueError
  else Ok (map (fun i => rng i mod a) (seq 0 (Z.to_nat size))).

(** [initial_points(X, n)] *)
Definition initial_points (X : tensor spec_float) (n : Z) (rng : nat -> nat)
  : result (tensor spec_float) :=
  a <- len X ;;
  indices <- np_random_choice a n rng ;;
  getitem_rows X indices.

(** One turn of the [for ndx in range(n_clusters)] loop. *)
Definition move_centroid (X : tensor spec_float) (clusters : tensor nat)
    (centroids : tensor spec_float) (ndx : nat) : result (tensor spec_float) :=
  let selected := squeeze (nonzero (eq_scalar clusters ndx)) in
  selected <- index_select0 X selected ;;
  m <- mean_dim selected 0 ;;
  setitem_row centroids ndx m.

Fixpoint move_centroids (X : tensor spec_float) (clusters : tensor nat)
    (centroids : tensor spec_float) (ndxs : list nat)
  : result (tensor spec_float) :=
  match ndxs with
  | [] => Ok centroids
  | ndx :: rest =>
      centroids <- move_centroid X clusters centroids ndx ;;
      move_centroids X clusters centroids rest
  end.

(** [range(n)] *)
Definition range (n : Z) : list nat := seq 0 (Z.to_nat n).

(** [torch.sum(torch.sqrt(torch.sum((centroids-centroids_pre)**2, dim=1)))] *)
Definition shift_of (centroids centroids_pre : tensor spec_float)
  : result (tensor spec_float) :=
  d <- tsub centroids centroids_pre ;;
  s <- sum_dim (tpow2 d) 1 ;;
  Ok (sum_all (tsqrt s)).

(** The body of the [while True] loop, up to the test: the assignment
    vector, the moved centroids and whether the loop breaks. *)
Definition kmeans_pass (X : tensor spec_float) (n_clusters : Z)
    (sqrt_tol : spec_float) (centroids : tensor spec_float)
  : result (tensor nat * tensor spec_float * bool) :=
  distances <- pairwise_distance X (Some centroids) ;;
  clusters <- argmin distances 1 ;;
  let centroids_pre := centroids in
  centroids <- move_centroids X clusters centroids (range n_clusters) ;;
  shift <- shift_of centroids centroids_pre ;;
  stop <- truth (lt_scalar shift sqrt_tol) ;;
  Ok (clusters, centroids, stop).

Fixpoint kmeans_loop (fuel : nat) (X : tensor spec_float) (n_clusters : Z)
    (sqrt_tol : spec_float) (centroids : tensor spec_float)
  : outcome (tensor nat * tensor spec_float) :=
  match fuel with
  | 0 => Running
  | S fuel' =>
      match kmeans_pass X n_clusters sqrt_tol centroids with
      | Raise e => Raises e
      | Ok (clusters, centroids, true) => Returns (clusters, centroids)
      | Ok (_, centroids, false) =>
          kmeans_loop fuel' X n_clusters sqrt_tol centroids
      end
  end.

(** [kmeans(X, n_clusters, tol=1e-5)] *)
Definition kmeans (fuel : nat) (X : tensor spec_float) (n_clusters : Z)
    (tol : option spec_float) (rng : nat -> nat)
  : outcome (tensor nat * tensor spec_float) :=
  let tol := match tol with Some t => t | None => default_tol end in
  match initial_points X n_clusters rng with
  | Raise e => Raises e
  | Ok centroids =>
      match math_sqrt tol with
      | Raise e => Raises e
      | Ok sqrt_tol => kmeans_loop fuel X n_clusters sqrt_tol centroids
      end
  end.

(** The assignment step on its own: the distances of the points to the
    centroids and, for each point, the index of the nearest centroid. *)
Definition assign (X centroids : tensor spec_float) : result (tensor nat) :=
  distances <- pairwise_distance X (Some centroids) ;;
  argmin distances 1.

(** The points assigned to cluster [ndx], in increasing order. *)
Definition members (clusters : tensor nat) (ndx : nat) : list nat :=
  filter (fun i => nth i (data clusters) dflt =? ndx)
    (seq 0 (numel (shape clusters))).

(** Coordinate [d] of the mean of the points [sel] of [X], points of [m]
    coordinates. *)
Definition mean_coord (X : tensor spec_float) (m : nat) (sel : list nat)
    (d : nat) : spec_float :=
  fmean (mean_dim_order lib)
    (map (fun i => nth (i * m + d) (data X) dflt) sel).

(** The [k] centroids after the update step: centroid [c] is the
    coordinate-wise mean of the points assigned to [c]. *)
Definition moved_centroids (X : tensor spec_float) (clusters : tensor nat)
    (k m : nat) : tensor spec_float :=
  mkTensor [k; m]
    (tabulate (k * m) (fun idx =>
       mean_coord X m (members clusters (idx / m)) (idx mod m))).

(** The total shift of the centroids, as the sum over the [k] centroids of
    the Euclidean norm of the move of each. *)
Definition total_shift (new old : tensor spec_float) (k m : nat) : spec_float :=
  fsum (sum_order lib)
    (tabulate k (fun c => euclid (data new) (data old) m c c)).

End Format.

(** ** Concrete tensors *)

(** The format of float32 tensors. *)
Definition p32 : Z := 24.
Definition e32 : Z := 128.

(** The float32 value of an integer. *)
Definition f32 (z : Z) : spec_float := binary_normalize p32 e32 z 0 false.

Definition tensor_f32 (s : list nat) (l : list Z) : tensor spec_float :=
  mkTensor s (map f32 l).

(** [A = torch.Tensor([a1, a2])] and [B = torch.Tensor([b1, b2])] of the
    notebook. *)
Definition points_A : tensor spec_float := tensor_f32 [2; 3] [1; 2; 3; 4; 5; 6]%Z.
Definition points_B : tensor spec_float :=
  tensor_f32 [2; 3] [11; 12; 13; 14; 15; 16]%Z.

(** A single point, a set of points with one coordinate, and a set with an
    infinite coordinate. *)
Definition single_point : tensor spec_float := tensor_f32 [1; 3] [1; 2; 3]%Z.
Definition points_1d : tensor spec_float := tensor_f32 [2; 1] [1; 2]%Z.
Definition points_inf : tensor spec_float :=
  mkTensor [2; 1] [S754_infinity false; S754_zero false].

(** The float32 value of [z * 2^e]. *)
Definition f32_scaled (z e : Z) : spec_float :=
  binary_normalize p32 e32 z e false.

(** Five points on a line: 0, 1, 0, 2047/4096 and -2079/4096. *)
Definition line_points : tensor spec_float :=
  mkTensor [5; 1]
    (map (fun z => f32_scaled z (-12)) [0; 4096; 0; 2047; -2079]%Z).

(** Four points in the plane: [[0,0],[0,1],[10,0],[10,1]]. *)
Definition four_points : tensor spec_float :=
  tensor_f32 [4; 2] [0; 0; 0; 1; 10; 0; 10; 1]%Z.

(** Two centroids drawn from [four_points]: the points 0 and 2, and twice
    the point 0. *)
Definition centroids_02 : tensor spec_float := tensor_f32 [2; 2] [0; 0; 10; 0]%Z.
Definition centroids_00 : tensor spec_float := tensor_f32 [2; 2] [0; 0; 0; 0]%Z.

(** The centroids [[0, 0.5], [10, 0.5]] and [[5, 0.5], [NaN, NaN]]. *)
Definition centroids_mid : tensor spec_float :=
  mkTensor [2; 2] [f32 0; f32_scaled 1 (-1); f32 10; f32_scaled 1 (-1)].
Definition centroids_nan : tensor spec_float :=
  mkTensor [2; 2] [f32 5; f32_scaled 1 (-1); S754_nan; S754_nan].

(** Four points on a line, 0, 13581879 * 2^-31, 100 and 100, and the
    centroids drawn at the points 0 and 2. *)
Definition near_points : tensor spec_float :=
  mkTensor [4; 1] [f32 0; f32_scaled 13581879 (-31); f32 100; f32 100].
Definition near_centroids : tensor spec_float := tensor_f32 [2; 1] [0; 100]%Z.

(** Two points of five coordinates, [1, 4096, 1, 1, 1] and the origin. *)
Definition wide_points : tensor spec_float :=
  tensor_f32 [2; 5] [1; 4096; 1; 1; 1; 0; 0; 0; 0; 0]%Z.
Definition origins : tensor spec_float :=
  tensor_f32 [2; 5] [0; 0; 0; 0; 0; 0; 0; 0; 0; 0]%Z.

(** The doubles [0.1] and [0.2]. *)
Definition d_0_1 : spec_float := S754_finite false 3602879701896397 (-55).
Definition d_0_2 : spec_float := S754_finite false 3602879701896397 (-54).

(** Three points of three coordinates. *)
Definition three_points : tensor spec_float :=
  tensor_f32 [3; 3] [0; 0; 0; 1; 2; 2; 4; 4; 7]%Z.

(** ** The training regime of [NetworkExamples_2.ipynb] *)

(** The definitions of this part come before the scalar distance
    [distance_3d] of [NetworkExamples_3.ipynb], which shares the exceptions
    declared here. *)

(** Python exceptions of the training loop, beside those above. *)
Inductive py_error : Type :=
| Builtin (e : exn)
| ZeroDivisionError
| UnboundLocalError
| OverflowError.

(** The lines printed by [do_training], with the values they format. *)
Inductive event : Type :=
| Beginning (epochs batch_size : Z)
| EpochLine (epoch : nat) (loss lr : spec_float)
| Discontinuing.

(** How one epoch ends: the loop goes on ([continue] or the end of the
    body), [break]s, or an exception leaves the function. *)
Inductive epoch_end : Type :=
| GoOn
| Break
| Throw (e : py_error).

(** Python floats are binary64 numbers. *)
Definition dsub : spec_float -> spec_float -> spec_float := SFsub 53 1024.
Definition dzero : spec_float := S754_zero false.

(** [float(2)], and the literals [0.005] and [1e-8]. *)
Definition d_two : spec_float := S754_finite false 4503599627370496 (-51).
Definition d_0_005 : spec_float := S754_finite false 5764607523034235 (-60).
Definition d_1e_8 : spec_float := S754_finite false 6044629098073146 (-79).

(** The learning rate of the notebook's call, [1e-4]. *)
Definition d_1e_4 : spec_float := S754_finite false 7378697629483821 (-66).

(** [a / b] on Python floats: a zero divisor raises. *)
Definition py_div (a b : spec_float) : py_error + spec_float :=
  match b with
  | S754_zero _ => inl ZeroDivisionError
  | _ => inr (SFdiv 53 1024 a b)
  end.

(** [max(l)] and [min(l)]: the first element is kept until a later one
    compares greater (less); an empty list raises. *)
Definition py_max (l : list spec_float) : py_error + spec_float :=
  match l with
  | [] => inl (Builtin ValueError)
  | v :: l' => inr (fold_left (fun best w => if SFltb best w then w else best) l' v)
  end.

Definition py_min (l : list spec_float) : py_error + spec_float :=
  match l with
  | [] => inl (Builtin ValueError)
  | v :: l' => inr (fold_left (fun best w => if SFltb w best then w else best) l' v)
  end.

(** [l[a:]] *)
Definition slice_from {A : Type} (a : Z) (l : list A) : list A :=
  let n := Z.of_nat (length l) in
  let start := if (a <? 0)%Z then Z.max (n + a) 0 else Z.min a n in
  skipn (Z.to_nat start) l.

(** [range(0, stop, step)] *)
Definition range_step (stop : nat) (step : Z) : py_error + list nat :=
  if (step =? 0)%Z then inl (Builtin ValueError)
  else if (step <? 0)%Z then inr []
  else
    let st := Z.to_nat step in
    inr (map (fun i => i * st) (seq 0 ((stop + st - 1) / st))).

(** What [do_training] reads and writes: the model and the optimizer
    (their parameters and buffers, of a type [S] left open), the learning
    rate [optimizer.param_groups[0]['lr']], the local [loss] (unbound before
    the first batch), the local [loss_history] and the printed lines. *)
Record training (S : Type) : Type := mkTraining {
  model : S;
  lr : spec_float;
  loss : option spec_float;
  loss_history : list spec_float;
  output : list event
}.

Section Training.

Variable S : Type.

(** One batch: the forward pass, the loss, [zero_grad], [backward] and
    [step] on the rows [start .. start + batch_size) of the training set,
    under the current learning rate; it gives the updated model and
    optimizer and the value [loss.item()]. *)
Variable train_batch : S -> spec_float -> nat -> Z -> S * spec_float.

(** [len(X_train)] *)
Variable n_train : nat.

(** The body of [for start in range(0, len(X_train), batch_size)]. *)
Definition batch_body (batch_size : Z) (t : training S) (start : nat)
  : training S :=
  let '(m, l) := train_batch (model t) (lr t) start batch_size in
  mkTraining m (lr t) (Some l) (loss_history t) (output t).

(** The body of [for epoch in range(1, epochs+1)]. *)
Definition epoch_body (batch_size early_stop : Z) (t : training S)
    (epoch : nat) : training S * epoch_end :=
  match range_step n_train batch_size with
  | inl e => (t, Throw e)
  | inr starts =>
      let t := fold_left (batch_body batch_size) starts t in
      match loss t with
      | None => (t, Throw UnboundLocalError)
      | Some l =>
          let t := mkTraining (model t) (lr t) (loss t)
                     (loss_history t ++ [l])
                     (output t ++ [EpochLine epoch l (lr t)]) in
          if (Z.of_nat (length (loss_history t)) <? early_stop)%Z
          then (t, GoOn)
          else
            let recent := slice_from (- early_stop) (loss_history t) in
            match py_max recent with
            | inl e => (t, Throw e)
            | inr hi =>
                match py_min recent with
                | inl e => (t, Throw e)
                | inr lo =>
                    let diff := dsub hi lo in
                    match py_div diff (last (loss_history t) dzero) with
                    | inl e => (t, Throw e)
                    | inr q =>
                        let t :=
                          if SFltb q d_0_005
                          then mkTraining (model t) (SFdiv 53 1024 (lr t) d_two)
                                 (loss t) (loss_history t) (output t)
                          else t in
                        if SFltb (lr t) d_1e_8
                        then (mkTraining (model t) (lr t) (loss t)
                                (loss_history t) (output t ++ [Discontinuing]),
                              Break)
                        else (t, GoOn)
                    end
                end
            end
      end
  end.

Fixpoint epochs_loop (batch_size early_stop : Z) (t : training S)
    (epochs : list nat) : training S * option py_error :=
  match epochs with
  | [] => (t, None)
  | epoch :: rest =>
      match epoch_body batch_size early_stop t epoch with
      | (t, GoOn) => epochs_loop batch_size early_stop t rest
      | (t, Break) => (t, None)
      | (t, Throw e) => (t, Some e)
      end
  end.

(** [do_training(model, X_train, y_train, optimizer, loss_fn, epochs=5000,
    batch_size=5000, early_stop=6)], started on the model and optimizer [m]
    with the learning rate [lr0]: the state it leaves and the exception it
    raises, if any. *)
Definition do_training (m : S) (lr0 : spec_float)
    (epochs batch_size early_stop : option Z)
  : training S * option py_error :=
  let epochs := match epochs with Some e => e | None => 5000%Z end in
  let batch_size := match batch_size with Some b => b | None => 5000%Z end in
  let early_stop := match early_stop with Some e => e | None => 6%Z end in
  let t := mkTraining m lr0 None [] [Beginning epochs batch_size] in
  epochs_loop batch_size early_stop t (seq 1 (Z.to_nat epochs)).

End Training.

(** [lr] halved [j] times. *)
Fixpoint halved (j : nat) (lr0 : spec_float) : spec_float :=
  match j with
  | 0 => lr0
  | S j' => SFdiv 53 1024 (halved j' lr0) d_two
  end.

(** The epochs that were completed, as the printed lines show them. *)
Definition epochs_run (out : list event) : nat :=
  length (filter (fun e => match e with EpochLine _ _ _ => true | _ => false end)
            out).

(** A training set of ten rows whose batches always give the loss 1 and
    leave the model, a counter of batches, one higher. *)
Definition count_batch (m : nat) (lr0 : spec_float) (start : nat) (bs : Z)
  : nat * spec_float :=
  (Datatypes.S m, S754_finite false 4503599627370496 (-52)).

(** Batches that always give the loss 0 and leave the model as it is. *)
Definition zero_batch (m : nat) (lr0 : spec_float) (start : nat) (bs : Z)
  : nat * spec_float :=
  (m, S754_zero false).

(** ** The encoding of the target in [NetworkExamples_2.ipynb] *)

(** A Python [dict]: the items in insertion order, with distinct keys. *)
Section Dict.

Variables K V : Type.
Variable K_eq_dec : forall a b : K, {a = b} + {a <> b}.

(** [d[k] = v]: the value of an existing key is replaced where it is, a
    new key goes to the end. *)
Fixpoint dict_set (k : K) (v : V) (d : list (K * V)) : list (K * V) :=
  match d with
  | [] => [(k, v)]
  | (k', v') :: rest =>
      if K_eq_dec k k' then (k', v) :: rest
      else (k', v') :: dict_set k v rest
  end.

(** [dict(pairs)] *)
Definition dict_of (pairs : list (K * V)) : list (K * V) :=
  fold_left (fun d kv => dict_set (fst kv) (snd kv) d) pairs [].

(** [d[k]]; [None] stands for [KeyError]. *)
Fixpoint dict_get (k : K) (d : list (K * V)) : option V :=
  match d with
  | [] => None
  | (k', v) :: rest => if K_eq_dec k k' then Some v else dict_get k rest
  end.

End Dict.

Module Garments.
Import String.

(** [sizes] *)
Definition sizes : list string :=
  ["00"; "0"; "2"; "4"; "6"; "8"; "10"; "12"; "14"; "16"; "18"]%string.

(** [size_to_num = dict(zip(sizes, range(len(sizes))))] *)
Definition size_to_num (sizes : list string) : list (string * nat) :=
  dict_of string_dec (combine sizes (seq 0 (List.length sizes))).

(** [num_to_size = {v:k for (k, v) in size_to_num.items()}] *)
Definition num_to_size (sizes : list string) : list (nat * string) :=
  dict_of Nat.eq_dec (map (fun kv => (snd kv, fst kv)) (size_to_num sizes)).

End Garments.

(** ** The scalar distance of [NetworkExamples_3.ipynb] *)

(** [Point3D = namedtuple('Point3D', 'x y z')], with the integer
    coordinates the notebook gives its points. *)
Module Point3D.
Record t : Type := mk { x : Z; y : Z; z : Z }.
End Point3D.

(** A Python [int] converted to a [float]: the nearest double, or
    [OverflowError] beyond the largest. *)
Definition int_to_float (n : Z) : py_error + spec_float :=
  match binary_normalize 53 1024 n 0 false with
  | S754_infinity _ => inl OverflowError
  | f => inr f
  end.

(** [distance_3d(a, b)]: the squares and their sum are exact integers;
    [math.sqrt] converts the sum and takes the root. *)
Definition distance_3d (a b : Point3D.t) : py_error + spec_float :=
  let n := ((Point3D.x a - Point3D.x b) ^ 2 + (Point3D.y a - Point3D.y b) ^ 2
            + (Point3D.z a - Point3D.z b) ^ 2)%Z in
  match int_to_float n with
  | inl e => inl e
  | inr f =>
      match math_sqrt f with
      | Raise e => inl (Builtin e)
      | Ok r => inr r
      end
  end.

(** [a1], [a2], [b1] and [b2] of the notebook. *)
Definition a1 : Point3D.t := Point3D.mk 1 2 3.
Definition a2 : Point3D.t := Point3D.mk 4 5 6.
Definition b1 : Point3D.t := Point3D.mk 11 12 13.
Definition b2 : Point3D.t := Point3D.mk 14 15 16.

(** ** Predicates on scalars, rows and assignments *)

(** [x] is NaN or is not negative. *)
Definition nan_or_nonneg (x : spec_float) : Prop :=
  x = S754_nan \/ has_sign false x.

(** Index [a] holds the first least element of [l]: no element is less
    and every earlier one is greater. *)
Definition first_min (l : list spec_float) (a : nat) : Prop :=
  a < length l /\
  (forall j, j < length l -> SFltb (nth j l dflt) (nth a l dflt) = false) /\
  (forall j, j < a -> SFltb (nth a l dflt) (nth j l dflt) = true).

(** Index [a] holds the first NaN of [l]. *)
Definition first_nan (l : list spec_float) (a : nat) : Prop :=
  a < length l /\ nth a l dflt = S754_nan /\
  (forall j, j < a -> nth j l dflt <> S754_nan).

(** A key of the scalars that are not NaN, ordered lexicographically as
    the comparison orders them. *)
Definition order_key (x : spec_float) : Z * Z * Z :=
  match x with
  | S754_nan | S754_zero _ => (0, 0, 0)%Z
  | S754_infinity true => (-2, 0, 0)%Z
  | S754_infinity false => (2, 0, 0)%Z
  | S754_finite true m e => (-1, - e, Zneg m)%Z
  | S754_finite false m e => (1, e, Zpos m)%Z
  end.

Definition lex_lt (a b : Z * Z * Z) : Prop :=
  let '(a1, a2, a3) := a in
  let '(b1, b2, b3) := b in
  (a1 < b1 \/ (a1 = b1 /\ (a2 < b2 \/ (a2 = b2 /\ a3 < b3))))%Z.


(** Every coordinate of the matrix [X] is finite. *)
Definition all_finite (X : tensor spec_float) : Prop :=
  Forall (fun x => is_finite x = true) (data X).

(** Row [c] of a matrix of [m] columns has a NaN coordinate. *)
Definition nan_row (C : tensor spec_float) (m c : nat) : Prop :=
  exists d, d < m /\ nth (c * m + d) (data C) dflt = S754_nan.

(** ** Facts on lists and indices *)

Lemma length_tabulate {A : Type} (n : nat) (f : nat -> A) :
  length (tabulate n f) = n.
Proof. unfold tabulate. now rewrite length_map, length_seq. Qed.

Lemma nth_tabulate {A : Type} (n : nat) (f : nat -> A) (i : nat) (d : A) :
  i < n -> nth i (tabulate n f) d = f i.
Proof.
  intros Hi. unfold tabulate.
  rewrite (nth_indep _ d (f 0)) by now rewrite length_map, length_seq.
  rewrite map_nth, seq_nth by assumption. reflexivity.
Qed.

Lemma tabulate_ext {A : Type} (n : nat) (f g : nat -> A) :
  (forall i, i < n -> f i = g i) -> tabulate n f = tabulate n g.
Proof.
  intros E. apply map_ext_in. intros i Hi. apply in_seq in Hi. apply E. lia.
Qed.

Lemma nth_map_tabulate {A B : Type} (h : A -> B) (n : nat) (f : nat -> A)
    (i : nat) (d : B) :
  i < n -> nth i (map h (tabulate n f)) d = h (f i).
Proof.
  intros Hi. unfold tabulate. rewrite map_map.
  now apply (nth_tabulate (fun x => h (f x))).
Qed.

Lemma div_mod_lin (a b n : nat) :
  b < n -> (a * n + b) / n = a /\ (a * n + b) mod n = b.
Proof.
  intros Hb. split.
  - symmetry. apply (Nat.div_unique _ _ _ b); lia.
  - symmetry. apply (Nat.mod_unique _ _ a); lia.
Qed.

Lemma div_lt_mul (idx a b : nat) : idx < a * b -> idx / b < a.
Proof.
  intros H. destruct b as [|b]; [lia|].
  apply Nat.Div0.div_lt_upper_bound. lia.
Qed.

Lemma mod_small_dim (c n : nat) : c < n -> (if n =? 1 then 0 else c) = c.
Proof. destruct (Nat.eqb_spec n 1); lia. Qed.

(** ** Facts on floating-point scalars *)

Section FloatFacts.

Variables prec emax : Z.

Lemma binary_round_aux_opp (s : bool) (m e : Z) (l : location) :
  binary_round_aux prec emax (negb s) m e l =
  SFopp (binary_round_aux prec emax s m e l).
Proof.
  unfold binary_round_aux.
  destruct (shr_fexp prec emax m e l) as [mrs' e'].
  destruct (shr_fexp prec emax _ e' loc_Exact) as [mrs'' e''].
  destruct (shr_m mrs''); [reflexivity| |reflexivity].
  destruct (Z.leb e'' (Z.sub emax prec)); reflexivity.
Qed.

Lemma binary_round_opp (s : bool) (m : positive) (e : Z) :
  binary_round prec emax (negb s) m e = SFopp (binary_round prec emax s m e).
Proof.
  unfold binary_round.
  destruct (shl_align m e _) as [mz ez]. apply binary_round_aux_opp.
Qed.

Lemma binary_normalize_opp (z e : Z) :
  z <> 0%Z ->
  binary_normalize prec emax (- z) e false =
  SFopp (binary_normalize prec emax z e false).
Proof.
  intros Hz. destruct z as [|p|p]; [contradiction| |]; cbn [Z.opp binary_normalize].
  - apply (binary_round_opp false).
  - change false with (negb true). rewrite binary_round_opp.
    destruct (binary_round prec emax true p e) as [[]|[]| |[] ? ?]; reflexivity.
Qed.

(** Swapping the operands of a subtraction changes at most the sign. *)
Lemma fsub_swap (x y : spec_float) :
  fsub prec emax y x = SFopp (fsub prec emax x y) \/
  fsub prec emax y x = fsub prec emax x y.
Proof.
  unfold fsub.
  destruct x as [sx|sx| |sx mx ex], y as [sy|sy| |sy my ey];
    try (destruct sx, sy; cbn; auto; fail);
    try (destruct sx; cbn; auto; fail);
    try (destruct sy; cbn; auto; fail);
    try (cbn; auto; fail).
  cbn [SFsub]. rewrite (Z.min_comm ey ex).
  set (a := cond_Zopp sx _). set (b := cond_Zopp sy _).
  destruct (Z.eq_dec (a - b) 0) as [E|E].
  - right. replace (b - a)%Z with 0%Z by lia. now rewrite E.
  - left. replace (b - a)%Z with (- (a - b))%Z by lia.
    now apply binary_normalize_opp.
Qed.

Lemma fpow2_opp (x : spec_float) :
  fpow2 prec emax (SFopp x) = fpow2 prec emax x.
Proof.
  unfold fpow2, fmul. destruct x as [[]|[]| |[] m e]; reflexivity.
Qed.

(** [(x - y) ** 2 = (y - x) ** 2], bit for bit. *)
Lemma fpow2_fsub_comm (x y : spec_float) :
  fpow2 prec emax (fsub prec emax y x) = fpow2 prec emax (fsub prec emax x y).
Proof.
  destruct (fsub_swap x y) as [E|E]; rewrite E; [apply fpow2_opp|reflexivity].
Qed.

Lemma fsub_diag (x : spec_float) :
  is_finite x = true -> fsub prec emax x x = fzero.
Proof.
  unfold fsub, fzero. destruct x as [[]|[]| |s m e]; try discriminate;
    try reflexivity.
  intros _. cbn [SFsub]. now rewrite Z.sub_diag.
Qed.

Lemma fsub_diag_nan (x : spec_float) :
  is_finite x = false -> fsub prec emax x x = S754_nan.
Proof.
  unfold fsub. destruct x as [[]|[]| |s m e]; try discriminate; reflexivity.
Qed.

Lemma fadd_nan_r (x : spec_float) : fadd prec emax x S754_nan = S754_nan.
Proof. destruct x as [[]|[]| |[] m e]; reflexivity. Qed.

(** A tree that is the order of [n] terms has a leaf for each of them. *)
Lemma adds_each_once_term (n k : nat) (t : sum_tree) :
  adds_each_once n t = true -> k < n -> In k (terms t).
Proof.
  unfold adds_each_once. intros H Hk.
  apply andb_prop in H. destruct H as [_ H].
  rewrite forallb_forall in H.
  specialize (H k (proj2 (in_seq n 0 k) (conj (Nat.le_0_l k) Hk))).
  apply existsb_exists in H. destruct H as (k' & Hin & E).
  apply Nat.eqb_eq in E. now subst k'.
Qed.

Lemma sum_by_zeros (t : sum_tree) (l : list spec_float) :
  Forall (fun x => x = fzero) l -> sum_by prec emax t l = fzero.
Proof.
  intros H. induction t as [|k|a IHa b IHb]; cbn [sum_by].
  - reflexivity.
  - destruct (nth_in_or_default k l fzero) as [Hin|E]; [|exact E].
    rewrite Forall_forall in H. now apply H.
  - now rewrite IHa, IHb.
Qed.

Lemma sum_by_nan (t : sum_tree) (l : list spec_float) (k : nat) :
  In k (terms t) -> nth k l fzero = S754_nan ->
  sum_by prec emax t l = S754_nan.
Proof.
  intros Hin E. induction t as [|k'|a IHa b IHb]; cbn [sum_by terms] in *.
  - contradiction.
  - destruct Hin as [->|[]]. exact E.
  - apply in_app_or in Hin. destruct Hin as [Hin|Hin].
    + now rewrite IHa.
    + rewrite IHb by assumption. apply fadd_nan_r.
Qed.

(** Whatever the order, a sum of zeros is zero; so is the empty sum. *)
Lemma fsum_zeros (r : reduction) (l : list spec_float) :
  Forall (fun x => x = fzero) l -> fsum prec emax r l = fzero.
Proof. apply sum_by_zeros. Qed.

Lemma fsum_nil (r : reduction) : fsum prec emax r [] = fzero.
Proof. apply fsum_zeros. constructor. Qed.

(** Whatever the order, a sum with a NaN term is NaN. *)
Lemma fsum_nan (r : reduction) (l : list spec_float) :
  In S754_nan l -> fsum prec emax r l = S754_nan.
Proof.
  intros Hin. destruct (In_nth l S754_nan fzero Hin) as (k & Hk & E).
  unfold fsum. apply sum_by_nan with k; [|exact E].
  apply adds_each_once_term with (length l); [apply tree_ok|exact Hk].
Qed.

(** The mean of no term is 0/0. *)
Lemma fmean_nil (r : reduction) : fmean prec emax r [] = S754_nan.
Proof. unfold fmean. now rewrite fsum_nil. Qed.

(** Rounding to a format a scalar of that format changes nothing. *)
Lemma of_double_valid (x : spec_float) :
  valid_binary prec emax x = true -> of_double prec emax x = x.
Proof.
  destruct x as [sx|sx| |s m e]; try reflexivity.
  cbn [valid_binary]. unfold bounded, canonical_mantissa. intros H.
  apply andb_prop in H. destruct H as [Hc He].
  apply Z.eqb_eq in Hc.
  assert (R : forall sx, binary_round prec emax sx m e = S754_finite sx m e).
  { intros sx. unfold binary_round, shl_align. rewrite Hc, Z.sub_diag.
    unfold binary_round_aux, shr_fexp. cbn [Zdigits2]. rewrite Hc, Z.sub_diag.
    cbn [shr shr_record_of_loc shr_m loc_of_shr_record round_nearest_even
         shr_r shr_s].
    change (Zdigits2 (Z.pos m)) with (Z.pos (digits2_pos m)).
    rewrite Hc, Z.sub_diag. cbn [shr shr_m]. now rewrite He. }
  unfold of_double. destruct s; cbn [cond_Zopp Z.opp binary_normalize]; apply R.
Qed.

End FloatFacts.

(** ** Signs of computed scalars *)

Section SignFacts.

Variables prec emax : Z.
Variable lib : backend.

Lemma shr_1_nonneg (mrs : shr_record) :
  (0 <= shr_m mrs)%Z -> (0 <= shr_m (shr_1 mrs))%Z.
Proof.
  destruct mrs as [m r b]. cbn [shr_m].
  destruct m as [|[p|p|]|[p|p|]]; cbn; lia.
Qed.

Lemma iter_pos_shr_1_nonneg (p : positive) (mrs : shr_record) :
  (0 <= shr_m mrs)%Z -> (0 <= shr_m (iter_pos shr_1 p mrs))%Z.
Proof.
  revert mrs. induction p as [p IH|p IH|]; intros mrs H; cbn [iter_pos].
  - apply IH, IH, shr_1_nonneg, H.
  - apply IH, IH, H.
  - apply shr_1_nonneg, H.
Qed.

Lemma shr_fexp_nonneg (m e : Z) (l : location) :
  (0 <= m)%Z -> (0 <= shr_m (fst (shr_fexp prec emax m e l)))%Z.
Proof.
  intros H. unfold shr_fexp, shr.
  assert (H0 : (0 <= shr_m (shr_record_of_loc m l))%Z).
  { destruct l as [|[]]; exact H. }
  destruct (_ - e)%Z; cbn [fst]; try assumption.
  now apply iter_pos_shr_1_nonneg.
Qed.

Lemma round_nearest_even_nonneg (m : Z) (l : location) :
  (0 <= m)%Z -> (0 <= round_nearest_even m l)%Z.
Proof.
  intros H. unfold round_nearest_even.
  destruct l as [|[]]; try destruct (Z.even m); lia.
Qed.

(** Rounding a non-negative mantissa gives a number of the sign asked
    for, never NaN. *)
Lemma binary_round_aux_sign (s : bool) (m e : Z) (l : location) :
  (0 <= m)%Z -> has_sign s (binary_round_aux prec emax s m e l).
Proof.
  intros H. unfold binary_round_aux.
  pose proof (shr_fexp_nonneg e l H) as H1.
  destruct (shr_fexp prec emax m e l) as [mrs' e']. cbn [fst] in H1.
  pose proof (shr_fexp_nonneg e' loc_Exact
                (round_nearest_even_nonneg (loc_of_shr_record mrs') H1)) as H2.
  destruct (shr_fexp prec emax _ e' loc_Exact) as [mrs'' e'']. cbn [fst] in H2.
  destruct (shr_m mrs'') as [|q|q]; [reflexivity| |lia].
  destruct (Z.leb e'' (Z.sub emax prec)); reflexivity.
Qed.

Lemma binary_round_sign (s : bool) (m : positive) (e : Z) :
  has_sign s (binary_round prec emax s m e).
Proof.
  unfold binary_round. destruct (shl_align m e _) as [mz ez].
  apply binary_round_aux_sign. lia.
Qed.

Lemma binary_normalize_not_nan (z e : Z) (sz : bool) :
  binary_normalize prec emax z e sz <> S754_nan.
Proof.
  destruct z as [|p|p]; cbn [binary_normalize]; [discriminate| |].
  - pose proof (binary_round_sign false p e) as H. intros E.
    now rewrite E in H.
  - pose proof (binary_round_sign true p e) as H. intros E.
    now rewrite E in H.
Qed.

Lemma has_sign_not_nan (s : bool) (x : spec_float) :
  has_sign s x -> x <> S754_nan.
Proof. intros H ->. exact H. Qed.

(** A square is not negative; it is NaN only for NaN. *)
Lemma fpow2_sign (x : spec_float) :
  x <> S754_nan -> has_sign false (fpow2 prec emax x).
Proof.
  intros H. unfold fpow2, fmul.
  destruct x as [[]|[]| |s m e]; try reflexivity; [contradiction|].
  cbn [SFmul]. replace (xorb s s) with false by now destruct s.
  apply binary_round_aux_sign. lia.
Qed.

Lemma fadd_sign (x y : spec_float) :
  has_sign false x -> has_sign false y ->
  has_sign false (fadd prec emax x y).
Proof.
  unfold fadd.
  destruct x as [sx|sx| |sx mx ex], y as [sy|sy| |sy my ey];
    cbn [has_sign]; intros Hx Hy; try contradiction; subst;
    try reflexivity.
  cbn [SFadd cond_Zopp].
  destruct (shl_align mx ex _) as [a ?], (shl_align my ey _) as [b ?].
  cbn [fst Z.add]. apply binary_round_sign.
Qed.

Lemma fsqrt_sign (x : spec_float) :
  has_sign false x -> has_sign false (fsqrt prec emax x).
Proof.
  unfold fsqrt. destruct x as [s|s| |s m e]; cbn [has_sign]; intros H;
    try contradiction; subst; try reflexivity.
  cbn [SFsqrt]. unfold SFsqrt_core_binary.
  set (m' := match _ with Zpos _ => _ | Z0 => _ | Zneg _ => _ end).
  assert (Hm : (0 <= m')%Z).
  { unfold m'. destruct (_ - _)%Z; try lia. apply Z.shiftl_nonneg. lia. }
  pose proof (Z.sqrtrem_spec m' Hm) as Hs.
  destruct (Z.sqrtrem m') as [q r].
  apply binary_round_aux_sign. lia.
Qed.

Lemma sum_by_sign (t : sum_tree) (l : list spec_float) :
  Forall (has_sign false) l -> has_sign false (sum_by prec emax t l).
Proof.
  intros H. induction t as [|k|a IHa b IHb]; cbn [sum_by].
  - reflexivity.
  - destruct (nth_in_or_default k l (fzero)) as [Hin|E].
    + rewrite Forall_forall in H. now apply H.
    + rewrite E. reflexivity.
  - now apply fadd_sign.
Qed.

(** Whatever the order, a sum of scalars that are neither NaN nor negative
    is neither. *)
Lemma fsum_sign (r : reduction) (l : list spec_float) :
  Forall (has_sign false) l -> has_sign false (fsum prec emax r l).
Proof. apply sum_by_sign. Qed.

(** A sum of scalars that are NaN or not negative is NaN or not
    negative. *)
Lemma fsum_nan_or_nonneg (r : reduction) (l : list spec_float) :
  Forall nan_or_nonneg l -> nan_or_nonneg (fsum prec emax r l).
Proof.
  intros H.
  destruct (in_dec (fun x y : spec_float =>
              ltac:(decide equality; try apply Bool.bool_dec;
                    try apply Pos.eq_dec; apply Z.eq_dec)) S754_nan l)
    as [Hin|Hin].
  - left. now apply fsum_nan.
  - right. apply fsum_sign. rewrite Forall_forall in *.
    intros x Hx. destruct (H x Hx) as [->|Hs]; [contradiction|exact Hs].
Qed.

Lemma sqrt_nan_or_nonneg (x : spec_float) :
  nan_or_nonneg x -> nan_or_nonneg (sqrt_kernel lib x).
Proof.
  intros [->|H]; [left; apply sqrt_nan|right; now apply sqrt_sign].
Qed.

Lemma fpow2_nan_or_nonneg (x : spec_float) :
  nan_or_nonneg (fpow2 prec emax x).
Proof.
  destruct x as [s|s| |s m e] eqn:E;
    try (right; apply fpow2_sign; discriminate).
  left. reflexivity.
Qed.

Lemma euclid_nan_or_nonneg (a b : list spec_float) (m i j : nat) :
  nan_or_nonneg (euclid prec emax lib a b m i j).
Proof.
  unfold euclid. apply sqrt_nan_or_nonneg, fsum_nan_or_nonneg.
  apply Forall_forall. intros x Hx. apply in_map_iff in Hx.
  destruct Hx as (d & <- & _). apply fpow2_nan_or_nonneg.
Qed.

(** Nothing that is NaN or not negative is less than a zero or than
    NaN. *)
Lemma SFltb_nonneg_zero (x : spec_float) (s : bool) :
  nan_or_nonneg x -> SFltb x (S754_zero s) = false.
Proof.
  intros [->|H]; [reflexivity|].
  destruct x as [sx|sx| |sx m e]; cbn in H; try contradiction; subst;
    reflexivity.
Qed.

Lemma SFltb_nan_r (x : spec_float) : SFltb x S754_nan = false.
Proof. destruct x as [[]|[]| |[] m e]; reflexivity. Qed.

(** The difference of a finite scalar and one that is not NaN is not
    NaN. *)
Lemma fsub_not_nan (x c : spec_float) :
  is_finite x = true -> c <> S754_nan -> fsub prec emax x c <> S754_nan.
Proof.
  unfold fsub. intros Hx Hc.
  destruct x as [sx|sx| |sx mx ex]; try discriminate;
    destruct c as [sc|sc| |sc mc ec]; try contradiction;
    try (destruct sx, sc; discriminate); try discriminate.
  cbn [SFsub]. apply binary_normalize_not_nan.
Qed.

Lemma fsub_nan_r (x : spec_float) : fsub prec emax x S754_nan = S754_nan.
Proof. destruct x as [[]|[]| |[] m e]; reflexivity. Qed.

End SignFacts.

(** ** A backend for concrete runs *)

Lemma terms_in_order (n : nat) : terms (in_order_tree n) = seq 0 n.
Proof.
  induction n as [|n IH]; [reflexivity|].
  cbn [in_order_tree terms]. now rewrite IH, seq_S.
Qed.

Lemma in_order_tree_ok (n : nat) : adds_each_once n (in_order_tree n) = true.
Proof.
  unfold adds_each_once. rewrite terms_in_order, length_seq, Nat.eqb_refl.
  apply forallb_forall. intros k Hk. apply existsb_exists.
  exists k. split; [assumption|apply Nat.eqb_refl].
Qed.

(** Every reduction adds in index order. *)
Definition in_order : reduction := mkReduction in_order_tree in_order_tree_ok.

(** The backend of the concrete runs below: reductions in index order and
    the correctly rounded square root of IEEE 754. *)
Definition sequential (prec emax : Z) : backend :=
  mkBackend in_order in_order in_order (fsqrt prec emax)
    eq_refl eq_refl (fsqrt_sign prec emax).

Definition b32 : backend := sequential p32 e32.

(** An order that, of five terms, adds the last to the first before the
    others, [(((x0 + x4) + x1) + x2) + x3], and a backend with it. *)
Definition last_first_tree (n : nat) : sum_tree :=
  if n =? 5
  then Plus (Plus (Plus (Plus (Term 0) (Term 4)) (Term 1)) (Term 2)) (Term 3)
  else in_order_tree n.

Lemma last_first_tree_ok (n : nat) :
  adds_each_once n (last_first_tree n) = true.
Proof.
  unfold last_first_tree.
  destruct (Nat.eqb_spec n 5) as [->|_]; [reflexivity|apply in_order_tree_ok].
Qed.

Definition last_first : reduction :=
  mkReduction last_first_tree last_first_tree_ok.

Definition regrouped (prec emax : Z) : backend :=
  mkBackend last_first last_first last_first (fsqrt prec emax)
    eq_refl eq_refl (fsqrt_sign prec emax).

Lemma sum_by_app (prec emax : Z) (t : sum_tree) (l : list spec_float)
    (x : spec_float) :
  (forall k, In k (terms t) -> k < length l) ->
  sum_by prec emax t (l ++ [x]) = sum_by prec emax t l.
Proof.
  induction t as [|k|a IHa b IHb]; intros H; cbn [sum_by].
  - reflexivity.
  - rewrite app_nth1; [reflexivity|]. apply H. now left.
  - rewrite IHa, IHb; [reflexivity| |]; intros k Hk; apply H; cbn [terms];
      apply in_or_app; auto.
Qed.

(** In index order the sum is the left fold from zero. *)
Lemma fsum_in_order (prec emax : Z) (l : list spec_float) :
  fsum prec emax in_order l = fold_left (fadd prec emax) l fzero.
Proof.
  unfold fsum. cbn [tree_of in_order].
  induction l as [|x l IH] using rev_ind; [reflexivity|].
  rewrite length_app, Nat.add_comm. cbn [length Nat.add in_order_tree sum_by].
  rewrite fold_left_app. cbn [fold_left]. rewrite <- IH.
  rewrite nth_middle. f_equal.
  apply sum_by_app. intros k Hk. rewrite terms_in_order in Hk.
  apply in_seq in Hk. lia.
Qed.

(** ** Shapes and entries of [pairwise_distance] *)

Section PairwiseFacts.

Variables prec emax : Z.
Variable lib : backend.

Lemma unsqueeze_1 {A : Type} (t : tensor A) (n m : nat) :
  shape t = [n; m] -> unsqueeze t 1 = Ok (mkTensor [n; 1; m] (data t)).
Proof. intros E. unfold unsqueeze. rewrite E. reflexivity. Qed.

Lemma unsqueeze_0 {A : Type} (t : tensor A) (n m : nat) :
  shape t = [n; m] -> unsqueeze t 0 = Ok (mkTensor [1; n; m] (data t)).
Proof. intros E. unfold unsqueeze. rewrite E. reflexivity. Qed.

Lemma broadcast_shapes_pair (n1 n2 m1 m2 : nat) :
  broadcast_shapes [n1; 1; m1] [1; n2; m2] =
  if m1 =? m2 then Ok [n1; n2; m1]
  else if m1 =? 1 then Ok [n1; n2; m2]
  else if m2 =? 1 then Ok [n1; n2; m1]
  else Raise RuntimeError.
Proof.
  unfold broadcast_shapes. simpl rev. cbn [broadcast_rev].
  destruct (m1 =? m2), (m1 =? 1), (m2 =? 1);
    destruct (Nat.eqb_spec 1 n2), (Nat.eqb_spec n1 1); subst;
    reflexivity.
Qed.

Lemma offset_left (n1 n2 m idx : nat) :
  idx < n1 * n2 * m ->
  offset [n1; 1; m] [n1; n2; m] idx = idx / (n2 * m) * m + idx mod m.
Proof.
  intros H. unfold offset, pad_shape.
  cbn [length Nat.sub repeat app unravel bcast_offset numel fold_right].
  change (1 =? 1) with true. cbv iota.
  rewrite !Nat.mul_1_r, Nat.div_1_r, !Nat.add_0_r.
  assert (idx / (n2 * m) < n1).
  { apply div_lt_mul. lia. }
  rewrite (Nat.mod_small (idx / (n2 * m)) n1) by assumption.
  rewrite mod_small_dim by assumption.
  destruct (Nat.eqb_spec m 1) as [->|Hm].
  - rewrite Nat.mod_1_r. ring.
  - ring.
Qed.

Lemma offset_right (n1 n2 m idx : nat) :
  idx < n1 * n2 * m ->
  offset [1; n2; m] [n1; n2; m] idx = (idx / m) mod n2 * m + idx mod m.
Proof.
  intros H. unfold offset, pad_shape.
  cbn [length Nat.sub repeat app unravel bcast_offset numel fold_right].
  change (1 =? 1) with true. cbv iota.
  rewrite !Nat.mul_1_r, Nat.div_1_r, !Nat.add_0_r.
  assert (n2 <> 0) by lia. assert (m <> 0) by lia.
  rewrite mod_small_dim by (apply Nat.mod_upper_bound; assumption).
  destruct (Nat.eqb_spec m 1) as [->|Hm].
  - rewrite Nat.mod_1_r. ring.
  - ring.
Qed.

(** The broadcast computation yields, entry by entry, the scalar formula. *)
Lemma pairwise_distance_data (t1 t2 : tensor spec_float) (n1 n2 m : nat) :
  shape t1 = [n1; m] -> shape t2 = [n2; m] ->
  pairwise_distance prec emax lib t1 (Some t2) =
  Ok (mkTensor (filter (fun n => negb (n =? 1)) [n1; n2])
        (tabulate (n1 * n2) (fun idx =>
           euclid prec emax lib (data t1) (data t2) m (idx / n2) (idx mod n2)))).
Proof.
  intros E1 E2. unfold pairwise_distance.
  rewrite (unsqueeze_1 t1 E1), (unsqueeze_0 t2 E2). cbn [bind].
  unfold tsub, broadcast2. cbn [shape data].
  rewrite broadcast_shapes_pair, Nat.eqb_refl. cbn [bind].
  unfold sum_dim, tpow2, tmap. cbn [shape data length Nat.max].
  change (norm_dim 3 (-1)) with (Ok (A := nat) 2). cbn [bind].
  unfold tsqrt, squeeze, tmap, reduce_dim. cbn [shape data firstn skipn nth app].
  f_equal. f_equal.
  unfold numel at 1 2. cbn [fold_right].
  rewrite !Nat.mul_1_r.
  unfold tabulate at 1. rewrite map_map. apply tabulate_ext.
  intros idx Hidx. rewrite Nat.div_1_r, Nat.mod_1_r.
  unfold euclid. f_equal. f_equal. apply tabulate_ext. intros d Hd.
  rewrite Nat.mul_1_r, Nat.add_0_r.
  assert (Hlt : idx * m + d < n1 * n2 * m) by nia.
  rewrite nth_map_tabulate
    by (unfold numel; cbn [fold_right]; rewrite Nat.mul_1_r; lia).
  rewrite offset_left, offset_right by assumption.
  destruct (div_mod_lin idx Hd) as [Ed Em]. rewrite Em.
  replace ((idx * m + d) / (n2 * m)) with (idx / n2).
  2:{ rewrite (Nat.mul_comm n2 m), <- Nat.Div0.div_div, Ed. reflexivity. }
  rewrite Ed. reflexivity.
Qed.

Lemma squeeze_pair (n1 n2 : nat) :
  n1 <> 1 -> n2 <> 1 -> filter (fun n => negb (n =? 1)) [n1; n2] = [n1; n2].
Proof.
  intros H1 H2. cbn [filter].
  destruct (Nat.eqb_spec n1 1), (Nat.eqb_spec n2 1); try contradiction.
  reflexivity.
Qed.

(** Without a second tensor the first one is used twice. *)
Lemma pairwise_distance_self (t : tensor spec_float) :
  pairwise_distance prec emax lib t None =
    pairwise_distance prec emax lib t (Some t).
Proof. reflexivity. Qed.

(** Different numbers of coordinates: only a single coordinate is
    broadcast; any other difference is refused by the subtraction. *)
Lemma pairwise_distance_mismatch (t1 t2 : tensor spec_float)
    (n1 n2 m1 m2 : nat) :
  shape t1 = [n1; m1] -> shape t2 = [n2; m2] ->
  m1 <> m2 -> m1 <> 1 -> m2 <> 1 ->
  pairwise_distance prec emax lib t1 (Some t2) = Raise RuntimeError.
Proof.
  intros E1 E2 Hm H1 H2. unfold pairwise_distance.
  rewrite (unsqueeze_1 t1 E1), (unsqueeze_0 t2 E2). cbn [bind].
  unfold tsub, broadcast2. cbn [shape data].
  rewrite broadcast_shapes_pair.
  destruct (Nat.eqb_spec m1 m2), (Nat.eqb_spec m1 1), (Nat.eqb_spec m2 1);
    try contradiction.
  reflexivity.
Qed.

Lemma pairwise_distance_broadcast (t1 t2 : tensor spec_float)
    (n1 n2 m1 m2 : nat) :
  shape t1 = [n1; m1] -> shape t2 = [n2; m2] ->
  m1 = 1 \/ m2 = 1 ->
  exists D, pairwise_distance prec emax lib t1 (Some t2) = Ok D /\
            shape D = filter (fun n => negb (n =? 1)) [n1; n2].
Proof.
  intros E1 E2 Hm. unfold pairwise_distance.
  rewrite (unsqueeze_1 t1 E1), (unsqueeze_0 t2 E2). cbn [bind].
  unfold tsub, broadcast2. cbn [shape data].
  rewrite broadcast_shapes_pair.
  assert (S : exists m, (if m1 =? m2 then Ok [n1; n2; m1]
               else if m1 =? 1 then Ok [n1; n2; m2]
               else if m2 =? 1 then Ok [n1; n2; m1]
               else Raise RuntimeError) = Ok [n1; n2; m]).
  { destruct (Nat.eqb_spec m1 m2), (Nat.eqb_spec m1 1), (Nat.eqb_spec m2 1);
      try lia; eexists; reflexivity. }
  destruct S as [m ->]. cbn [bind].
  unfold sum_dim, tpow2, tmap. cbn [shape data length Nat.max].
  change (norm_dim 3 (-1)) with (Ok (A := nat) 2). cbn [bind].
  eexists. split; [reflexivity|]. reflexivity.
Qed.

End PairwiseFacts.

(** The order of a reduction shows in the result from five terms on.  The
    distance of [1, 4096, 1, 1, 1] to the origin is 4096 when the float32
    squares are added in index order and 4096 + 2^-11 when the last is
    added to the first before the others; the float64 mean of 0.1, 0.1,
    0.1, 0.1 and 0.2 is 0.12000000000000002 in index order and 0.12 in the
    other. *)
Example reduction_order_shows :
  (exists D D',
     pairwise_distance p32 e32 b32 wide_points (Some origins) = Ok D /\
     pairwise_distance p32 e32 (regrouped p32 e32) wide_points (Some origins)
       = Ok D' /\
     get2 D 0 0 = Ok (f32 4096) /\
     get2 D' 0 0 = Ok (f32_scaled 8388609 (-11))) /\
  fmean 53 1024 in_order [d_0_1; d_0_1; d_0_1; d_0_1; d_0_2] =
    S754_finite false 8646911284551354 (-56) /\
  fmean 53 1024 last_first [d_0_1; d_0_1; d_0_1; d_0_1; d_0_2] =
    SFdiv 53 1024 (binary_normalize 53 1024 12 0 false)
      (binary_normalize 53 1024 100 0 false).
Proof.
  split; [|split; vm_compute; reflexivity].
  do 2 eexists. split; [vm_compute; reflexivity|].
  split; [vm_compute; reflexivity|]. split; vm_compute; reflexivity.
Qed.

(** ** Claims on [pairwise_distance] *)

Lemma get2_matrix {A : Type} `{Dflt A} (t : tensor A) (n m i j : nat) :
  shape t = [n; m] -> i < n -> j < m ->
  get2 t i j = Ok (nth (i * m + j) (data t) dflt).
Proof.
  intros E Hi Hj. unfold get2. rewrite E.
  apply Nat.ltb_lt in Hi, Hj. now rewrite Hi, Hj.
Qed.

Lemma pairwise_distance_matrix (prec emax : Z) (lib : backend)
    (A B : tensor spec_float)
    (n1 n2 m : nat) :
  shape A = [n1; m] -> shape B = [n2; m] -> n1 <> 1 -> n2 <> 1 ->
  exists D, pairwise_distance prec emax lib A (Some B) = Ok D /\
    shape D = [n1; n2] /\ wf D /\
    forall i j, i < n1 -> j < n2 ->
      get2 D i j = Ok (euclid prec emax lib (data A) (data B) m i j).
Proof.
  intros EA EB H1 H2.
  rewrite (pairwise_distance_data prec emax lib A B EA EB), squeeze_pair by assumption.
  eexists. split; [reflexivity|]. split; [reflexivity|]. split.
  - unfold wf. cbn [data shape numel fold_right].
    rewrite length_tabulate. lia.
  - intros i j Hi Hj. rewrite (get2_matrix _ (n := n1) (m := n2)) by easy.
    cbn [data]. rewrite nth_tabulate by nia.
    destruct (div_mod_lin i Hj) as [-> ->]. reflexivity.
Qed.

(** C1, as amended: for point sets [A] (N1 x M) and [B] (N2 x M) with
    [N1 <> 1] and [N2 <> 1], [pairwise_distance(A, B)] is an N1 x N2 matrix
    whose entry [D[i][j]] is the Euclidean distance
    [sqrt(sum over d of (A[i][d] - B[j][d])^2)] of [A[i]] and [B[j]], the
    squares being added in the order of the library's [sum] and the root
    taken by its [sqrt], whatever they are; on the notebook's [A] and [B],
    with three squares added in index order and the correctly rounded root,
    it is a 2 x 2 matrix with [D[0][0] = D[1][1] = sqrt(300)],
    [D[0][1] = sqrt(507)] and [D[1][0] = sqrt(147)], where the float32
    [sqrt(300)] is [9080935 * 2^-19], about 17.32. *)
Theorem pairwise_distance_euclidean :
  (forall (prec emax : Z) (lib : backend)
          (A B : tensor spec_float) (n1 n2 m : nat),
     shape A = [n1; m] -> shape B = [n2; m] -> n1 <> 1 -> n2 <> 1 ->
     exists D, pairwise_distance prec emax lib A (Some B) = Ok D /\
       shape D = [n1; n2] /\ wf D /\
       forall i j, i < n1 -> j < n2 ->
         get2 D i j = Ok (euclid prec emax lib (data A) (data B) m i j)) /\
  (exists D, pairwise_distance p32 e32 b32 points_A (Some points_B) = Ok D /\
     shape D = [2; 2] /\ wf D /\
     get2 D 0 0 = Ok (fsqrt p32 e32 (f32 300)) /\
     get2 D 0 1 = Ok (fsqrt p32 e32 (f32 507)) /\
     get2 D 1 0 = Ok (fsqrt p32 e32 (f32 147)) /\
     get2 D 1 1 = Ok (fsqrt p32 e32 (f32 300)) /\
     fsqrt p32 e32 (f32 300) = f32_scaled 9080935 (-19)).
Proof.
  split.
  - apply pairwise_distance_matrix.
  - eexists. split; [vm_compute; reflexivity|].
    repeat split; vm_compute; reflexivity.
Qed.

Lemma pairwise_distance_euclidean_witness :
  exists D, pairwise_distance p32 e32 b32 points_A (Some points_B) = Ok D /\
    shape D = [2; 2] /\ wf D /\
    forall i j, i < 2 -> j < 2 ->
      get2 D i j =
        Ok (euclid p32 e32 b32 (data points_A) (data points_B) 3 i j).
Proof.
  apply (proj1 pairwise_distance_euclidean p32 e32 b32 points_A points_B 2 2 3);
    [reflexivity|reflexivity|lia|lia].
Defined.

(** C1 as stated fails when one of the sets has a single point: the
    result of a 1 x 3 set against a 2 x 3 set is a vector of two entries,
    not a 1 x 2 matrix, and [D[0][0]] is an indexing error. *)
Lemma pairwise_distance_single_row_not_matrix :
  exists D, pairwise_distance p32 e32 b32 single_point (Some points_B) = Ok D /\
    shape D = [2] /\ shape D <> [1; 2] /\ get2 D 0 0 = Raise IndexError.
Proof.
  eexists. split; [vm_compute; reflexivity|].
  repeat split; try discriminate; reflexivity.
Qed.

(** C9: with a single point on both sides the squeeze leaves a 0-dim
    tensor holding the one distance, not a 1 x 1 matrix. *)
Theorem pairwise_distance_single_pair (prec emax : Z) (lib : backend)
    (A B : tensor spec_float) (m : nat) :
  shape A = [1; m] -> shape B = [1; m] ->
  exists D, pairwise_distance prec emax lib A (Some B) = Ok D /\
    shape D = [] /\ shape D <> [1; 1] /\
    data D = [euclid prec emax lib (data A) (data B) m 0 0] /\
    get2 D 0 0 = Raise IndexError.
Proof.
  intros EA EB.
  rewrite (pairwise_distance_data prec emax lib A B EA EB).
  eexists. split; [reflexivity|]. cbn. repeat split; discriminate.
Qed.

Lemma pairwise_distance_single_pair_witness :
  exists D, pairwise_distance p32 e32 b32 single_point (Some single_point) = Ok D /\
    shape D = [] /\ shape D <> [1; 1] /\
    data D =
      [euclid p32 e32 b32 (data single_point) (data single_point) 3 0 0] /\
    get2 D 0 0 = Raise IndexError.
Proof.
  apply (pairwise_distance_single_pair p32 e32 b32 single_point single_point (m := 3));
    reflexivity.
Defined.

(** C6, as amended: when the numbers of coordinates differ and neither is
    one, the subtraction refuses to broadcast and [pairwise_distance] raises
    before any entry is computed; when one of them is one, that coordinate
    is broadcast and a result is returned without error. *)
Theorem pairwise_distance_shape_check (prec emax : Z) (lib : backend)
    (A B : tensor spec_float) (n1 n2 m1 m2 : nat) :
  shape A = [n1; m1] -> shape B = [n2; m2] -> m1 <> m2 ->
  (m1 <> 1 -> m2 <> 1 ->
   tsub prec emax (mkTensor [n1; 1; m1] (data A)) (mkTensor [1; n2; m2] (data B))
     = Raise RuntimeError /\
   pairwise_distance prec emax lib A (Some B) = Raise RuntimeError) /\
  (m1 = 1 \/ m2 = 1 ->
   exists D, pairwise_distance prec emax lib A (Some B) = Ok D /\
     shape D = filter (fun n => negb (n =? 1)) [n1; n2]).
Proof.
  intros EA EB Hm. split.
  - intros H1 H2. split.
    + unfold tsub, broadcast2. cbn [shape]. rewrite broadcast_shapes_pair.
      destruct (Nat.eqb_spec m1 m2), (Nat.eqb_spec m1 1), (Nat.eqb_spec m2 1);
        try contradiction.
      reflexivity.
    + now apply (pairwise_distance_mismatch prec emax lib A B EA EB).
  - now apply pairwise_distance_broadcast.
Qed.

Lemma pairwise_distance_shape_check_witness :
  (tsub p32 e32 (mkTensor [2; 1; 2] (data (tensor_f32 [2; 2] [1; 2; 3; 4]%Z)))
     (mkTensor [1; 2; 3] (data points_B)) = Raise RuntimeError /\
   pairwise_distance p32 e32 b32 (tensor_f32 [2; 2] [1; 2; 3; 4]%Z) (Some points_B)
     = Raise RuntimeError) /\
  (exists D, pairwise_distance p32 e32 b32 points_1d (Some points_B) = Ok D /\
     shape D = filter (fun n => negb (n =? 1)) [2; 2]).
Proof.
  split.
  - apply (pairwise_distance_shape_check p32 e32 b32
             (tensor_f32 [2; 2] [1; 2; 3; 4]%Z) points_B
             (n1 := 2) (n2 := 2) (m1 := 2) (m2 := 3));
      [reflexivity|reflexivity|lia|lia|lia].
  - apply (pairwise_distance_shape_check p32 e32 b32 points_1d points_B
             (n1 := 2) (n2 := 2) (m1 := 1) (m2 := 3));
      [reflexivity|reflexivity|lia|left; reflexivity].
Defined.

(** C6 as stated fails: a set of points with one coordinate against a set
    with three raises nothing; the coordinate is broadcast and a 2 x 2
    matrix is returned. *)
Lemma pairwise_distance_mismatch_accepted :
  shape points_1d = [2; 1] /\ shape points_B = [2; 3] /\
  exists D, pairwise_distance p32 e32 b32 points_1d (Some points_B) = Ok D /\
    shape D = [2; 2] /\
    get2 D 0 0 = Ok (fsqrt p32 e32 (f32 365)).
Proof.
  split; [reflexivity|]. split; [reflexivity|].
  eexists. split; [vm_compute; reflexivity|].
  split; vm_compute; reflexivity.
Qed.

(** C8, as amended: for a point set [A] of [N <> 1] points,
    [pairwise_distance(A)] is an N x N matrix with [D[i][j] = D[j][i]] for
    all [i], [j], and [D[i][i] = 0] for every point [i] whose coordinates
    are all finite. *)
Theorem pairwise_distance_symmetric (prec emax : Z) (lib : backend)
    (A : tensor spec_float) (n m : nat) :
  shape A = [n; m] -> n <> 1 ->
  exists D, pairwise_distance prec emax lib A None = Ok D /\
    shape D = [n; n] /\
    (forall i j, i < n -> j < n -> get2 D i j = get2 D j i) /\
    (forall i, i < n ->
       (forall d, d < m -> is_finite (nth (i * m + d) (data A) dflt) = true) ->
       get2 D i i = Ok fzero).
Proof.
  intros EA Hn. rewrite pairwise_distance_self.
  destruct (pairwise_distance_matrix prec emax lib A A EA EA Hn Hn)
    as (D & -> & ES & _ & HD).
  exists D. split; [reflexivity|]. split; [assumption|]. split.
  - intros i j Hi Hj. rewrite !HD by assumption. f_equal.
    unfold euclid. do 2 f_equal. apply tabulate_ext. intros d _.
    apply fpow2_fsub_comm.
  - intros i Hi Hfin. rewrite HD by assumption. f_equal.
    unfold euclid. rewrite fsum_zeros; [apply sqrt_zero|].
    apply Forall_forall. intros x Hx. apply in_map_iff in Hx.
    destruct Hx as (d & <- & Hd). apply in_seq in Hd.
    rewrite fsub_diag by (apply Hfin; lia). reflexivity.
Qed.

Lemma pairwise_distance_symmetric_witness :
  exists D, pairwise_distance p32 e32 b32 points_A None = Ok D /\
    shape D = [2; 2] /\
    (forall i j, i < 2 -> j < 2 -> get2 D i j = get2 D j i) /\
    (forall i, i < 2 ->
       (forall d, d < 3 ->
          is_finite (nth (i * 3 + d) (data points_A) dflt) = true) ->
       get2 D i i = Ok fzero).
Proof.
  apply (pairwise_distance_symmetric p32 e32 b32 points_A (n := 2) (m := 3));
    [reflexivity|lia].
Defined.

(** C8 as stated fails on a single point, whose self-distance is a 0-dim
    tensor without entries [D[i][j]], and on a point with an infinite
    coordinate, whose distance to itself is NaN. *)
Lemma pairwise_distance_diagonal_not_zero :
  (exists D, pairwise_distance p32 e32 b32 single_point None = Ok D /\
     shape D = [] /\ get2 D 0 0 = Raise IndexError) /\
  (exists D, pairwise_distance p32 e32 b32 points_inf None = Ok D /\
     shape D = [2; 2] /\ get2 D 0 0 = Ok S754_nan).
Proof.
  split; eexists; (split; [vm_compute; reflexivity|]); split; reflexivity.
Qed.

(** ** Claims on [initial_points] *)

Lemma np_random_choice_ok (a : nat) (size : Z) (rng : nat -> nat) :
  (0 <= size)%Z -> (a <> 0 \/ size = 0%Z) ->
  np_random_choice a size rng =
  Ok (tabulate (Z.to_nat size) (fun i => rng i mod a)).
Proof.
  intros Hs Ha. unfold np_random_choice.
  destruct (Z.ltb_spec size 0); [lia|].
  destruct (Nat.eqb_spec a 0), (Z.eqb_spec size 0); cbn; try reflexivity.
  lia.
Qed.

Lemma initial_points_ok (X : tensor spec_float) (n m : nat) (K : Z)
    (rng : nat -> nat) :
  shape X = [n; m] -> (0 <= K)%Z -> (n <> 0 \/ K = 0%Z) ->
  initial_points X K rng =
  Ok (mkTensor [Z.to_nat K; m]
        (tabulate (Z.to_nat K * m) (fun idx =>
           nth (rng (idx / m) mod n * m + idx mod m) (data X) dflt))).
Proof.
  intros EX HK Hn. unfold initial_points, len. rewrite EX. cbn [bind].
  rewrite np_random_choice_ok by assumption. cbn [bind].
  unfold getitem_rows. rewrite EX.
  assert (B : forallb (fun i => i <? n)
                (tabulate (Z.to_nat K) (fun i => rng i mod n)) = true).
  { apply forallb_forall. intros x Hx. apply in_map_iff in Hx.
    destruct Hx as (i & <- & Hi). apply in_seq in Hi.
    apply Nat.ltb_lt. apply Nat.mod_upper_bound. lia. }
  rewrite B, length_tabulate. f_equal.
  unfold numel. cbn [fold_right]. rewrite Nat.mul_1_r.
  f_equal. apply tabulate_ext. intros idx Hidx.
  rewrite nth_tabulate by (apply div_lt_mul; lia). reflexivity.
Qed.

(** C7: on a non-empty point set, [initial_points(X, K)] returns K
    centroids, centroid [k] being the point of [X] at the index of draw
    [k]: every centroid is a point of the input and none is synthesized.
    The draws are with replacement: any list of K indices can be drawn, and
    when two draws coincide the two centroids are the same point. *)
Theorem initial_points_forgy (X : tensor spec_float) (n m K : nat)
    (rng : nat -> nat) :
  shape X = [n; m] -> 0 < n ->
  (exists C, initial_points X (Z.of_nat K) rng = Ok C /\
     shape C = [K; m] /\ wf C /\
     (forall k d, k < K -> d < m -> get2 C k d = get2 X (rng k mod n) d) /\
     (forall k k', k < K -> k' < K -> rng k mod n = rng k' mod n ->
        forall d, d < m -> get2 C k d = get2 C k' d)) /\
  (forall l, length l = K -> Forall (fun i => i < n) l ->
     exists rng', np_random_choice n (Z.of_nat K) rng' = Ok l) /\
  (2 <= K ->
   exists rng' C, initial_points X (Z.of_nat K) rng' = Ok C /\
     rng' 0 mod n = rng' 1 mod n /\
     forall d, d < m -> get2 C 0 d = get2 C 1 d /\ get2 C 0 d = get2 X 0 d).
Proof.
  intros EX Hn.
  assert (G : forall r, exists C, initial_points X (Z.of_nat K) r = Ok C /\
     shape C = [K; m] /\ wf C /\
     (forall k d, k < K -> d < m -> get2 C k d = get2 X (r k mod n) d)).
  { intros r. rewrite (@initial_points_ok X n m (Z.of_nat K) r EX) by lia.
    rewrite Nat2Z.id. eexists. split; [reflexivity|].
    split; [reflexivity|]. split.
    - unfold wf. cbn [data shape numel fold_right].
      rewrite length_tabulate. lia.
    - intros k d Hk Hd.
      rewrite (get2_matrix _ (n := K) (m := m)) by easy.
      rewrite (get2_matrix X (n := n) (m := m));
        [|assumption|apply Nat.mod_upper_bound; lia|assumption].
      cbn [data]. rewrite nth_tabulate by nia.
      destruct (div_mod_lin k Hd) as [-> ->]. reflexivity. }
  split; [|split].
  - destruct (G rng) as (C & EC & ES & W & HC).
    exists C. repeat split; try assumption.
    intros k k' Hk Hk' E d Hd. rewrite !HC by assumption. now rewrite E.
  - intros l Hl Hall. exists (fun i => nth i l 0).
    rewrite np_random_choice_ok by lia. f_equal. rewrite Nat2Z.id.
    apply nth_ext with (d := 0) (d' := 0).
    + now rewrite length_tabulate.
    + intros i Hi. rewrite length_tabulate in Hi. rewrite nth_tabulate by assumption.
      apply Nat.mod_small. rewrite Forall_forall in Hall.
      apply Hall, nth_In. lia.
  - intros HK. exists (fun _ => 0).
    destruct (G (fun _ => 0)) as (C & EC & ES & W & HC).
    exists C. split; [assumption|]. split; [reflexivity|].
    intros d Hd. rewrite !HC by lia.
    rewrite Nat.Div0.mod_0_l. split; reflexivity.
Qed.

Lemma initial_points_forgy_witness :
  (exists C, initial_points four_points (Z.of_nat 2) (fun i => 3 * i) = Ok C /\
     shape C = [2; 2] /\ wf C /\
     (forall k d, k < 2 -> d < 2 ->
        get2 C k d = get2 four_points ((fun i => 3 * i) k mod 4) d) /\
     (forall k k', k < 2 -> k' < 2 ->
        (fun i => 3 * i) k mod 4 = (fun i => 3 * i) k' mod 4 ->
        forall d, d < 2 -> get2 C k d = get2 C k' d)) /\
  (forall l, length l = 2 -> Forall (fun i => i < 4) l ->
     exists rng', np_random_choice 4 (Z.of_nat 2) rng' = Ok l) /\
  (2 <= 2 ->
   exists rng' C, initial_points four_points (Z.of_nat 2) rng' = Ok C /\
     rng' 0 mod 4 = rng' 1 mod 4 /\
     forall d, d < 2 ->
       get2 C 0 d = get2 C 1 d /\ get2 C 0 d = get2 four_points 0 d).
Proof.
  apply (@initial_points_forgy four_points 4 2 2 (fun i => 3 * i));
    [reflexivity|lia].
Defined.

(** ** Claims on [kmeans]: parameters *)

Lemma kmeans_pass_no_cluster (prec emax : Z) (lib : backend)
    (X C : tensor spec_float)
    (n m : nat) (sqrt_tol : spec_float) :
  shape X = [n; m] -> shape C = [0; m] ->
  kmeans_pass prec emax lib X 0 sqrt_tol C = Raise IndexError.
Proof.
  intros EX EC. unfold kmeans_pass.
  rewrite (pairwise_distance_data prec emax lib X C EX EC). cbn [bind].
  unfold argmin. cbn [shape filter Nat.eqb negb].
  destruct (n =? 1); reflexivity.
Qed.

(** C5, as amended: for a negative cluster count, and for a positive one
    on an empty point set, [kmeans] fails at initialization, before the
    loop, with [ValueError]; for a cluster count of zero initialization
    succeeds with an empty centroid set and the error is raised inside the
    first iteration, by [argmin]; for a cluster count above the number
    [N >= 1] of points initialization succeeds, the indices being drawn
    with replacement, and the loop is entered. *)
Theorem kmeans_invalid_cluster_count (prec emax : Z) (lib : backend)
    (X : tensor spec_float)
    (n m : nat) (K : Z) (tol : option spec_float) (sqrt_tol : spec_float)
    (rng : nat -> nat) (fuel : nat) :
  shape X = [n; m] ->
  math_sqrt (match tol with Some t => t | None => default_tol end)
    = Ok sqrt_tol ->
  ((K < 0)%Z \/ (n = 0 /\ (0 < K)%Z) ->
   initial_points X K rng = Raise ValueError /\
   kmeans prec emax lib fuel X K tol rng = Raises ValueError) /\
  (K = 0%Z ->
   (exists C, initial_points X K rng = Ok C /\ shape C = [0; m]) /\
   kmeans prec emax lib 0 X K tol rng = Running /\
   kmeans prec emax lib (S fuel) X K tol rng = Raises IndexError) /\
  (0 < n -> (Z.of_nat n < K)%Z ->
   (exists C, initial_points X K rng = Ok C /\ shape C = [Z.to_nat K; m]) /\
   kmeans prec emax lib 0 X K tol rng = Running).
Proof.
  intros EX Ht. split; [|split].
  - intros HK.
    assert (E : initial_points X K rng = Raise ValueError).
    { unfold initial_points, len. rewrite EX. cbn [bind].
      unfold np_random_choice.
      destruct (Z.ltb_spec K 0); [reflexivity|].
      destruct HK as [HK|[-> HK]]; [lia|].
      destruct (Z.eqb_spec K 0); [lia|]. reflexivity. }
    split; [assumption|]. unfold kmeans. now rewrite E.
  - intros ->.
    assert (E := @initial_points_ok X n m 0%Z rng EX (Z.le_refl 0)
                   (or_intror eq_refl)).
    split; [eexists; split; [exact E|reflexivity]|].
    unfold kmeans. rewrite E, Ht. split; [reflexivity|].
    cbn [kmeans_loop]. now rewrite (kmeans_pass_no_cluster prec emax lib X _ (n := n) (m := m)).
  - intros Hn HK.
    assert (E : initial_points X K rng = _) by
      (apply (@initial_points_ok X n m K rng EX); lia).
    split; [eexists; split; [exact E|reflexivity]|].
    unfold kmeans. rewrite E, Ht. reflexivity.
Qed.

Lemma kmeans_invalid_cluster_count_witness :
  (initial_points four_points (-1) (fun i => i) = Raise ValueError /\
   kmeans p32 e32 b32 3 four_points (-1) None (fun i => i)
     = Raises ValueError) /\
  ((exists C, initial_points four_points 0 (fun i => i) = Ok C /\
      shape C = [0; 2]) /\
   kmeans p32 e32 b32 0 four_points 0 None (fun i => i) = Running /\
   kmeans p32 e32 b32 (S 3) four_points 0 None (fun i => i)
     = Raises IndexError) /\
  ((exists C, initial_points four_points 6 (fun i => i) = Ok C /\
      shape C = [Z.to_nat 6; 2]) /\
   kmeans p32 e32 b32 0 four_points 6 None (fun i => i) = Running).
Proof.
  pose proof (fun K => @kmeans_invalid_cluster_count p32 e32 b32 four_points 4 2 K
             None (SFsqrt 53 1024 default_tol) (fun i => i) 3
             eq_refl eq_refl) as T.
  split; [|split].
  - apply (proj1 (T (-1)%Z)). left. lia.
  - apply (proj1 (proj2 (T 0%Z))). reflexivity.
  - apply (proj2 (proj2 (T 6%Z))); lia.
Defined.

(** C5 as stated fails: six clusters asked of four points raise nothing at
    initialization; six centroids are drawn, with repetitions, and the loop
    is entered and still runs after five iterations. *)
Lemma kmeans_accepts_more_clusters_than_points :
  shape four_points = [4; 2] /\
  (exists C, initial_points four_points 6 (fun i => i) = Ok C /\
     shape C = [6; 2]) /\
  kmeans p32 e32 b32 0 four_points 6 None (fun i => i) = Running /\
  kmeans p32 e32 b32 5 four_points 6 None (fun i => i) = Running.
Proof.
  split; [reflexivity|]. split.
  - eexists. split; [vm_compute; reflexivity|reflexivity].
  - split; vm_compute; reflexivity.
Qed.

(** ** The assignment step *)

Section AssignFacts.

Variables prec emax : Z.
Variable lib : backend.

Lemma argmin_from_lt (l : list spec_float) (best_i : nat) (best : spec_float)
    (i : nat) :
  best_i < i -> argmin_from best_i best i l < i + length l.
Proof.
  revert best_i best i.
  induction l as [|v l IH]; intros best_i best i H; cbn [argmin_from length].
  - lia.
  - destruct (negb (is_nan best) && (is_nan v || SFltb v best)).
    + specialize (IH i v (S i)). lia.
    + specialize (IH best_i best (S i)). lia.
Qed.

Lemma argmin_list_lt (l : list spec_float) :
  l <> [] -> argmin_list l < length l.
Proof.
  destruct l as [|v l]; [congruence|]. intros _.
  apply (argmin_from_lt l v (best_i := 0) (i := 1)). lia.
Qed.

Lemma argmin_matrix (D : tensor spec_float) (n k : nat) :
  shape D = [n; k] -> k <> 0 ->
  argmin D 1 =
  Ok (mkTensor [n]
        (tabulate n (fun i =>
           argmin_list (tabulate k (fun j => nth (i * k + j) (data D) dflt))))).
Proof.
  intros ED Hk. unfold argmin. rewrite ED. cbn [length Nat.max].
  change (norm_dim 2 1) with (Ok (A := nat) 1). cbn [bind nth].
  destruct (Nat.eqb_spec k 0); [contradiction|].
  unfold reduce_dim. rewrite ED. cbn [firstn skipn nth app numel fold_right].
  rewrite !Nat.mul_1_r. do 2 f_equal. apply tabulate_ext. intros i Hi.
  rewrite Nat.div_1_r, Nat.mod_1_r. f_equal. apply tabulate_ext. intros j Hj.
  f_equal. lia.
Qed.

Lemma argmin_low_rank (D : tensor spec_float) :
  length (shape D) <= 1 -> argmin D 1 = Raise IndexError.
Proof.
  intros H. unfold argmin.
  destruct (shape D) as [|a [|b s]]; cbn in H; try lia; reflexivity.
Qed.

(** The assignment step succeeds only on a distance matrix that kept both
    dimensions, so with neither a single point nor a single centroid, and
    with at least one centroid; the vector then has one index below [k] per
    point. *)
Lemma assign_inv (X C D : tensor spec_float) (clusters : tensor nat)
    (n m k : nat) :
  shape X = [n; m] -> shape C = [k; m] ->
  pairwise_distance prec emax lib X (Some C) = Ok D ->
  argmin D 1 = Ok clusters ->
  n <> 1 /\ k <> 1 /\ k <> 0 /\
  shape clusters = [n] /\ length (data clusters) = n /\
  Forall (fun c => c < k) (data clusters).
Proof.
  intros EX EC ED EA.
  rewrite (pairwise_distance_data prec emax lib X C EX EC) in ED.
  injection ED as <-.
  destruct (Nat.eq_dec n 1) as [->|Hn].
  { rewrite argmin_low_rank in EA; [discriminate|].
    cbn [shape filter Nat.eqb negb]. destruct (negb (k =? 1)); cbn; lia. }
  destruct (Nat.eq_dec k 1) as [->|Hk].
  { rewrite argmin_low_rank in EA; [discriminate|].
    cbn [shape filter Nat.eqb negb]. destruct (negb (n =? 1)); cbn; lia. }
  destruct (Nat.eq_dec k 0) as [->|Hk0].
  { unfold argmin in EA. cbn [shape] in EA.
    destruct (Nat.eqb_spec n 1); [contradiction|]. discriminate. }
  rewrite (argmin_matrix _ (n := n) (k := k)) in EA;
    [|cbn [shape filter];
      destruct (Nat.eqb_spec n 1), (Nat.eqb_spec k 1); try contradiction;
      reflexivity|assumption].
  injection EA as <-. cbn [shape data].
  repeat split; try assumption.
  - apply length_tabulate.
  - apply Forall_forall. intros c Hc. apply in_map_iff in Hc.
    destruct Hc as (i & <- & _).
    match goal with |- argmin_list ?l < k =>
      replace k with (length l) at 2 by apply length_tabulate;
      apply argmin_list_lt
    end.
    destruct k; [contradiction|]. discriminate.
Qed.

End AssignFacts.

(** With at least two centroids, and not on a single point, the assignment
    step succeeds: point [i] gets the index of the minimum of the row of its
    distances to the [k] centroids. *)
Lemma assign_total (prec emax : Z) (lib : backend)
    (X C : tensor spec_float) (n m k : nat) :
  shape X = [n; m] -> shape C = [k; m] -> n <> 1 -> k <> 1 -> k <> 0 ->
  assign prec emax lib X C =
  Ok (mkTensor [n]
        (tabulate n (fun i =>
           argmin_list
             (tabulate k (fun j => euclid prec emax lib (data X) (data C) m i j))))).
Proof.
  intros EX EC Hn Hk Hk0. unfold assign.
  rewrite (pairwise_distance_data prec emax lib X C EX EC). cbn [bind].
  rewrite (@argmin_matrix _ n k);
    [|cbn [shape]; now apply squeeze_pair|assumption].
  do 2 f_equal. apply tabulate_ext. intros i Hi. f_equal.
  apply tabulate_ext. intros j Hj. cbn [data].
  rewrite nth_tabulate by nia.
  now destruct (div_mod_lin i Hj) as [-> ->].
Qed.

(** ** The update step *)

Lemma numel1 (a : nat) : numel [a] = a.
Proof. apply Nat.mul_1_r. Qed.

Lemma numel2 (a b : nat) : numel [a; b] = a * b.
Proof. cbn [numel fold_right]. now rewrite Nat.mul_1_r. Qed.

(** A matrix whose data is tabulated over its shape is well formed. *)
Ltac wf_tabulate :=
  unfold wf; cbn [data shape]; now rewrite length_tabulate, numel2.

Lemma broadcast_rev_same (r : list nat) : broadcast_rev r r = Ok r.
Proof.
  induction r as [|a r IH]; [reflexivity|].
  cbn [broadcast_rev]. now rewrite Nat.eqb_refl, IH.
Qed.

Lemma broadcast_shapes_same (s : list nat) : broadcast_shapes s s = Ok s.
Proof.
  unfold broadcast_shapes. rewrite broadcast_rev_same. cbn [bind].
  now rewrite rev_involutive.
Qed.

Lemma offset_same1 (m j : nat) : j < m -> offset [m] [m] j = j.
Proof.
  intros H. unfold offset, pad_shape.
  cbn [length Nat.sub repeat app unravel bcast_offset numel fold_right].
  rewrite Nat.div_1_r, Nat.mod_small by assumption.
  rewrite mod_small_dim by assumption. lia.
Qed.

Lemma offset_same2 (k m idx : nat) :
  idx < k * m -> offset [k; m] [k; m] idx = idx.
Proof.
  intros H. unfold offset, pad_shape.
  cbn [length Nat.sub repeat app unravel bcast_offset numel fold_right].
  rewrite !Nat.mul_1_r, Nat.div_1_r, !Nat.add_0_r.
  assert (m <> 0) by lia.
  rewrite (Nat.mod_small (idx / m) k) by (apply div_lt_mul; lia).
  rewrite !mod_small_dim
    by (try apply Nat.mod_upper_bound; try apply div_lt_mul; lia).
  rewrite (Nat.div_mod_eq idx m) at 3. lia.
Qed.

Lemma tabulate_nth {A B : Type} (f : A -> B) (l : list A) (d : A) :
  tabulate (length l) (fun k => f (nth k l d)) = map f l.
Proof.
  apply nth_ext with (d := f d) (d' := f d).
  - now rewrite length_tabulate, length_map.
  - intros i Hi. rewrite length_tabulate in Hi.
    rewrite nth_tabulate by assumption. symmetry. apply map_nth.
Qed.

Lemma flat_map_unravel1 (n : nat) (l : list nat) :
  Forall (fun i => i < n) l -> flat_map (unravel [n]) l = l.
Proof.
  induction 1 as [|i l Hi _ IH]; [reflexivity|].
  change (flat_map (unravel [n]) (i :: l))
    with (unravel [n] i ++ flat_map (unravel [n]) l).
  rewrite IH. cbn [unravel numel fold_right app].
  now rewrite Nat.div_1_r, Nat.mod_small.
Qed.

Lemma members_lt (clusters : tensor nat) (ndx n : nat) :
  shape clusters = [n] -> Forall (fun i => i < n) (members clusters ndx).
Proof.
  intros E. unfold members. rewrite E, numel1.
  apply Forall_forall. intros i Hi. apply filter_In in Hi.
  destruct Hi as [Hi _]. apply in_seq in Hi. lia.
Qed.

Lemma nonzero_eq_scalar (clusters : tensor nat) (ndx n : nat) :
  shape clusters = [n] -> length (data clusters) = n ->
  nonzero (eq_scalar clusters ndx) =
  mkTensor [length (members clusters ndx); 1] (members clusters ndx).
Proof.
  intros E L. unfold nonzero, eq_scalar, tmap. cbn [shape data length].
  assert (M : filter (fun idx => nth idx (map (fun x => x =? ndx) (data clusters)) dflt)
                (seq 0 (numel (shape clusters))) = members clusters ndx).
  { unfold members. apply filter_ext_in. intros i Hi. apply in_seq in Hi.
    rewrite E, numel1 in Hi.
    rewrite (nth_indep _ dflt ((fun x => x =? ndx) dflt))
      by (rewrite length_map; lia).
    apply (map_nth (fun x => x =? ndx)). }
  rewrite M, E. cbn [length]. f_equal. apply flat_map_unravel1.
  now apply members_lt.
Qed.

Lemma getitem_rows_matrix {A : Type} `{Dflt A} (X : tensor A) (n m : nat)
    (indices : list nat) :
  shape X = [n; m] -> Forall (fun i => i < n) indices ->
  getitem_rows X indices =
  Ok (mkTensor [length indices; m]
        (tabulate (length indices * m) (fun idx =>
           nth (nth (idx / m) indices 0 * m + idx mod m) (data X) dflt))).
Proof.
  intros EX Hall. unfold getitem_rows. rewrite EX, numel1.
  assert (B : forallb (fun i => i <? n) indices = true).
  { apply forallb_forall. rewrite Forall_forall in Hall.
    intros i Hi. apply Nat.ltb_lt. now apply Hall. }
  now rewrite B.
Qed.

Lemma initial_points_ok_rows (X : tensor spec_float) (n m : nat) (K : Z)
    (rng : nat -> nat) :
  shape X = [n; m] -> (n <> 0 \/ K = 0%Z) ->
  exists C,
    getitem_rows X (map (fun i => rng i mod n) (seq 0 (Z.to_nat K))) = Ok C.
Proof.
  intros EX H. eexists. apply (getitem_rows_matrix X EX).
  apply Forall_forall. intros x Hx. apply in_map_iff in Hx.
  destruct Hx as (i & <- & Hi). apply in_seq in Hi.
  apply Nat.mod_upper_bound. lia.
Qed.

Section UpdateFacts.

Variables prec emax : Z.
Variable lib : backend.

Lemma mean_dim0_matrix (t : tensor spec_float) (c m : nat) :
  shape t = [c; m] ->
  mean_dim prec emax lib t 0 =
  Ok (mkTensor [m]
        (tabulate m (fun j =>
           fmean prec emax (mean_dim_order lib)
             (tabulate c (fun k => nth (k * m + j) (data t) dflt))))).
Proof.
  intros E. unfold mean_dim. rewrite E. cbn [length Nat.max].
  change (norm_dim 2 0) with (Ok (A := nat) 0). cbn [bind].
  unfold reduce_dim. rewrite E. cbn [firstn skipn nth app].
  rewrite numel1. change (numel []) with 1. rewrite Nat.mul_1_l.
  do 2 f_equal. apply tabulate_ext. intros j Hj.
  rewrite Nat.div_small, Nat.mod_small by assumption.
  f_equal.
Qed.

Lemma setitem_row_matrix (C v : tensor spec_float) (k m i : nat) :
  shape C = [k; m] -> shape v = [m] -> i < k ->
  setitem_row C i v =
  Ok (mkTensor [k; m]
        (tabulate (k * m) (fun idx =>
           if idx / m =? i then nth (idx mod m) (data v) dflt
           else nth idx (data C) dflt))).
Proof.
  intros EC Ev Hi. unfold setitem_row. rewrite EC, Ev.
  apply Nat.ltb_lt in Hi. rewrite Hi.
  rewrite broadcast_shapes_same. cbn [bind].
  destruct (list_eq_dec Nat.eq_dec [m] [m]) as [_|N]; [|congruence].
  rewrite numel1, numel2. do 2 f_equal. apply tabulate_ext. intros idx Hidx.
  destruct (idx / m =? i); [|reflexivity].
  rewrite offset_same1; [reflexivity|].
  apply Nat.mod_upper_bound. lia.
Qed.

(** One centroid is moved to the mean of its members; the others are
    kept. *)
Lemma move_centroid_ok (X C : tensor spec_float) (clusters : tensor nat)
    (n m k ndx : nat) :
  shape X = [n; m] -> shape clusters = [n] -> length (data clusters) = n ->
  shape C = [k; m] -> ndx < k ->
  move_centroid prec emax lib X clusters C ndx =
  Ok (mkTensor [k; m]
        (tabulate (k * m) (fun idx =>
           if idx / m =? ndx
           then mean_coord prec emax lib X m (members clusters ndx) (idx mod m)
           else nth idx (data C) dflt))).
Proof.
  intros EX Ecl Lcl EC Hndx. unfold move_centroid.
  rewrite (nonzero_eq_scalar clusters ndx Ecl Lcl).
  set (sel := members clusters ndx).
  assert (Hsel : Forall (fun i => i < n) sel) by now apply members_lt.
  assert (R : index_select0 X (squeeze (mkTensor [length sel; 1] sel)) =
              getitem_rows X sel).
  { unfold index_select0, squeeze. cbn [shape data filter Nat.eqb negb].
    destruct (negb (length sel =? 1)); reflexivity. }
  rewrite R, (getitem_rows_matrix X EX Hsel). cbn [bind].
  rewrite (mean_dim0_matrix _ (c := length sel) (m := m)) by reflexivity.
  cbn [bind data].
  rewrite (setitem_row_matrix C _ (k := k) (m := m) (i := ndx))
    by (try reflexivity; assumption).
  do 2 f_equal. apply tabulate_ext. intros idx Hidx.
  destruct (idx / m =? ndx); [|reflexivity].
  cbn [data]. assert (Hm : idx mod m < m) by (apply Nat.mod_upper_bound; lia).
  rewrite nth_tabulate by assumption.
  unfold mean_coord. rewrite <- (tabulate_nth _ sel 0). f_equal.
  apply tabulate_ext. intros j Hj.
  rewrite nth_tabulate by nia.
  destruct (div_mod_lin j Hm) as [-> ->]. reflexivity.
Qed.

Lemma tensor_eta (C : tensor spec_float) (s : list nat) :
  shape C = s -> wf C ->
  C = mkTensor s (tabulate (numel s) (fun idx => nth idx (data C) dflt)).
Proof.
  intros E W. destruct C as [sh d]. cbn in *. subst sh. f_equal.
  rewrite <- W. symmetry.
  rewrite (tabulate_nth (fun x => x) d dflt). apply map_id.
Qed.

Lemma move_centroids_ok (X : tensor spec_float) (clusters : tensor nat)
    (n m k : nat) (ndxs : list nat) (C : tensor spec_float) :
  shape X = [n; m] -> shape clusters = [n] -> length (data clusters) = n ->
  shape C = [k; m] -> wf C -> Forall (fun i => i < k) ndxs ->
  move_centroids prec emax lib X clusters C ndxs =
  Ok (mkTensor [k; m]
        (tabulate (k * m) (fun idx =>
           if existsb (Nat.eqb (idx / m)) ndxs
           then mean_coord prec emax lib X m (members clusters (idx / m)) (idx mod m)
           else nth idx (data C) dflt))).
Proof.
  intros EX Ecl Lcl. revert C.
  induction ndxs as [|ndx rest IH]; intros C EC W Hall.
  - cbn [move_centroids existsb]. f_equal.
    rewrite <- numel2. now apply tensor_eta.
  - cbn [move_centroids].
    rewrite (@move_centroid_ok X C clusters n m k ndx EX Ecl Lcl EC)
      by now inversion Hall.
    cbn [bind]. rewrite IH; [|reflexivity| |now inversion Hall].
    2:{ wf_tabulate. }
    do 2 f_equal. apply tabulate_ext. intros idx Hidx.
    cbn [existsb data]. rewrite nth_tabulate by assumption.
    destruct (existsb (Nat.eqb (idx / m)) rest).
    + now rewrite orb_true_r.
    + rewrite orb_false_r.
      destruct (Nat.eqb_spec (idx / m) ndx) as [E|_]; [|reflexivity].
      now rewrite E.
Qed.

(** The whole [for] loop moves every centroid to the mean of its
    members. *)
Lemma update_ok (X : tensor spec_float) (clusters : tensor nat)
    (n m k : nat) (C : tensor spec_float) :
  shape X = [n; m] -> shape clusters = [n] -> length (data clusters) = n ->
  shape C = [k; m] -> wf C ->
  move_centroids prec emax lib X clusters C (range (Z.of_nat k)) =
  Ok (moved_centroids prec emax lib X clusters k m).
Proof.
  intros EX Ecl Lcl EC W. unfold range. rewrite Nat2Z.id.
  rewrite (@move_centroids_ok X clusters n m k (seq 0 k) C EX Ecl Lcl EC W).
  - unfold moved_centroids. do 2 f_equal. apply tabulate_ext. intros idx Hidx.
    assert (E : existsb (Nat.eqb (idx / m)) (seq 0 k) = true).
    { apply existsb_exists. exists (idx / m). split.
      - apply in_seq. split; [lia|]. apply div_lt_mul. lia.
      - apply Nat.eqb_refl. }
    now rewrite E.
  - apply Forall_forall. intros i Hi. apply in_seq in Hi. lia.
Qed.

(** The shift is the sum, over the centroids, of the norm of the move of
    each. *)
Lemma shift_of_ok (new old : tensor spec_float) (k m : nat) :
  shape new = [k; m] -> shape old = [k; m] ->
  shift_of prec emax lib new old =
  Ok (mkTensor [] [total_shift prec emax lib new old k m]).
Proof.
  intros En Eo. unfold shift_of, tsub, broadcast2.
  rewrite En, Eo, broadcast_shapes_same. cbn [bind].
  unfold sum_dim, tpow2, tmap. cbn [shape data length Nat.max].
  change (norm_dim 2 1) with (Ok (A := nat) 1). cbn [bind].
  unfold sum_all, tsqrt, tmap, reduce_dim.
  cbn [shape data firstn skipn nth app].
  rewrite numel1, numel2. change (numel []) with 1. rewrite Nat.mul_1_r.
  do 3 f_equal. unfold total_shift.
  unfold tabulate at 1. rewrite map_map. f_equal.
  apply tabulate_ext. intros c Hc.
  rewrite Nat.div_1_r, Nat.mod_1_r. unfold euclid. do 2 f_equal.
  apply tabulate_ext. intros d Hd.
  rewrite Nat.mul_1_r, Nat.add_0_r.
  rewrite nth_map_tabulate by nia.
  rewrite !offset_same2 by nia. reflexivity.
Qed.

End UpdateFacts.

(** ** One pass of the loop *)

Section PassFacts.

Variables prec emax : Z.
Variable lib : backend.

Lemma kmeans_pass_ok (X C D : tensor spec_float) (clusters : tensor nat)
    (n m k : nat) (sqrt_tol : spec_float) :
  shape X = [n; m] -> shape C = [k; m] -> wf C ->
  pairwise_distance prec emax lib X (Some C) = Ok D ->
  argmin D 1 = Ok clusters ->
  kmeans_pass prec emax lib X (Z.of_nat k) sqrt_tol C =
  Ok (clusters, moved_centroids prec emax lib X clusters k m,
      SFltb (total_shift prec emax lib (moved_centroids prec emax lib X clusters k m) C k m)
            (of_double prec emax sqrt_tol)).
Proof.
  intros EX EC W ED EA. unfold kmeans_pass. rewrite ED. cbn [bind].
  rewrite EA. cbn [bind].
  destruct (@assign_inv prec emax lib X C D clusters n m k EX EC ED EA)
    as (_ & _ & _ & Ecl & Lcl & _).
  rewrite (@update_ok prec emax lib X clusters n m k C EX Ecl Lcl EC W).
  cbn [bind].
  rewrite (@shift_of_ok prec emax lib _ C k m) by easy.
  reflexivity.
Qed.

Lemma kmeans_pass_inv (X C C' : tensor spec_float) (clusters : tensor nat)
    (n m k : nat) (sqrt_tol : spec_float) (stop : bool) :
  shape X = [n; m] -> shape C = [k; m] -> wf C ->
  kmeans_pass prec emax lib X (Z.of_nat k) sqrt_tol C =
    Ok (clusters, C', stop) ->
  assign prec emax lib X C = Ok clusters /\
  C' = moved_centroids prec emax lib X clusters k m /\
  stop =
    SFltb (total_shift prec emax lib C' C k m) (of_double prec emax sqrt_tol).
Proof.
  intros EX EC W E.
  destruct (pairwise_distance prec emax lib X (Some C)) as [D|e] eqn:ED.
  2:{ unfold kmeans_pass in E. rewrite ED in E. discriminate. }
  destruct (argmin D 1) as [cl|e] eqn:EA.
  2:{ unfold kmeans_pass in E. rewrite ED in E. cbn [bind] in E.
      rewrite EA in E. discriminate. }
  rewrite (@kmeans_pass_ok X C D cl n m k sqrt_tol EX EC W ED EA) in E.
  injection E as <- <- <-.
  unfold assign. rewrite ED. cbn [bind]. now rewrite EA.
Qed.

Lemma moved_centroids_wf (X : tensor spec_float) (clusters : tensor nat)
    (k m : nat) :
  shape (moved_centroids prec emax lib X clusters k m) = [k; m] /\
  wf (moved_centroids prec emax lib X clusters k m).
Proof.
  split; [reflexivity|]. unfold moved_centroids. wf_tabulate.
Qed.

End PassFacts.

(** ** The loop *)

Section LoopFacts.

Variables prec emax : Z.
Variable lib : backend.

Lemma initial_points_inv (X C : tensor spec_float) (n m : nat) (K : Z)
    (rng : nat -> nat) :
  shape X = [n; m] -> initial_points X K rng = Ok C ->
  (0 <= K)%Z /\ shape C = [Z.to_nat K; m] /\ wf C.
Proof.
  intros EX E.
  destruct (Z.ltb_spec K 0) as [HK|HK].
  { unfold initial_points, len, np_random_choice in E. rewrite EX in E.
    cbn [bind] in E. apply Z.ltb_lt in HK. rewrite HK in E. discriminate. }
  destruct (Nat.eq_dec n 0) as [->|Hn], (Z.eq_dec K 0) as [HK0|HK0].
  - rewrite (@initial_points_ok X 0 m K rng EX HK (or_intror HK0)) in E.
    injection E as <-. split; [assumption|]. split; [reflexivity|].
    wf_tabulate.
  - unfold initial_points, len, np_random_choice in E. rewrite EX in E.
    cbn [bind] in E.
    destruct (Z.ltb_spec K 0); [lia|].
    destruct (Z.eqb_spec K 0); [contradiction|]. discriminate.
  - rewrite (@initial_points_ok X n m K rng EX HK (or_intror HK0)) in E.
    injection E as <-. split; [assumption|]. split; [reflexivity|].
    wf_tabulate.
  - rewrite (@initial_points_ok X n m K rng EX HK (or_introl Hn)) in E.
    injection E as <-. split; [assumption|]. split; [reflexivity|].
    wf_tabulate.
Qed.

(** A returned pair comes out of a last pass, on well-formed centroids,
    whose test succeeded. *)
Lemma kmeans_loop_inv (X : tensor spec_float) (n m k : nat)
    (sqrt_tol : spec_float) (clusters : tensor nat) (ce : tensor spec_float)
    (fuel : nat) (C : tensor spec_float) :
  shape X = [n; m] -> shape C = [k; m] -> wf C ->
  kmeans_loop prec emax lib fuel X (Z.of_nat k) sqrt_tol C =
    Returns (clusters, ce) ->
  exists pre, shape pre = [k; m] /\ wf pre /\
    kmeans_pass prec emax lib X (Z.of_nat k) sqrt_tol pre =
      Ok (clusters, ce, true).
Proof.
  intros EX. revert C.
  induction fuel as [|fuel IH]; intros C EC W E; [discriminate|].
  cbn [kmeans_loop] in E.
  destruct (kmeans_pass prec emax lib X (Z.of_nat k) sqrt_tol C)
    as [[[cl C'] stop]|e] eqn:EP; [|discriminate].
  destruct stop.
  - injection E as <- <-. exists C. auto.
  - destruct (@kmeans_pass_inv prec emax lib X C C' cl n m k sqrt_tol false
                EX EC W EP) as (_ & -> & _).
    apply (IH _ (proj1 (moved_centroids_wf prec emax lib X cl k m))
                (proj2 (moved_centroids_wf prec emax lib X cl k m)) E).
Qed.

Lemma kmeans_inv (X : tensor spec_float) (n m : nat) (K : Z)
    (tol : option spec_float) (rng : nat -> nat) (fuel : nat)
    (clusters : tensor nat) (ce : tensor spec_float) :
  shape X = [n; m] ->
  kmeans prec emax lib fuel X K tol rng = Returns (clusters, ce) ->
  exists k sqrt_tol pre,
    K = Z.of_nat k /\
    math_sqrt (match tol with Some t => t | None => default_tol end)
      = Ok sqrt_tol /\
    shape pre = [k; m] /\ wf pre /\
    kmeans_pass prec emax lib X K sqrt_tol pre = Ok (clusters, ce, true).
Proof.
  intros EX E. unfold kmeans in E.
  destruct (initial_points X K rng) as [C0|e] eqn:EI; [|discriminate].
  destruct (math_sqrt _) as [st|e] eqn:ES; [|discriminate].
  destruct (@initial_points_inv X C0 n m K rng EX EI) as (HK & EC & W).
  exists (Z.to_nat K), st.
  assert (EK : K = Z.of_nat (Z.to_nat K)) by lia.
  rewrite EK in E.
  destruct (@kmeans_loop_inv X n m (Z.to_nat K) st clusters ce fuel C0
              EX EC W E) as (pre & Ep & Wp & Hp).
  exists pre. rewrite <- EK in Hp. auto.
Qed.




End LoopFacts.

(** A single centroid, or a single point: the distance tensor has lost a
    dimension and [argmin] over dimension 1 raises. *)
Lemma kmeans_pass_low_rank (prec emax : Z) (lib : backend)
    (X C : tensor spec_float)
    (n m k : nat) (K : Z) (sqrt_tol : spec_float) :
  shape X = [n; m] -> shape C = [k; m] -> n = 1 \/ k = 1 ->
  kmeans_pass prec emax lib X K sqrt_tol C = Raise IndexError.
Proof.
  intros EX EC H. unfold kmeans_pass.
  rewrite (pairwise_distance_data prec emax lib X C EX EC). cbn [bind].
  rewrite argmin_low_rank; [reflexivity|].
  cbn [shape filter]. destruct H as [-> | ->]; cbn [Nat.eqb negb].
  - destruct (negb (k =? 1)); cbn; lia.
  - destruct (negb (n =? 1)); cbn; lia.
Qed.

(** The shift is NaN or not negative. *)
Lemma total_shift_nan_or_nonneg (prec emax : Z) (lib : backend)
    (new old : tensor spec_float)
    (k m : nat) :
  nan_or_nonneg (total_shift prec emax lib new old k m).
Proof.
  unfold total_shift. apply fsum_nan_or_nonneg.
  apply Forall_forall. intros x Hx. apply in_map_iff in Hx.
  destruct Hx as (c & <- & _). apply euclid_nan_or_nonneg.
Qed.

(** When the square root of the tolerance rounds to zero in the format of
    the tensors no shift is below it, and [kmeans] does not return. *)
Lemma zero_threshold_never_returns (prec emax : Z) (lib : backend)
    (X : tensor spec_float) (n m : nat) (K : Z) (tol sqrt_tol : spec_float)
    (rng : nat -> nat) (fuel : nat) (r : tensor nat * tensor spec_float) :
  shape X = [n; m] -> math_sqrt tol = Ok sqrt_tol ->
  (exists s, of_double prec emax sqrt_tol = S754_zero s) ->
  kmeans prec emax lib fuel X K (Some tol) rng <> Returns r.
Proof.
  intros EX Es [s Hz] E. destruct r as [clusters centroids].
  destruct (@kmeans_inv prec emax lib X n m K (Some tol) rng fuel clusters
              centroids EX E) as (k & st & pre & -> & Es' & Ep & Wp & HP).
  rewrite Es in Es'. injection Es' as <-.
  destruct (@kmeans_pass_inv prec emax lib X pre centroids clusters n m k
              sqrt_tol true EX Ep Wp HP) as (_ & _ & Hstop).
  rewrite Hz, SFltb_nonneg_zero in Hstop
    by apply total_shift_nan_or_nonneg.
  discriminate.
Qed.

(** ** Claims on [kmeans]: the loop *)

(** C2, as amended: after the update step of a pass the shift is the sum
    over the K centroids of the Euclidean norm of (new centroid - old
    centroid), the terms of each sum being added in the order of the
    library; the loop returns when the shift is less than [sqrt_tol] rounded
    to the format of the tensors, and goes back to the assignment step, on
    the new centroids, when not; [sqrt_tol] is the square root of the
    tolerance, a double, and the tolerance defaults to [1e-5].  On float64
    tensors the rounding changes nothing and the test is
    [shift < sqrt(tolerance)]. *)
Theorem kmeans_convergence_check :
  (forall (prec emax : Z) (lib : backend)
          (X C C' : tensor spec_float) (clusters : tensor nat)
          (n m k : nat) (sqrt_tol : spec_float) (stop : bool) (fuel : nat),
     shape X = [n; m] -> shape C = [k; m] -> wf C ->
     kmeans_pass prec emax lib X (Z.of_nat k) sqrt_tol C =
       Ok (clusters, C', stop) ->
     shift_of prec emax lib C' C =
       Ok (mkTensor [] [total_shift prec emax lib C' C k m]) /\
     stop = SFltb (total_shift prec emax lib C' C k m)
              (of_double prec emax sqrt_tol) /\
     kmeans_loop prec emax lib (S fuel) X (Z.of_nat k) sqrt_tol C =
       if SFltb (total_shift prec emax lib C' C k m)
            (of_double prec emax sqrt_tol)
       then Returns (clusters, C')
       else kmeans_loop prec emax lib fuel X (Z.of_nat k) sqrt_tol C') /\
  (forall (prec emax : Z) (lib : backend)
          (fuel : nat) (X C0 : tensor spec_float) (K : Z)
          (tol : spec_float) (rng : nat -> nat),
     initial_points X K rng = Ok C0 -> SFltb tol (S754_zero false) = false ->
     kmeans prec emax lib fuel X K (Some tol) rng =
     kmeans_loop prec emax lib fuel X K (SFsqrt 53 1024 tol) C0) /\
  (forall (prec emax : Z) (lib : backend)
          (fuel : nat) (X : tensor spec_float) (K : Z)
          (rng : nat -> nat),
     kmeans prec emax lib fuel X K None rng =
     kmeans prec emax lib fuel X K (Some default_tol) rng) /\
  default_tol = SFdiv 53 1024 (binary_normalize 53 1024 1 0 false)
                  (binary_normalize 53 1024 100000 0 false) /\
  (forall sqrt_tol : spec_float,
     valid_binary 53 1024 sqrt_tol = true ->
     of_double 53 1024 sqrt_tol = sqrt_tol) /\
  valid_binary 53 1024 (SFsqrt 53 1024 default_tol) = true.
Proof.
  split; [|split; [|split; [|split; [|split]]]].
  - intros prec emax lib X C C' clusters n m k sqrt_tol stop fuel EX EC W EP.
    destruct (@kmeans_pass_inv prec emax lib X C C' clusters n m k sqrt_tol stop
                EX EC W EP) as (_ & EC' & Es).
    split; [|split].
    + apply shift_of_ok; [|assumption]. rewrite EC'. reflexivity.
    + assumption.
    + cbn [kmeans_loop]. rewrite EP, <- Es. destruct stop; reflexivity.
  - intros prec emax lib fuel X C0 K tol rng EI Ht. unfold kmeans, math_sqrt.
    now rewrite EI, Ht.
  - reflexivity.
  - vm_compute. reflexivity.
  - apply of_double_valid.
  - vm_compute. reflexivity.
Qed.

Lemma kmeans_convergence_check_witness :
  shift_of p32 e32 b32 centroids_mid centroids_02 =
    Ok (mkTensor [] [total_shift p32 e32 b32 centroids_mid centroids_02 2 2]) /\
  false = SFltb (total_shift p32 e32 b32 centroids_mid centroids_02 2 2)
            (of_double p32 e32 (SFsqrt 53 1024 default_tol)) /\
  kmeans_loop p32 e32 b32 (S 1) four_points (Z.of_nat 2)
      (SFsqrt 53 1024 default_tol) centroids_02 =
    if SFltb (total_shift p32 e32 b32 centroids_mid centroids_02 2 2)
         (of_double p32 e32 (SFsqrt 53 1024 default_tol))
    then Returns (mkTensor [4] [0; 0; 1; 1], centroids_mid)
    else kmeans_loop p32 e32 b32 1 four_points (Z.of_nat 2)
           (SFsqrt 53 1024 default_tol) centroids_mid.
Proof.
  apply (proj1 kmeans_convergence_check p32 e32 b32 four_points centroids_02
           centroids_mid (mkTensor [4] [0; 0; 1; 1]) 4 2 2
           (SFsqrt 53 1024 default_tol) false 1);
    [reflexivity|reflexivity|reflexivity|vm_compute; reflexivity].
Defined.

(** C2 as stated fails on float32 tensors.  With a tolerance of [1e-100],
    whose square root [1e-50] rounds to zero in float32, a pass that leaves
    the centroids where they are has a shift of zero, which is less than
    [sqrt(tolerance)], and yet the loop does not stop: zero is not less
    than the rounded threshold.  With this tolerance [kmeans] never
    returns, whatever the backend. *)
Lemma kmeans_shift_under_root_tolerance_goes_on :
  math_sqrt tol_1e_100 = Ok d_1e_50 /\
  of_double p32 e32 d_1e_50 = S754_zero false /\
  kmeans_pass p32 e32 b32 four_points 2 d_1e_50 centroids_mid =
    Ok (mkTensor [4] [0; 0; 1; 1], centroids_mid, false) /\
  shift_of p32 e32 b32 centroids_mid centroids_mid =
    Ok (mkTensor [] [S754_zero false]) /\
  SFltb (S754_zero false) d_1e_50 = true /\
  kmeans p32 e32 b32 40 four_points 2 (Some tol_1e_100) (fun i => 2 * i)
    = Running /\
  forall lib fuel r,
    kmeans p32 e32 lib fuel four_points 2 (Some tol_1e_100) (fun i => 2 * i)
      <> Returns r.
Proof.
  repeat split; try (vm_compute; reflexivity).
  intros lib fuel r.
  apply (@zero_threshold_never_returns p32 e32 lib four_points 4 2 2%Z
           tol_1e_100 d_1e_50);
    [reflexivity|vm_compute; reflexivity|exists false; vm_compute; reflexivity].
Qed.

(** The same with the default tolerance, in index order and with the
    correctly rounded root.  On the points 0, 13581879 * 2^-31, 100 and 100
    of a line, with the centroids drawn at 0 and 100, the first pass moves
    the first centroid to 13581879 * 2^-32 and leaves the second: the shift
    is 13581879 * 2^-32, which is less than [sqrt(1e-5)] =
    7291715835891895 * 2^-61 but equal to its float32 rounding, so the loop
    does not stop; it returns after a second pass. *)
Example kmeans_default_tolerance_float32 :
  initial_points near_points 2 (fun i => 2 * i) = Ok near_centroids /\
  exists clusters C',
    kmeans_pass p32 e32 b32 near_points 2 (SFsqrt 53 1024 default_tol)
      near_centroids = Ok (clusters, C', false) /\
    shift_of p32 e32 b32 C' near_centroids =
      Ok (mkTensor [] [S754_finite false 13581879 (-32)]) /\
    SFsqrt 53 1024 default_tol = S754_finite false 7291715835891895 (-61) /\
    (13581879 * 2 ^ 29 < 7291715835891895)%Z /\
    SFltb (binary_normalize 53 1024 13581879 (-32) false)
      (SFsqrt 53 1024 default_tol) = true /\
    kmeans p32 e32 b32 1 near_points 2 None (fun i => 2 * i) = Running /\
    kmeans p32 e32 b32 2 near_points 2 None (fun i => 2 * i) =
      Returns (clusters, C').
Proof.
  split; [vm_compute; reflexivity|].
  do 2 eexists. split; [vm_compute; reflexivity|].
  repeat split; vm_compute; reflexivity.
Qed.




(** C4, as amended: the assignment vector that [kmeans] returns is the
    assignment to the centroids that entered the last pass, and the
    returned centroids are those centroids after the update, each the mean
    of its cluster as the library's [mean] computes it; re-running the
    assignment step on the returned centroids reproduces the returned
    vector when the last update left the centroids unchanged. *)
Theorem kmeans_assignment_stable (prec emax : Z) (lib : backend)
    (X : tensor spec_float)
    (n m : nat) (K : Z) (tol : option spec_float) (rng : nat -> nat)
    (fuel : nat) (clusters : tensor nat) (centroids : tensor spec_float) :
  shape X = [n; m] ->
  kmeans prec emax lib fuel X K tol rng = Returns (clusters, centroids) ->
  exists centroids_pre,
    shape centroids_pre = [Z.to_nat K; m] /\
    assign prec emax lib X centroids_pre = Ok clusters /\
    centroids = moved_centroids prec emax lib X clusters (Z.to_nat K) m /\
    (centroids = centroids_pre -> assign prec emax lib X centroids = Ok clusters).
Proof.
  intros EX E.
  destruct (@kmeans_inv prec emax lib X n m K tol rng fuel clusters centroids EX E)
    as (k & st & pre & -> & _ & Ep & Wp & HP).
  destruct (@kmeans_pass_inv prec emax lib X pre centroids clusters n m k st true
              EX Ep Wp HP) as (EA & EC & _).
  exists pre. rewrite Nat2Z.id. repeat split; try assumption.
  intros ->. assumption.
Qed.

Lemma kmeans_assignment_stable_witness :
  exists centroids_pre,
    shape centroids_pre = [Z.to_nat 2; 2] /\
    assign p32 e32 b32 four_points centroids_pre =
      Ok (mkTensor [4] [0; 0; 1; 1]) /\
    centroids_mid =
      moved_centroids p32 e32 b32 four_points (mkTensor [4] [0; 0; 1; 1])
        (Z.to_nat 2) 2 /\
    (centroids_mid = centroids_pre ->
     assign p32 e32 b32 four_points centroids_mid =
       Ok (mkTensor [4] [0; 0; 1; 1])).
Proof.
  apply (@kmeans_assignment_stable p32 e32 b32 four_points 4 2 2%Z None
           (fun i => 2 * i) 5 (mkTensor [4] [0; 0; 1; 1]) centroids_mid);
    [reflexivity|vm_compute; reflexivity].
Defined.

(** C4 as stated fails: on five points of a line and two clusters [kmeans]
    converges in one pass, with a shift of 2^-9, and returns the assignment
    [0, 1, 0, 0, 0]; the assignment step on the returned centroids gives
    [0, 1, 0, 1, 0]. *)
Lemma kmeans_assignment_not_stable :
  exists centroids,
    kmeans p32 e32 b32 3 line_points 2 None (fun i => i) =
      Returns (mkTensor [5] [0; 1; 0; 0; 0], centroids) /\
    assign p32 e32 b32 line_points centroids =
      Ok (mkTensor [5] [0; 1; 0; 1; 0]) /\
    assign p32 e32 b32 line_points centroids <>
      Ok (mkTensor [5] [0; 1; 0; 0; 0]).
Proof.
  eexists. split; [vm_compute; reflexivity|].
  split; [vm_compute; reflexivity|].
  vm_compute. discriminate.
Qed.

(** ** Claims on [kmeans]: an empty cluster *)

Lemma filter_none {A : Type} (f : A -> bool) (l : list A) :
  (forall x, In x l -> f x = false) -> filter f l = [].
Proof.
  induction l as [|a l IH]; intros H; [reflexivity|].
  cbn [filter]. rewrite (H a (or_introl eq_refl)).
  apply IH. intros x Hx. apply H. now right.
Qed.

Lemma members_empty (clusters : tensor nat) (n c : nat) :
  shape clusters = [n] -> length (data clusters) = n ->
  ~ In c (data clusters) -> members clusters c = [].
Proof.
  intros E L Hc. unfold members. apply filter_none.
  intros i Hi. rewrite E, numel1 in Hi. apply in_seq in Hi.
  apply Nat.eqb_neq. intros <-. apply Hc. apply nth_In. lia.
Qed.

Lemma SFltb_nan (x : spec_float) : SFltb S754_nan x = false.
Proof. reflexivity. Qed.

(** On [four_points] with both initial centroids drawn at point 0, all
    points go to centroid 0 and centroid 1 becomes NaN. *)
Example kmeans_pass_duplicate_draw :
  initial_points four_points 2 (fun _ => 0) = Ok centroids_00 /\
  kmeans_pass p32 e32 b32 four_points 2 (SFsqrt 53 1024 default_tol) centroids_00 =
  Ok (mkTensor [4] [0; 0; 0; 0], centroids_nan, false).
Proof. split; vm_compute; reflexivity. Qed.

(** C10: when no point is assigned to centroid [c] the pass raises
    nothing: every coordinate of centroid [c] after the update is NaN, the
    shift is then NaN, the test [shift < sqrt_tol] is false and the loop
    goes on with these centroids. *)
Theorem kmeans_empty_cluster_nan (prec emax : Z) (lib : backend)
    (X C : tensor spec_float)
    (clusters : tensor nat) (n m k c : nat) (sqrt_tol : spec_float)
    (fuel : nat) :
  shape X = [n; m] -> shape C = [k; m] -> wf C ->
  assign prec emax lib X C = Ok clusters ->
  c < k -> ~ In c (data clusters) ->
  exists C',
    move_centroids prec emax lib X clusters C (range (Z.of_nat k)) = Ok C' /\
    shape C' = [k; m] /\
    (forall d, d < m -> get2 C' c d = Ok S754_nan) /\
    (0 < m ->
     total_shift prec emax lib C' C k m = S754_nan /\
     kmeans_pass prec emax lib X (Z.of_nat k) sqrt_tol C =
       Ok (clusters, C', false) /\
     kmeans_loop prec emax lib (S fuel) X (Z.of_nat k) sqrt_tol C =
     kmeans_loop prec emax lib fuel X (Z.of_nat k) sqrt_tol C').
Proof.
  intros EX EC W EA Hc Hno. unfold assign in EA.
  destruct (pairwise_distance prec emax lib X (Some C)) as [D|e] eqn:ED;
    [|discriminate].
  cbn [bind] in EA.
  destruct (@assign_inv prec emax lib X C D clusters n m k EX EC ED EA)
    as (_ & _ & _ & Ecl & Lcl & _).
  exists (moved_centroids prec emax lib X clusters k m).
  split; [now apply (@update_ok prec emax lib X clusters n m k C)|].
  split; [reflexivity|].
  assert (N : forall d, d < m ->
            nth (c * m + d) (data (moved_centroids prec emax lib X clusters k m)) dflt
            = S754_nan).
  { intros d Hd. cbn [data moved_centroids]. rewrite nth_tabulate by nia.
    destruct (div_mod_lin c Hd) as [-> ->].
    rewrite (@members_empty clusters n c Ecl Lcl Hno). apply fmean_nil. }
  split.
  { intros d Hd.
    rewrite (get2_matrix _ (n := k) (m := m)) by easy. now rewrite N. }
  intros Hm.
  assert (T : total_shift prec emax lib (moved_centroids prec emax lib X clusters k m)
                C k m = S754_nan).
  { unfold total_shift. apply fsum_nan. apply in_map_iff.
    exists c. split; [|apply in_seq; lia].
    unfold euclid. rewrite fsum_nan; [apply sqrt_nan|].
    apply in_map_iff. exists 0. split; [|apply in_seq; lia].
    now rewrite N. }
  split; [assumption|].
  assert (P := @kmeans_pass_ok prec emax lib X C D clusters n m k sqrt_tol
                 EX EC W ED EA).
  rewrite T, SFltb_nan in P.
  split; [assumption|]. cbn [kmeans_loop]. now rewrite P.
Qed.

Lemma kmeans_empty_cluster_nan_witness :
  exists C',
    move_centroids p32 e32 b32 four_points (mkTensor [4] [0; 0; 0; 0]) centroids_00
      (range (Z.of_nat 2)) = Ok C' /\
    shape C' = [2; 2] /\
    (forall d, d < 2 -> get2 C' 1 d = Ok S754_nan) /\
    (0 < 2 ->
     total_shift p32 e32 b32 C' centroids_00 2 2 = S754_nan /\
     kmeans_pass p32 e32 b32 four_points (Z.of_nat 2) (SFsqrt 53 1024 default_tol)
       centroids_00 = Ok (mkTensor [4] [0; 0; 0; 0], C', false) /\
     kmeans_loop p32 e32 b32 (S 4) four_points (Z.of_nat 2)
       (SFsqrt 53 1024 default_tol) centroids_00 =
     kmeans_loop p32 e32 b32 4 four_points (Z.of_nat 2)
       (SFsqrt 53 1024 default_tol) C').
Proof.
  apply (@kmeans_empty_cluster_nan p32 e32 b32 four_points centroids_00
           (mkTensor [4] [0; 0; 0; 0]) 4 2 2 1 (SFsqrt 53 1024 default_tol) 4);
    [reflexivity|reflexivity|reflexivity|vm_compute; reflexivity|lia|].
  cbn. intros [H|[H|[H|[H|[]]]]]; discriminate.
Defined.

(** ** The order of scalars and [argmin] *)

Lemma SFltb_key (x y : spec_float) :
  x <> S754_nan -> y <> S754_nan ->
  (SFltb x y = true <-> lex_lt (order_key x) (order_key y)).
Proof.
  intros Hx Hy. unfold SFltb, SFcompare.
  destruct x as [sx|sx| |sx mx ex]; try contradiction;
    destruct y as [sy|sy| |sy my ey]; try contradiction;
    try destruct sx; try destruct sy; cbn [order_key lex_lt];
    try (split; intros H; [try discriminate H; lia|
                           try reflexivity; exfalso; lia]).
  - change (Pos.compare_cont Eq mx my) with (Pos.compare mx my).
    destruct (Z.compare_spec ex ey), (Pos.compare_spec mx my); cbn [CompOpp];
      split; intros H'; try discriminate H'; try reflexivity; try lia;
      exfalso; lia.
  - change (Pos.compare_cont Eq mx my) with (Pos.compare mx my).
    destruct (Z.compare_spec ex ey), (Pos.compare_spec mx my);
      split; intros H'; try discriminate H'; try reflexivity; try lia;
      exfalso; lia.
Qed.

Lemma SFltb_true_not_nan (x y : spec_float) :
  SFltb x y = true -> x <> S754_nan /\ y <> S754_nan.
Proof.
  intros H. split; intros ->; [discriminate|].
  now rewrite SFltb_nan_r in H.
Qed.

Lemma SFltb_irrefl (x : spec_float) : SFltb x x = false.
Proof.
  destruct (SFltb x x) eqn:E; [|reflexivity].
  destruct (SFltb_true_not_nan _ _ E) as [Hx _].
  apply (SFltb_key Hx Hx) in E.
  destruct (order_key x) as [[a b] c]. cbn in E. lia.
Qed.

Lemma SFltb_trans (x y z : spec_float) :
  SFltb x y = true -> SFltb y z = true -> SFltb x z = true.
Proof.
  intros H1 H2.
  destruct (SFltb_true_not_nan _ _ H1) as [Hx Hy].
  destruct (SFltb_true_not_nan _ _ H2) as [_ Hz].
  apply (SFltb_key Hx Hy) in H1. apply (SFltb_key Hy Hz) in H2.
  apply (SFltb_key Hx Hz).
  destruct (order_key x) as [[a1 a2] a3], (order_key y) as [[b1 b2] b3],
    (order_key z) as [[c1 c2] c3]. cbn in *. lia.
Qed.

(** What is less than [y] is less than everything that is not less than
    [y], NaN apart. *)
Lemma SFltb_below (x y z : spec_float) :
  SFltb x y = true -> SFltb z y = false -> z <> S754_nan ->
  SFltb x z = true.
Proof.
  intros H1 H2 Hz.
  destruct (SFltb_true_not_nan _ _ H1) as [Hx Hy].
  apply (SFltb_key Hx Hy) in H1. apply (SFltb_key Hx Hz).
  assert (H3 : ~ lex_lt (order_key z) (order_key y)).
  { intros H. apply (SFltb_key Hz Hy) in H. congruence. }
  destruct (order_key x) as [[a1 a2] a3], (order_key y) as [[b1 b2] b3],
    (order_key z) as [[c1 c2] c3]. cbn in *. lia.
Qed.

Lemma is_nan_false (x : spec_float) : x <> S754_nan -> is_nan x = false.
Proof. destruct x; try reflexivity. congruence. Qed.

Lemma argmin_from_nan_stays (l : list spec_float) (best_i i : nat) :
  argmin_from best_i S754_nan i l = best_i.
Proof.
  revert i. induction l as [|v l IH]; intros i; [reflexivity|].
  cbn [argmin_from is_nan negb andb]. apply IH.
Qed.

Lemma snoc_app {A : Type} (pre : list A) (v : A) (l : list A) :
  (pre ++ [v]) ++ l = pre ++ v :: l.
Proof. now rewrite <- app_assoc. Qed.

Lemma length_snoc {A : Type} (pre : list A) (v : A) :
  length (pre ++ [v]) = S (length pre).
Proof. rewrite length_app. cbn. lia. Qed.

Lemma argmin_from_first_min (l pre : list spec_float) (best_i : nat) :
  Forall (fun x => x <> S754_nan) (pre ++ l) ->
  first_min pre best_i ->
  first_min (pre ++ l)
    (argmin_from best_i (nth best_i pre dflt) (length pre) l).
Proof.
  revert pre best_i.
  induction l as [|v l IH]; intros pre best_i Hn (Hb & Hmin & Hfirst).
  { cbn [argmin_from]. rewrite app_nil_r. now split. }
  cbn [argmin_from].
  assert (Hpre : forall j, j < length pre -> nth j pre dflt <> S754_nan).
  { intros j Hj. rewrite Forall_forall in Hn. apply Hn.
    apply in_or_app. left. now apply nth_In. }
  assert (Hv : v <> S754_nan).
  { rewrite Forall_forall in Hn. apply Hn. apply in_or_app. right. now left. }
  rewrite (is_nan_false (Hpre _ Hb)), (is_nan_false Hv).
  cbn [negb andb orb].
  rewrite <- snoc_app in Hn |- *. rewrite <- (length_snoc pre v).
  destruct (SFltb v (nth best_i pre dflt)) eqn:E.
  - specialize (IH (pre ++ [v]) (length pre) Hn).
    rewrite nth_middle in IH. apply IH.
    unfold first_min. rewrite length_snoc. split; [lia|]. split.
    + intros j Hj. rewrite nth_middle.
      destruct (Nat.eq_dec j (length pre)) as [->|Hne].
      * rewrite nth_middle. apply SFltb_irrefl.
      * assert (Hj' : j < length pre) by lia.
        rewrite app_nth1 by assumption.
        destruct (SFltb (nth j pre dflt) v) eqn:E'; [|reflexivity].
        rewrite <- (Hmin j Hj'). symmetry.
        now apply (@SFltb_trans (nth j pre dflt) v).
    + intros j Hj. rewrite nth_middle, app_nth1 by assumption.
      apply (@SFltb_below v (nth best_i pre dflt) _ E (Hmin j Hj) (Hpre j Hj)).
  - specialize (IH (pre ++ [v]) best_i Hn).
    rewrite (app_nth1 pre [v] dflt Hb) in IH. apply IH.
    unfold first_min. rewrite length_snoc. split; [lia|].
    rewrite (app_nth1 pre [v] dflt Hb). split.
    + intros j Hj.
      destruct (Nat.eq_dec j (length pre)) as [->|Hne].
      * now rewrite nth_middle.
      * rewrite app_nth1 by lia. apply Hmin. lia.
    + intros j Hj. rewrite app_nth1 by lia. now apply Hfirst.
Qed.

(** On a row without NaN, [argmin] is the index of the first least
    element. *)
Lemma argmin_list_first_min (l : list spec_float) :
  l <> [] -> Forall (fun x => x <> S754_nan) l ->
  first_min l (argmin_list l).
Proof.
  destruct l as [|v l]; [congruence|]. intros _ Hn.
  apply (@argmin_from_first_min l [v] 0 Hn).
  split; [cbn; lia|]. split.
  - intros [|j] Hj; [apply SFltb_irrefl|cbn in Hj; lia].
  - intros j Hj. lia.
Qed.

Lemma argmin_from_first_nan (l pre : list spec_float) (best_i : nat) :
  best_i < length pre -> Forall (fun x => x <> S754_nan) pre ->
  In S754_nan l ->
  first_nan (pre ++ l)
    (argmin_from best_i (nth best_i pre dflt) (length pre) l).
Proof.
  revert pre best_i.
  induction l as [|v l IH]; intros pre best_i Hb Hpre Hin; [contradiction|].
  cbn [argmin_from].
  assert (Hp : forall j, j < length pre -> nth j pre dflt <> S754_nan).
  { intros j Hj. rewrite Forall_forall in Hpre. apply Hpre. now apply nth_In. }
  rewrite (is_nan_false (Hp _ Hb)). cbn [negb andb].
  destruct v as [s|s| |s m e] eqn:Ev.
  3:{ cbn [is_nan orb]. rewrite argmin_from_nan_stays. split.
      - rewrite length_app. cbn. lia.
      - split; [apply nth_middle|].
        intros j Hj. rewrite app_nth1 by assumption. now apply Hp. }
  all: rewrite <- Ev in *; assert (Hv : v <> S754_nan) by (subst v; discriminate);
    assert (Hin' : In S754_nan l) by (destruct Hin; [congruence|assumption]);
    assert (Hpre' : Forall (fun x => x <> S754_nan) (pre ++ [v]))
      by (apply Forall_app; split; [assumption|now constructor]);
    rewrite (is_nan_false Hv); cbn [orb];
    rewrite <- snoc_app, <- (length_snoc pre v);
    destruct (SFltb v (nth best_i pre dflt));
    [ specialize (IH (pre ++ [v]) (length pre));
      rewrite nth_middle in IH
    | specialize (IH (pre ++ [v]) best_i);
      rewrite (app_nth1 pre [v] dflt Hb) in IH ];
    apply IH; try assumption; rewrite length_snoc; lia.
Qed.

(** On a row with a NaN, [argmin] is the index of the first NaN. *)
Lemma argmin_list_first_nan (l : list spec_float) :
  In S754_nan l -> first_nan l (argmin_list l).
Proof.
  destruct l as [|v l]; [contradiction|]. intros Hin.
  destruct v as [s|s| |s m e] eqn:Ev.
  3:{ cbn [argmin_list]. rewrite argmin_from_nan_stays. split; [cbn; lia|].
      split; [reflexivity|]. intros j Hj. lia. }
  all: rewrite <- Ev in *; assert (Hv : v <> S754_nan) by (subst v; discriminate);
    apply (@argmin_from_first_nan l [v] 0);
    [cbn; lia|now constructor|destruct Hin; [congruence|assumption]].
Qed.

(** In every case no earlier element equals the one [argmin] picks. *)
Lemma argmin_list_first (l : list spec_float) (j : nat) :
  j < argmin_list l -> nth j l dflt <> nth (argmin_list l) l dflt.
Proof.
  intros Hj.
  assert (Hl : l <> []).
  { intros ->. cbn in Hj. lia. }
  destruct (in_dec (fun x y : spec_float =>
              ltac:(decide equality; try apply Bool.bool_dec;
                    try apply Pos.eq_dec; apply Z.eq_dec)) S754_nan l)
    as [Hin|Hin].
  - destruct (@argmin_list_first_nan l Hin) as (_ & E & H).
    rewrite E. now apply H.
  - assert (Hn : Forall (fun x => x <> S754_nan) l).
    { apply Forall_forall. intros x Hx ->. contradiction. }
    destruct (@argmin_list_first_min l Hl Hn) as (_ & _ & H).
    intros E. specialize (H j Hj). rewrite E, SFltb_irrefl in H. discriminate.
Qed.

(** ** Further properties of [pairwise_distance] *)

(** X1: exchanging the two point sets transposes the distance matrix. *)
Theorem pairwise_distance_transpose (prec emax : Z) (lib : backend)
    (A B : tensor spec_float) (n1 n2 m : nat) :
  shape A = [n1; m] -> shape B = [n2; m] -> n1 <> 1 -> n2 <> 1 ->
  exists D D',
    pairwise_distance prec emax lib A (Some B) = Ok D /\
    pairwise_distance prec emax lib B (Some A) = Ok D' /\
    shape D = [n1; n2] /\ shape D' = [n2; n1] /\
    forall i j, i < n1 -> j < n2 -> get2 D i j = get2 D' j i.
Proof.
  intros EA EB H1 H2.
  destruct (@pairwise_distance_matrix prec emax lib A B n1 n2 m EA EB H1 H2)
    as (D & ED & SD & _ & HD).
  destruct (@pairwise_distance_matrix prec emax lib B A n2 n1 m EB EA H2 H1)
    as (D' & ED' & SD' & _ & HD').
  exists D, D'. repeat split; try assumption.
  intros i j Hi Hj. rewrite HD, HD' by assumption. f_equal.
  unfold euclid. do 2 f_equal. apply tabulate_ext. intros d _.
  apply fpow2_fsub_comm.
Qed.

Lemma pairwise_distance_transpose_witness :
  exists D D',
    pairwise_distance p32 e32 b32 points_A (Some three_points) = Ok D /\
    pairwise_distance p32 e32 b32 three_points (Some points_A) = Ok D' /\
    shape D = [2; 3] /\ shape D' = [3; 2] /\
    forall i j, i < 2 -> j < 3 -> get2 D i j = get2 D' j i.
Proof.
  apply (@pairwise_distance_transpose p32 e32 b32 points_A three_points 2 3 3);
    [reflexivity|reflexivity|lia|lia].
Defined.

(** X2: whatever the numbers of points, no entry of the result of
    [pairwise_distance] is negative: each is NaN or has a clear sign bit,
    and none compares below zero. *)
Theorem pairwise_distance_nonneg (prec emax : Z) (lib : backend)
    (A B D : tensor spec_float) (n1 n2 m : nat) :
  shape A = [n1; m] -> shape B = [n2; m] ->
  pairwise_distance prec emax lib A (Some B) = Ok D ->
  length (data D) = n1 * n2 /\
  Forall nan_or_nonneg (data D) /\
  Forall (fun x => SFltb x fzero = false) (data D).
Proof.
  intros EA EB ED.
  rewrite (pairwise_distance_data prec emax lib A B EA EB) in ED.
  injection ED as <-. cbn [data].
  assert (H : Forall nan_or_nonneg
                (tabulate (n1 * n2) (fun idx =>
                   euclid prec emax lib (data A) (data B) m (idx / n2) (idx mod n2)))).
  { apply Forall_forall. intros x Hx. apply in_map_iff in Hx.
    destruct Hx as (idx & <- & _). apply euclid_nan_or_nonneg. }
  split; [apply length_tabulate|]. split; [exact H|].
  eapply Forall_impl; [|exact H]. intros x Hx.
  now apply SFltb_nonneg_zero.
Qed.

Lemma pairwise_distance_nonneg_witness :
  length (data (tensor_f32 [2] [300; 507]%Z)) = 2 * 1 /\
  Forall nan_or_nonneg (data (tmap (fsqrt p32 e32) (tensor_f32 [2] [300; 507]%Z))) /\
  Forall (fun x => SFltb x fzero = false)
    (data (tmap (fsqrt p32 e32) (tensor_f32 [2] [300; 507]%Z))).
Proof.
  apply (@pairwise_distance_nonneg p32 e32 b32 points_B single_point
           (tmap (fsqrt p32 e32) (tensor_f32 [2] [300; 507]%Z)) 2 1 3);
    [reflexivity|reflexivity|vm_compute; reflexivity].
Defined.

(** X3: when exactly one of the two sets has a single point the result is
    a vector, with one distance per point of the other set: the root, by
    the library's [sqrt], of the squares added in the order of its [sum]. *)
Theorem pairwise_distance_single_side (prec emax : Z) (lib : backend)
    (A B : tensor spec_float) (n m : nat) :
  n <> 1 ->
  (shape A = [1; m] -> shape B = [n; m] ->
   exists D, pairwise_distance prec emax lib A (Some B) = Ok D /\
     shape D = [n] /\ length (data D) = n /\
     forall j, j < n ->
       nth j (data D) dflt = euclid prec emax lib (data A) (data B) m 0 j) /\
  (shape A = [n; m] -> shape B = [1; m] ->
   exists D, pairwise_distance prec emax lib A (Some B) = Ok D /\
     shape D = [n] /\ length (data D) = n /\
     forall i, i < n ->
       nth i (data D) dflt = euclid prec emax lib (data A) (data B) m i 0).
Proof.
  intros Hn. split; intros EA EB;
    rewrite (pairwise_distance_data prec emax lib A B EA EB);
    eexists; (split; [reflexivity|]); cbn [shape data filter Nat.eqb negb];
    destruct (Nat.eqb_spec n 1); try contradiction; cbn [negb].
  - split; [reflexivity|]. rewrite length_tabulate. split; [lia|].
    intros j Hj. rewrite nth_tabulate by lia.
    now rewrite Nat.div_small, Nat.mod_small.
  - split; [reflexivity|]. rewrite length_tabulate. split; [lia|].
    intros i Hi. rewrite nth_tabulate by lia.
    now rewrite Nat.div_1_r, Nat.mod_1_r.
Qed.

Lemma pairwise_distance_single_side_witness :
  (exists D, pairwise_distance p32 e32 b32 single_point (Some points_B) = Ok D /\
     shape D = [2] /\ length (data D) = 2 /\
     forall j, j < 2 ->
       nth j (data D) dflt =
       euclid p32 e32 b32 (data single_point) (data points_B) 3 0 j) /\
  (exists D, pairwise_distance p32 e32 b32 points_B (Some single_point) = Ok D /\
     shape D = [2] /\ length (data D) = 2 /\
     forall i, i < 2 ->
       nth i (data D) dflt =
       euclid p32 e32 b32 (data points_B) (data single_point) 3 i 0).
Proof.
  assert (H : 2 <> 1) by lia. split.
  - apply (proj1 (@pairwise_distance_single_side p32 e32 b32 single_point points_B
                    2 3 H)); reflexivity.
  - apply (proj2 (@pairwise_distance_single_side p32 e32 b32 points_B single_point
                    2 3 H)); reflexivity.
Defined.

(** ** Further properties of the assignment and update steps *)

Lemma assign_ok_inv (prec emax : Z) (lib : backend) (X C : tensor spec_float)
    (clusters : tensor nat) (n m k : nat) :
  shape X = [n; m] -> shape C = [k; m] ->
  assign prec emax lib X C = Ok clusters ->
  n <> 1 /\ k <> 1 /\ k <> 0 /\
  clusters =
  mkTensor [n]
    (tabulate n (fun i =>
       argmin_list
         (tabulate k (fun j => euclid prec emax lib (data X) (data C) m i j)))).
Proof.
  intros EX EC EA.
  assert (EA' := EA). unfold assign in EA'.
  destruct (pairwise_distance prec emax lib X (Some C)) as [D|e] eqn:ED;
    [|discriminate].
  cbn [bind] in EA'.
  destruct (@assign_inv prec emax lib X C D clusters n m k EX EC ED EA')
    as (Hn & Hk & Hk0 & _).
  repeat split; try assumption.
  rewrite (@assign_total prec emax lib X C n m k EX EC Hn Hk Hk0) in EA.
  now injection EA.
Qed.

(** X4: the assignment step gives each point the index of its nearest
    centroid, by the distances that [pairwise_distance] returns: row [i] of
    the distance matrix holds the distances of point [i] to the centroids
    (the root, by the library's [sqrt], of the squares added in the order
    of its [sum], whatever they are); when none of them is NaN, no centroid
    is nearer than the assigned one and every centroid of lower index is
    farther; when some distance is NaN, the assigned centroid is the first
    one at a NaN distance. *)
Theorem assign_nearest (prec emax : Z) (lib : backend)
    (X C : tensor spec_float) (clusters : tensor nat) (n m k : nat) :
  shape X = [n; m] -> shape C = [k; m] ->
  assign prec emax lib X C = Ok clusters ->
  exists D,
    pairwise_distance prec emax lib X (Some C) = Ok D /\ shape D = [n; k] /\
    forall i, i < n ->
      let row := tabulate k (fun j => nth (i * k + j) (data D) dflt) in
      let a := nth i (data clusters) dflt in
      row =
        tabulate k (fun j => euclid prec emax lib (data X) (data C) m i j) /\
      (Forall (fun x => x <> S754_nan) row -> first_min row a) /\
      (In S754_nan row -> first_nan row a).
Proof.
  intros EX EC EA.
  destruct (@assign_ok_inv prec emax lib X C clusters n m k EX EC EA)
    as (Hn & Hk & Hk0 & ->).
  destruct (@pairwise_distance_matrix prec emax lib X C n k m EX EC Hn Hk)
    as (D & ED & SD & _ & HD).
  exists D. split; [exact ED|]. split; [exact SD|].
  intros i Hi. cbn zeta.
  assert (R : tabulate k (fun j => nth (i * k + j) (data D) dflt) =
              tabulate k (fun j =>
                euclid prec emax lib (data X) (data C) m i j)).
  { apply tabulate_ext. intros j Hj. specialize (HD i j Hi Hj).
    rewrite (get2_matrix D (n := n) (m := k)) in HD by assumption.
    now injection HD. }
  split; [exact R|]. rewrite R.
  cbn [data]. rewrite nth_tabulate by assumption. split.
  - apply argmin_list_first_min. destruct k; [contradiction|discriminate].
  - apply argmin_list_first_nan.
Qed.

Lemma assign_nearest_witness :
  exists D,
    pairwise_distance p32 e32 b32 four_points (Some centroids_02) = Ok D /\
    shape D = [4; 2] /\
    forall i, i < 4 ->
      let row := tabulate 2 (fun j => nth (i * 2 + j) (data D) dflt) in
      let a := nth i (data (mkTensor [4] [0; 0; 1; 1])) dflt in
      row =
        tabulate 2 (fun j =>
          euclid p32 e32 b32 (data four_points) (data centroids_02) 2 i j) /\
      (Forall (fun x => x <> S754_nan) row -> first_min row a) /\
      (In S754_nan row -> first_nan row a).
Proof.
  apply (@assign_nearest p32 e32 b32 four_points centroids_02
           (mkTensor [4] [0; 0; 1; 1]) 4 2 2);
    [reflexivity|reflexivity|vm_compute; reflexivity].
Defined.

Lemma members_spec (clusters : tensor nat) (n c i : nat) :
  shape clusters = [n] ->
  In i (members clusters c) <-> i < n /\ nth i (data clusters) dflt = c.
Proof.
  intros E. unfold members. rewrite E, numel1, filter_In, in_seq, Nat.eqb_eq.
  intuition lia.
Qed.

(** X5: when [kmeans] returns, every coordinate of every returned centroid
    is the sum of that coordinate over the points assigned to the centroid
    by the returned vector, added in the order of the library's [mean], and
    divided by their number; a point is assigned to the one centroid that
    the vector names for it. *)
Theorem kmeans_centroids_are_means (prec emax : Z) (lib : backend)
    (X : tensor spec_float)
    (n m : nat) (K : Z) (tol : option spec_float) (rng : nat -> nat)
    (fuel : nat) (clusters : tensor nat) (centroids : tensor spec_float) :
  shape X = [n; m] ->
  kmeans prec emax lib fuel X K tol rng = Returns (clusters, centroids) ->
  forall c, (Z.of_nat c < K)%Z ->
    (forall i, In i (members clusters c) <->
               i < n /\ nth i (data clusters) dflt = c) /\
    forall d, d < m ->
      get2 centroids c d =
      Ok (fdiv prec emax
            (fsum prec emax (mean_dim_order lib)
               (map (fun i => nth (i * m + d) (data X) dflt)
                    (members clusters c)))
            (of_nat prec emax (length (members clusters c)))).
Proof.
  intros EX E c Hc.
  destruct (@kmeans_inv prec emax lib X n m K tol rng fuel clusters centroids EX E)
    as (k & st & pre & -> & _ & Ep & Wp & HP).
  destruct (@kmeans_pass_inv prec emax lib X pre centroids clusters n m k st true
              EX Ep Wp HP) as (EA & -> & _).
  destruct (@assign_ok_inv prec emax lib X pre clusters n m k EX Ep EA)
    as (_ & _ & _ & Ecl).
  assert (Scl : shape clusters = [n]) by now rewrite Ecl.
  split.
  - intros i. now apply members_spec.
  - intros d Hd.
    rewrite (get2_matrix _ (n := k) (m := m)); [|reflexivity|lia|assumption].
    cbn [data moved_centroids]. rewrite nth_tabulate by nia.
    destruct (div_mod_lin c Hd) as [-> ->].
    unfold mean_coord, fmean. now rewrite length_map.
Qed.

Lemma kmeans_centroids_are_means_witness :
  (forall i, In i (members (mkTensor [4] [0; 0; 1; 1]) 1) <->
             i < 4 /\ nth i (data (mkTensor [4] [0; 0; 1; 1])) dflt = 1) /\
  forall d, d < 2 ->
    get2 centroids_mid 1 d =
    Ok (fdiv p32 e32
          (fsum p32 e32 (mean_dim_order b32)
             (map (fun i => nth (i * 2 + d) (data four_points) dflt)
                  (members (mkTensor [4] [0; 0; 1; 1]) 1)))
          (of_nat p32 e32 (length (members (mkTensor [4] [0; 0; 1; 1]) 1)))).
Proof.
  apply (@kmeans_centroids_are_means p32 e32 b32 four_points 4 2 2%Z None
           (fun i => 2 * i) 5 (mkTensor [4] [0; 0; 1; 1]) centroids_mid);
    [reflexivity|vm_compute; reflexivity|lia].
Defined.

(** ** Further properties of [kmeans]: parameters *)

(** X6: [kmeans] cannot cluster into a single cluster, nor cluster a single
    point: the squeeze in [pairwise_distance] leaves a distance tensor of
    rank below two and [argmin] over dimension 1 raises in the first
    iteration. *)
Theorem kmeans_single_cluster_raises (prec emax : Z) (lib : backend)
    (X : tensor spec_float)
    (n m : nat) (K : Z) (tol : option spec_float) (sqrt_tol : spec_float)
    (rng : nat -> nat) (fuel : nat) :
  shape X = [n; m] ->
  math_sqrt (match tol with Some t => t | None => default_tol end)
    = Ok sqrt_tol ->
  (K = 1%Z /\ 1 <= n) \/ (n = 1 /\ (0 <= K)%Z) ->
  kmeans prec emax lib (S fuel) X K tol rng = Raises IndexError.
Proof.
  intros EX Ht H. unfold kmeans.
  assert (E := @initial_points_ok X n m K rng EX).
  rewrite E by (destruct H as [[-> ?]|[-> ?]]; lia).
  rewrite Ht. cbn [kmeans_loop].
  rewrite (@kmeans_pass_low_rank prec emax lib X _ n m (Z.to_nat K) K sqrt_tol EX);
    [reflexivity|reflexivity|].
  destruct H as [[-> _]|[-> _]]; [right; reflexivity|left; reflexivity].
Qed.

Lemma kmeans_single_cluster_raises_witness :
  kmeans p32 e32 b32 (S 2) four_points 1 None (fun i => i) =
    Raises IndexError /\
  kmeans p32 e32 b32 (S 2) single_point 3 None (fun i => i) = Raises IndexError.
Proof.
  split.
  - apply (@kmeans_single_cluster_raises p32 e32 b32 four_points 4 2 1%Z None
             (SFsqrt 53 1024 default_tol) (fun i => i) 2);
      [reflexivity|reflexivity|left; split; [reflexivity|lia]].
  - apply (@kmeans_single_cluster_raises p32 e32 b32 single_point 1 3 3%Z None
             (SFsqrt 53 1024 default_tol) (fun i => i) 2);
      [reflexivity|reflexivity|right; split; [reflexivity|lia]].
Defined.

Lemma initial_points_matrix_cases (X : tensor spec_float) (n m : nat) (K : Z)
    (rng : nat -> nat) :
  shape X = [n; m] ->
  initial_points X K rng = Raise ValueError \/
  exists C, initial_points X K rng = Ok C.
Proof.
  intros EX. unfold initial_points, len, np_random_choice. rewrite EX.
  cbn [bind].
  destruct (Z.ltb_spec K 0); [now left|].
  destruct (Nat.eqb_spec n 0) as [->|Hn], (Z.eqb_spec K 0) as [->|HK];
    cbn [andb negb bind]; try (now left).
  - right. apply (@initial_points_ok_rows X 0 m 0%Z rng EX). now right.
  - right. apply (@initial_points_ok_rows X n m 0%Z rng EX). now right.
  - right. apply (@initial_points_ok_rows X n m K rng EX). now left.
Qed.

(** X7: a negative tolerance makes [kmeans] raise [ValueError] before the
    loop, whatever the points, the cluster count and the draws:
    [math.sqrt] refuses it. *)
Theorem kmeans_negative_tolerance (prec emax : Z) (lib : backend)
    (X : tensor spec_float)
    (n m : nat) (K : Z) (tol : spec_float) (rng : nat -> nat) (fuel : nat) :
  shape X = [n; m] -> SFltb tol (S754_zero false) = true ->
  kmeans prec emax lib fuel X K (Some tol) rng = Raises ValueError.
Proof.
  intros EX Ht. unfold kmeans.
  destruct (@initial_points_matrix_cases X n m K rng EX) as [->|[C ->]];
    [reflexivity|].
  unfold math_sqrt. now rewrite Ht.
Qed.

Lemma kmeans_negative_tolerance_witness :
  kmeans p32 e32 b32 0 four_points 2 (Some (SFopp default_tol)) (fun i => i)
    = Raises ValueError.
Proof.
  apply (@kmeans_negative_tolerance p32 e32 b32 four_points 4 2 2%Z
           (SFopp default_tol) (fun i => i) 0); reflexivity.
Defined.

(** X8: with a tolerance of zero (of either sign) or NaN [kmeans] never
    returns: the shift, a sum of norms, is never below zero, so the test
    [shift < sqrt_tol] fails in every iteration, also when the centroids
    have stopped moving. *)
Theorem kmeans_zero_tolerance_never_returns (prec emax : Z) (lib : backend)
    (X : tensor spec_float) (n m : nat) (K : Z) (tol : spec_float)
    (rng : nat -> nat) (fuel : nat)
    (r : tensor nat * tensor spec_float) :
  shape X = [n; m] ->
  (exists s, tol = S754_zero s) \/ tol = S754_nan ->
  kmeans prec emax lib fuel X K (Some tol) rng <> Returns r.
Proof.
  intros EX Ht E. destruct r as [clusters centroids].
  destruct (@kmeans_inv prec emax lib X n m K (Some tol) rng fuel clusters
              centroids EX E) as (k & st & pre & -> & Es & Ep & Wp & HP).
  destruct (@kmeans_pass_inv prec emax lib X pre centroids clusters n m k st true
              EX Ep Wp HP) as (_ & _ & Hstop).
  pose proof (total_shift_nan_or_nonneg prec emax lib centroids pre k m) as Hs.
  destruct Ht as [[s ->]| ->]; cbv in Es; injection Es as <-.
  - cbn [of_double] in Hstop. rewrite SFltb_nonneg_zero in Hstop by assumption.
    discriminate.
  - cbn [of_double] in Hstop. rewrite SFltb_nan_r in Hstop. discriminate.
Qed.

Lemma kmeans_zero_tolerance_never_returns_witness :
  kmeans p32 e32 b32 6 four_points 2 (Some (S754_zero false)) (fun i => 2 * i)
    <> Returns (mkTensor [4] [0; 0; 1; 1], centroids_mid) /\
  kmeans p32 e32 b32 6 four_points 2 (Some (S754_zero false)) (fun i => 2 * i)
    = Running.
Proof.
  split.
  - apply (@kmeans_zero_tolerance_never_returns p32 e32 b32 four_points 4 2 2%Z
             (S754_zero false) (fun i => 2 * i) 6
             (mkTensor [4] [0; 0; 1; 1], centroids_mid));
      [reflexivity|left; exists false; reflexivity].
  - vm_compute. reflexivity.
Defined.

(** ** Further properties of [kmeans]: runs that never end *)

Lemma nth_all_finite (X : tensor spec_float) (idx : nat) :
  all_finite X -> is_finite (nth idx (data X) dflt) = true.
Proof.
  intros H. destruct (nth_in_or_default idx (data X) dflt) as [Hin| ->].
  - unfold all_finite in H. rewrite Forall_forall in H. now apply H.
  - reflexivity.
Qed.

Lemma dup_or_nodup (l : list nat) :
  NoDup l \/
  exists j j', j < j' /\ j' < length l /\ nth j l 0 = nth j' l 0.
Proof.
  induction l as [|a l [IH|(j & j' & H1 & H2 & H3)]].
  - left. constructor.
  - destruct (in_dec Nat.eq_dec a l) as [Hin|Hin].
    + right. destruct (In_nth l a 0 Hin) as (i & Hi & E).
      exists 0, (S i). cbn. repeat split; first [lia | now rewrite E].
    + left. now constructor.
  - right. exists (S j), (S j'). cbn. repeat split; first [lia | assumption].
Qed.

(** More draws than points repeat a point. *)
Lemma draws_repeat (rng : nat -> nat) (n k : nat) :
  0 < n -> n < k ->
  exists j j', j < j' /\ j' < k /\ rng j mod n = rng j' mod n.
Proof.
  intros Hn Hk.
  destruct (dup_or_nodup (tabulate k (fun i => rng i mod n)))
    as [ND|(j & j' & H1 & H2 & H3)].
  - exfalso.
    assert (L : length (tabulate k (fun i => rng i mod n)) <= length (seq 0 n)).
    { apply NoDup_incl_length; [assumption|].
      intros x Hx. apply in_map_iff in Hx. destruct Hx as (i & <- & _).
      apply in_seq. split; [lia|]. apply Nat.mod_upper_bound. lia. }
    rewrite length_tabulate, length_seq in L. lia.
  - rewrite length_tabulate in H2. exists j, j'.
    rewrite !nth_tabulate in H3 by lia. auto.
Qed.

Section Divergence.

Variables prec emax : Z.
Variable lib : backend.
Variable X : tensor spec_float.
Variables n m k : nat.
Variable sqrt_tol : spec_float.

Hypothesis EX : shape X = [n; m].
Hypothesis FX : all_finite X.
Hypothesis Hm : 0 < m.
Hypothesis Hn : n <> 1.
Hypothesis Hk : 2 <= k.

Lemma euclid_nan_left (a b : list spec_float) (i j : nat) :
  (exists d, d < m /\ nth (i * m + d) a dflt = S754_nan) ->
  euclid prec emax lib a b m i j = S754_nan.
Proof.
  intros (d & Hd & E). unfold euclid. rewrite fsum_nan; [apply sqrt_nan|].
  apply in_map_iff. exists d. split; [|apply in_seq; lia].
  now rewrite E.
Qed.

Lemma euclid_nan_right (a b : list spec_float) (i j : nat) :
  (exists d, d < m /\ nth (j * m + d) b dflt = S754_nan) ->
  euclid prec emax lib a b m i j = S754_nan.
Proof.
  intros (d & Hd & E). unfold euclid. rewrite fsum_nan; [apply sqrt_nan|].
  apply in_map_iff. exists d. split; [|apply in_seq; lia].
  now rewrite E, fsub_nan_r.
Qed.

(** A finite point is at a NaN distance of exactly the centroids that
    have a NaN coordinate. *)
Lemma distance_nan_iff (C : tensor spec_float) (i j : nat) :
  euclid prec emax lib (data X) (data C) m i j = S754_nan <-> nan_row C m j.
Proof.
  split; [|apply euclid_nan_right].
  intros E.
  destruct (Exists_dec (fun d => nth (j * m + d) (data C) dflt = S754_nan)
              (seq 0 m)) as [Hex|Hno].
  { intros d. destruct (nth (j * m + d) (data C) dflt);
      (now left) || (right; discriminate). }
  - apply Exists_exists in Hex. destruct Hex as (d & Hd & Ed).
    apply in_seq in Hd. exists d. split; [lia|assumption].
  - exfalso. revert E. unfold euclid. apply (@has_sign_not_nan false).
    apply sqrt_sign, fsum_sign. apply Forall_forall. intros x Hx.
    apply in_map_iff in Hx. destruct Hx as (d & <- & Hd).
    apply fpow2_sign, fsub_not_nan; [now apply nth_all_finite|].
    intros Ed. apply Hno. apply Exists_exists. exists d. now split.
Qed.

(** With a NaN centroid every point is assigned to the same centroid, so
    some cluster is empty. *)
Lemma nan_centroid_empties (C : tensor spec_float) :
  shape C = [k; m] -> (exists c, c < k /\ nan_row C m c) ->
  exists clusters c,
    assign prec emax lib X C = Ok clusters /\ c < k /\ ~ In c (data clusters).
Proof.
  intros EC (c0 & Hc0 & Hnan).
  rewrite (@assign_total prec emax lib X C n m k EX EC Hn) by lia.
  eexists. 
  set (row := fun i => tabulate k (fun j =>
                euclid prec emax lib (data X) (data C) m i j)).
  assert (F : forall i, first_nan (row i) (argmin_list (row i))).
  { intros i. apply argmin_list_first_nan. apply in_map_iff.
    exists c0. split; [now apply distance_nan_iff|apply in_seq; lia]. }
  assert (U : forall i i', argmin_list (row i) = argmin_list (row i')).
  { assert (G : forall i a, first_nan (row i) a ->
                  a < k /\ nan_row C m a /\ forall j, j < a -> ~ nan_row C m j).
    { intros i a (Ha & Ea & Hf). unfold row in Ha, Ea, Hf.
      rewrite length_tabulate in Ha. rewrite nth_tabulate in Ea by assumption.
      split; [assumption|]. split; [now apply (distance_nan_iff C i a)|].
      intros j Hj Hj'. apply (Hf j Hj).
      rewrite nth_tabulate by lia. now apply distance_nan_iff. }
    intros i i'.
    destruct (G i _ (F i)) as (H1 & H2 & H3).
    destruct (G i' _ (F i')) as (H1' & H2' & H3').
    destruct (Nat.lt_trichotomy (argmin_list (row i)) (argmin_list (row i')))
      as [L|[E|L]]; [|assumption|].
    - now apply H3' in L.
    - now apply H3 in L. }
  exists (if argmin_list (row 0) =? 0 then 1 else 0).
  split; [reflexivity|]. split.
  - destruct (argmin_list (row 0) =? 0); lia.
  - cbn [data]. intros Hin. apply in_map_iff in Hin.
    destruct Hin as (i & E & _). fold (row i) in E. rewrite (U i 0) in E.
    destruct (Nat.eqb_spec (argmin_list (row 0)) 0); lia.
Qed.

(** A pass with an empty cluster does not stop and leaves a NaN
    centroid. *)
Lemma pass_with_empty_cluster (C : tensor spec_float) (clusters : tensor nat)
    (c : nat) :
  shape C = [k; m] -> wf C ->
  assign prec emax lib X C = Ok clusters -> c < k -> ~ In c (data clusters) ->
  kmeans_pass prec emax lib X (Z.of_nat k) sqrt_tol C =
    Ok (clusters, moved_centroids prec emax lib X clusters k m, false) /\
  nan_row (moved_centroids prec emax lib X clusters k m) m c.
Proof.
  intros EC W EA Hc Hno.
  assert (EA' := EA). unfold assign in EA'.
  destruct (pairwise_distance prec emax lib X (Some C)) as [D|e] eqn:ED;
    [|discriminate].
  cbn [bind] in EA'.
  destruct (@assign_inv prec emax lib X C D clusters n m k EX EC ED EA')
    as (_ & _ & _ & Ecl & Lcl & _).
  assert (N : nan_row (moved_centroids prec emax lib X clusters k m) m c).
  { exists 0. split; [assumption|].
    cbn [data moved_centroids]. rewrite nth_tabulate by nia.
    destruct (div_mod_lin c Hm) as [-> ->].
    rewrite (@members_empty clusters n c Ecl Lcl Hno). apply fmean_nil. }
  split; [|exact N].
  rewrite (@kmeans_pass_ok prec emax lib X C D clusters n m k sqrt_tol
             EX EC W ED EA').
  do 2 f_equal. unfold total_shift.
  rewrite fsum_nan; [reflexivity|].
  apply in_map_iff. exists c. split; [|apply in_seq; lia].
  now apply euclid_nan_left.
Qed.

(** From an empty cluster on, every pass succeeds, does not stop and
    leaves an empty cluster again. *)
Lemma empty_cluster_runs (fuel : nat) (C : tensor spec_float) :
  shape C = [k; m] -> wf C ->
  (exists clusters c,
     assign prec emax lib X C =
       Ok clusters /\ c < k /\ ~ In c (data clusters)) ->
  kmeans_loop prec emax lib fuel X (Z.of_nat k) sqrt_tol C = Running.
Proof.
  revert C. induction fuel as [|fuel IH]; intros C EC W (cl & c & EA & Hc & Hno);
    [reflexivity|].
  cbn [kmeans_loop].
  destruct (pass_with_empty_cluster EC W EA Hc Hno) as [-> N].
  apply IH.
  - reflexivity.
  - apply moved_centroids_wf.
  - apply nan_centroid_empties; [reflexivity|]. exists c. now split.
Qed.

(** Two equal centroids: the one of higher index gets no point. *)
Lemma equal_centroids_empty (C : tensor spec_float) (clusters : tensor nat)
    (j j' : nat) :
  shape C = [k; m] -> j < j' -> j' < k ->
  (forall d, d < m ->
     nth (j * m + d) (data C) dflt = nth (j' * m + d) (data C) dflt) ->
  assign prec emax lib X C = Ok clusters -> ~ In j' (data clusters).
Proof.
  intros EC Hj Hj' Erow EA Hin.
  destruct (@assign_ok_inv prec emax lib X C clusters n m k EX EC EA)
    as (_ & _ & _ & ->).
  cbn [data] in Hin. apply in_map_iff in Hin. destruct Hin as (i & E & _).
  set (row := tabulate k (fun j0 =>
                euclid prec emax lib (data X) (data C) m i j0)) in E.
  assert (Hlt : j < argmin_list row) by lia.
  apply (argmin_list_first row) in Hlt. apply Hlt. rewrite E.
  unfold row. rewrite !nth_tabulate by lia.
  unfold euclid. do 2 f_equal. apply tabulate_ext. intros d Hd.
  now rewrite Erow.
Qed.

(** A repeated draw: [kmeans] neither returns nor raises. *)
Lemma repeated_draw_runs (tol : option spec_float) (rng : nat -> nat)
    (j j' : nat) (fuel : nat) :
  n <> 0 ->
  math_sqrt (match tol with Some t => t | None => default_tol end)
    = Ok sqrt_tol ->
  j < j' -> j' < k -> rng j mod n = rng j' mod n ->
  kmeans prec emax lib fuel X (Z.of_nat k) tol rng = Running.
Proof.
  intros Hn0 Ht Hj Hj' Ed. unfold kmeans.
  rewrite (@initial_points_ok X n m (Z.of_nat k) rng EX) by lia.
  rewrite Ht, Nat2Z.id.
  set (C0 := mkTensor [k; m] _).
  assert (W : wf C0) by (unfold C0; wf_tabulate).
  apply (empty_cluster_runs fuel (C := C0) eq_refl W).
  eexists. exists j'.
  split; [apply (@assign_total prec emax lib X C0 n m k EX eq_refl Hn); lia|].
  split; [assumption|].
  apply (@equal_centroids_empty C0 _ j j' eq_refl Hj Hj').
  - intros d Hd. unfold C0. cbn [data].
    rewrite !nth_tabulate by nia.
    destruct (div_mod_lin j Hd) as [-> ->].
    destruct (div_mod_lin j' Hd) as [-> ->]. now rewrite Ed.
  - apply (@assign_total prec emax lib X C0 n m k EX eq_refl Hn); lia.
Qed.

End Divergence.

(** X9: on finite points of at least one coordinate, an iteration that
    assigns no point to some centroid is never followed by a return or an
    error: every later iteration succeeds, finds a NaN shift and leaves an
    empty cluster again. *)
Theorem kmeans_empty_cluster_never_ends (prec emax : Z) (lib : backend)
    (X C : tensor spec_float) (clusters : tensor nat) (n m k c : nat)
    (sqrt_tol : spec_float) (fuel : nat) :
  shape X = [n; m] -> all_finite X -> 0 < m ->
  shape C = [k; m] -> wf C ->
  assign prec emax lib X C = Ok clusters -> c < k -> ~ In c (data clusters) ->
  kmeans_loop prec emax lib fuel X (Z.of_nat k) sqrt_tol C = Running.
Proof.
  intros EX FX Hm EC W EA Hc Hno.
  destruct (@assign_ok_inv prec emax lib X C clusters n m k EX EC EA)
    as (Hn & Hk & Hk0 & _).
  apply (@empty_cluster_runs prec emax lib X n m k sqrt_tol EX FX Hm Hn);
    [lia|assumption|assumption|].
  exists clusters, c. auto.
Qed.

Lemma kmeans_empty_cluster_never_ends_witness :
  kmeans_loop p32 e32 b32 7 four_points (Z.of_nat 2) (SFsqrt 53 1024 default_tol)
    centroids_00 = Running.
Proof.
  apply (@kmeans_empty_cluster_never_ends p32 e32 b32 four_points centroids_00
           (mkTensor [4] [0; 0; 0; 0]) 4 2 2 1);
    [reflexivity|repeat constructor|lia|reflexivity|reflexivity
    |vm_compute; reflexivity|lia|].
  cbn. intros [H|[H|[H|[H|[]]]]]; discriminate.
Defined.

(** X10: on at least two finite points of at least one coordinate, when
    two of the initial draws pick the same point [kmeans] neither returns
    nor raises, however many iterations it is given: the centroid of higher
    index gets no point in the first iteration. *)
Theorem kmeans_repeated_draw_never_ends (prec emax : Z) (lib : backend)
    (X : tensor spec_float) (n m k : nat) (tol : option spec_float)
    (sqrt_tol : spec_float) (rng : nat -> nat) (j j' : nat) (fuel : nat) :
  shape X = [n; m] -> all_finite X -> 0 < m -> 2 <= n ->
  math_sqrt (match tol with Some t => t | None => default_tol end)
    = Ok sqrt_tol ->
  j < j' -> j' < k -> rng j mod n = rng j' mod n ->
  kmeans prec emax lib fuel X (Z.of_nat k) tol rng = Running.
Proof.
  intros EX FX Hm Hn Ht Hj Hj' Ed.
  apply (@repeated_draw_runs prec emax lib X n m k sqrt_tol EX FX Hm) with j j';
    try assumption; lia.
Qed.

Lemma kmeans_repeated_draw_never_ends_witness :
  kmeans p32 e32 b32 9 four_points (Z.of_nat 3) None (fun i => i mod 2) =
    Running.
Proof.
  apply (@kmeans_repeated_draw_never_ends p32 e32 b32 four_points 4 2 3 None
           (SFsqrt 53 1024 default_tol) (fun i => i mod 2) 0 2 9);
    [reflexivity|repeat constructor|lia|lia|reflexivity|lia|lia|reflexivity].
Defined.

(** X11: on at least two finite points of at least one coordinate, with
    more clusters than points [kmeans] neither returns nor raises, whatever
    the draws: some point is drawn twice. *)
Theorem kmeans_more_clusters_than_points_never_ends (prec emax : Z) (lib : backend)
    (X : tensor spec_float) (n m k : nat) (tol : option spec_float)
    (sqrt_tol : spec_float) (rng : nat -> nat) (fuel : nat) :
  shape X = [n; m] -> all_finite X -> 0 < m -> 2 <= n ->
  math_sqrt (match tol with Some t => t | None => default_tol end)
    = Ok sqrt_tol ->
  n < k ->
  kmeans prec emax lib fuel X (Z.of_nat k) tol rng = Running.
Proof.
  intros EX FX Hm Hn Ht Hk.
  destruct (@draws_repeat rng n k) as (j & j' & Hj & Hj' & Ed); try lia.
  apply (@repeated_draw_runs prec emax lib X n m k sqrt_tol EX FX Hm) with j j';
    try assumption; lia.
Qed.

Lemma kmeans_more_clusters_than_points_never_ends_witness :
  kmeans p32 e32 b32 9 four_points (Z.of_nat 6) None (fun i => 7 * i + 3) =
    Running.
Proof.
  apply (@kmeans_more_clusters_than_points_never_ends p32 e32 b32 four_points
           4 2 6 None (SFsqrt 53 1024 default_tol) (fun i => 7 * i + 3) 9);
    [reflexivity|repeat constructor|lia|lia|reflexivity|lia].
Defined.

(** ** The training regime *)

Lemma slice_from_nonempty {A : Type} (es : Z) (l : list A) :
  l <> [] -> (0 <= es)%Z -> slice_from (- es) l <> [].
Proof.
  intros Hl Hes. unfold slice_from.
  assert (Hlen : 0 < length l) by (destruct l; [congruence|cbn; lia]).
  intros E. apply (f_equal (@length A)) in E. rewrite length_skipn in E.
  cbn [length] in E.
  destruct (Z.ltb_spec (- es) 0); lia.
Qed.

Lemma py_max_nonempty (l : list spec_float) :
  l <> [] -> exists v, py_max l = inr v.
Proof. destruct l; [congruence|]. intros _. eexists. reflexivity. Qed.

Lemma py_min_nonempty (l : list spec_float) :
  l <> [] -> exists v, py_min l = inr v.
Proof. destruct l; [congruence|]. intros _. eexists. reflexivity. Qed.

Lemma py_max_error (l : list spec_float) (e : py_error) :
  py_max l = inl e -> l = [] /\ e = Builtin ValueError.
Proof. destruct l; [|discriminate]. intros H. now injection H as <-. Qed.

Lemma py_min_error (l : list spec_float) (e : py_error) :
  py_min l = inl e -> l = [] /\ e = Builtin ValueError.
Proof. destruct l; [|discriminate]. intros H. now injection H as <-. Qed.

Lemma py_div_cases (a b : spec_float) :
  (exists s, b = S754_zero s /\ py_div a b = inl ZeroDivisionError) \/
  ((forall s, b <> S754_zero s) /\ py_div a b = inr (SFdiv 53 1024 a b)).
Proof.
  destruct b as [s|s| |s m e]; [left; eauto|right..];
    (split; [discriminate|reflexivity]).
Qed.

Section TrainingFacts.

Variable S : Type.
Variable train_batch : S -> spec_float -> nat -> Z -> S * spec_float.
Variable n_train : nat.

(** The batches change the model and the loss only. *)
Lemma batches_keep (bs : Z) (starts : list nat) (t : training S) :
  lr (fold_left (batch_body train_batch bs) starts t) = lr t /\
  loss_history (fold_left (batch_body train_batch bs) starts t) =
    loss_history t /\
  output (fold_left (batch_body train_batch bs) starts t) = output t /\
  (starts = [] -> fold_left (batch_body train_batch bs) starts t = t) /\
  (starts <> [] -> loss (fold_left (batch_body train_batch bs) starts t) <> None).
Proof.
  revert t. induction starts as [|a starts IH]; intros t.
  - cbn. repeat split; congruence.
  - cbn [fold_left]. destruct (IH (batch_body train_batch bs t a)) as (H1 & H2 & H3 & H4 & H5).
    assert (K : lr (batch_body train_batch bs t a) = lr t /\
                loss_history (batch_body train_batch bs t a) = loss_history t /\
                output (batch_body train_batch bs t a) = output t /\
                loss (batch_body train_batch bs t a) <> None).
    { unfold batch_body. destruct (train_batch _ _ _ _).
      cbn. repeat split; congruence. }
    destruct K as (K1 & K2 & K3 & K4).
    rewrite H1, H2, H3. repeat split; try assumption; try congruence.
    intros _. destruct starts as [|b starts]; [exact K4|].
    apply H5. discriminate.
Qed.

(** What one epoch does to the learning rate, the history and the
    printed lines, case by case. *)
Lemma epoch_body_spec (bs es : Z) (t t' : training S) (epoch : nat)
    (r : epoch_end) :
  epoch_body train_batch n_train bs es t epoch = (t', r) ->
  (lr t' = lr t /\ loss_history t' = loss_history t /\ output t' = output t /\
   ((r = Throw (Builtin ValueError) /\ bs = 0%Z /\ t' = t) \/
    (r = Throw UnboundLocalError /\ loss t' = None))) \/
  (exists l,
     loss t' = Some l /\ loss_history t' = loss_history t ++ [l] /\
     let len := Z.of_nat (length (loss_history t')) in
     let line := EpochLine epoch l (lr t) in
     ((r = GoOn /\ (len < es)%Z /\ lr t' = lr t /\
       output t' = output t ++ [line]) \/
      ((es <= len)%Z /\ lr t' = lr t /\ output t' = output t ++ [line] /\
       ((r = Throw (Builtin ValueError) /\ (es < 0)%Z) \/
        (r = Throw ZeroDivisionError /\ exists s, l = S754_zero s))) \/
      ((es <= len)%Z /\ (forall s, l <> S754_zero s) /\
       (lr t' = lr t \/ lr t' = SFdiv 53 1024 (lr t) d_two) /\
       ((r = GoOn /\ SFltb (lr t') d_1e_8 = false /\
         output t' = output t ++ [line]) \/
        (r = Break /\ SFltb (lr t') d_1e_8 = true /\
         output t' = output t ++ [line; Discontinuing]))))).
Proof.
  unfold epoch_body. intros H.
  destruct (range_step n_train bs) as [e|starts] eqn:ER.
  { left. injection H as <- <-. repeat split.
    left. unfold range_step in ER.
    destruct (Z.eqb_spec bs 0); [|destruct (bs <? 0)%Z; discriminate].
    injection ER as <-. auto. }
  destruct (batches_keep bs starts t) as (K1 & K2 & K3 & _ & _).
  set (t1 := fold_left (batch_body train_batch bs) starts t) in *.
  destruct (loss t1) as [l|] eqn:EL.
  2:{ left. injection H as <- <-. repeat split; try assumption.
      right. auto. }
  right. exists l. cbn [loss_history lr output model loss] in H.
  rewrite K1, K2, K3 in H.
  destruct (Z.ltb_spec (Z.of_nat (length (loss_history t ++ [l]))) es) as [Hlt|Hge].
  { injection H as <- <-. cbn. repeat split. left. auto. }
  assert (Hne : loss_history t ++ [l] <> []) by (now destruct (loss_history t)).
  destruct (py_max _) as [e|hi] eqn:EM.
  { injection H as <- <-. cbn. repeat split. right. left.
    repeat split; try assumption. left.
    apply py_max_error in EM. destruct EM as [Es ->]. split; [reflexivity|].
    destruct (Z.ltb_spec es 0); [assumption|].
    now apply slice_from_nonempty in Es. }
  destruct (py_min _) as [e|lo] eqn:Em.
  { injection H as <- <-. cbn. repeat split. right. left.
    repeat split; try assumption. left.
    apply py_min_error in Em. destruct Em as [Es ->]. split; [reflexivity|].
    destruct (Z.ltb_spec es 0); [assumption|].
    now apply slice_from_nonempty in Es. }
  rewrite last_last in H.
  destruct (py_div_cases (dsub hi lo) l) as [(s & -> & ED)|(Hnz & ED)];
    rewrite ED in H.
  { injection H as <- <-. cbn. repeat split. right. left.
    repeat split; try assumption. right. eauto. }
  cbn [loss_history lr output model loss] in H.
  destruct (SFltb (SFdiv 53 1024 (dsub hi lo) l) d_0_005);
    cbn [loss_history lr output model loss] in H;
    match type of H with
    | (if ?b then _ else _) = _ => destruct b eqn:EB
    end;
    injection H as <- <-; cbn; repeat split; right; right;
    (split; [assumption|]); (split; [assumption|]);
    (split; [auto|]); [right|left|right|left]; repeat split; auto;
    now rewrite <- app_assoc.
Qed.

End TrainingFacts.

Lemma epochs_run_app (out1 out2 : list event) :
  epochs_run (out1 ++ out2) = epochs_run out1 + epochs_run out2.
Proof. unfold epochs_run. now rewrite filter_app, length_app. Qed.

Section TrainingLoop.

Variable S : Type.
Variable train_batch : S -> spec_float -> nat -> Z -> S * spec_float.
Variable n_train : nat.
Variables bs es : Z.

(** How the loop over the epochs ends, for a property [I] of the number of
    completed epochs and the state that every completed epoch keeps: it
    runs out of epochs, or some epoch breaks or raises. *)
Lemma epochs_loop_end (I : nat -> training S -> Prop) :
  (forall d t e t', I d t ->
     epoch_body train_batch n_train bs es t e =
       (t', GoOn) -> I (Datatypes.S d) t') ->
  forall (eps : list nat) (d : nat) (t t' : training S) (r : option py_error),
    I d t -> epochs_loop train_batch n_train bs es t eps = (t', r) ->
    (r = None /\ I (d + length eps) t') \/
    (exists d' t1,
       d <= d' /\ d' < d + length eps /\ I d' t1 /\
       ((epoch_body train_batch n_train bs es t1 (nth (d' - d) eps 0)
           = (t', Break) /\ r = None) \/
        (exists x, epoch_body train_batch n_train bs es t1 (nth (d' - d) eps 0)
                     = (t', Throw x) /\ r = Some x))).
Proof.
  intros Step. induction eps as [|e eps IH]; intros d t t' r HI E.
  - cbn in E. injection E as <- <-. left. rewrite Nat.add_0_r. auto.
  - cbn [epochs_loop] in E.
    destruct (epoch_body train_batch n_train bs es t e) as [t1 [| |x]] eqn:EB.
    + destruct (IH (Datatypes.S d) t1 t' r (Step _ _ _ _ HI EB) E)
        as [[-> H]|(d' & t2 & H1 & H2 & H3 & H4)].
      * left. split; [reflexivity|]. cbn [length].
        now rewrite Nat.add_succ_r.
      * right. exists d', t2. cbn [length].
        replace (d' - d) with (Datatypes.S (d' - Datatypes.S d)) by lia.
        cbn [nth]. repeat split; try lia; assumption.
    + injection E as <- <-. right. exists d, t. rewrite Nat.sub_diag.
      cbn [nth length]. repeat split; try lia; auto.
    + injection E as <- <-. right. exists d, t. rewrite Nat.sub_diag.
      cbn [nth length]. repeat split; try lia; eauto.
Qed.

End TrainingLoop.

Section TrainingClaims.

Variable S : Type.
Variable train_batch : S -> spec_float -> nat -> Z -> S * spec_float.
Variable n_train : nat.

(** One epoch keeps the count of printed epochs equal to the length of the
    history, and the learning rate a halving of the initial one that began
    no earlier than epoch [es]. *)
Lemma epoch_keeps_rate (bs es : Z) (lr0 : spec_float) (t t' : training S)
    (epoch : nat) (r : epoch_end) :
  epoch_body train_batch n_train bs es t epoch = (t', r) ->
  (epochs_run (output t) = length (loss_history t) /\
   exists j, lr t = halved j lr0 /\ j <= length (loss_history t) /\
     (0 < j -> (es + Z.of_nat j <= Z.of_nat (length (loss_history t)) + 1)%Z)) ->
  (epochs_run (output t') = length (loss_history t') /\
   exists j, lr t' = halved j lr0 /\ j <= length (loss_history t') /\
     (0 < j -> (es + Z.of_nat j <= Z.of_nat (length (loss_history t')) + 1)%Z)) /\
  (length (loss_history t') = length (loss_history t) \/
   length (loss_history t') = Datatypes.S (length (loss_history t))) /\
  (r = GoOn -> length (loss_history t') = Datatypes.S (length (loss_history t))).
Proof.
  intros E (Hrun & j & Hj & Hle & Hes).
  destruct (epoch_body_spec _ _ _ _ _ _ E)
    as [(H1 & H2 & H3 & H4)|(l & Hl & Hh & H)].
  - rewrite H1, H2, H3. split; [|split]; [eauto|auto|].
    destruct H4 as [[-> _]|[-> _]]; discriminate.
  - cbn zeta in H. rewrite Hh in *. rewrite length_snoc in *.
    assert (R1 : forall out, out = output t ++ [EpochLine epoch l (lr t)] ->
                 epochs_run out = Datatypes.S (length (loss_history t))).
    { intros out ->. rewrite epochs_run_app, Hrun. cbn. lia. }
    assert (R2 : forall out,
                 out = output t ++ [EpochLine epoch l (lr t); Discontinuing] ->
                 epochs_run out = Datatypes.S (length (loss_history t))).
    { intros out ->. rewrite epochs_run_app, Hrun. cbn. lia. }
    split; [|split; [now right|reflexivity]].
    destruct H as [(-> & Hlt & Hlr & Ho)
                  |[(Hge & Hlr & Ho & _)
                   |(Hge & _ & Hlr & [(-> & _ & Ho)|(-> & _ & Ho)])]].
    + split; [now apply R1|]. exists j. rewrite Hlr. repeat split; lia || auto.
    + split; [now apply R1|]. exists j. rewrite Hlr. repeat split; lia || auto.
    + split; [now apply R1|].
      destruct Hlr as [Hlr|Hlr]; rewrite Hlr;
        [exists j|exists (Datatypes.S j); cbn [halved]; rewrite Hj];
        repeat split; lia || auto.
    + split; [now apply R2|].
      destruct Hlr as [Hlr|Hlr]; rewrite Hlr;
        [exists j|exists (Datatypes.S j); cbn [halved]; rewrite Hj];
        repeat split; lia || auto.
Qed.

(** X12: whatever the batches do, [do_training] completes at most
    [epochs] epochs, records one loss per completed epoch, and leaves a
    learning rate that is the initial one halved [j] times, where [j] is at
    most the number of completed epochs and no halving happens before epoch
    [early_stop]. *)
Theorem do_training_learning_rate (m : S) (lr0 : spec_float)
    (epochs batch_size early_stop : option Z) :
  let t := fst (do_training train_batch n_train m lr0 epochs batch_size
                  early_stop) in
  let es := match early_stop with Some e => e | None => 6%Z end in
  let ep := match epochs with Some e => e | None => 5000%Z end in
  length (loss_history t) = epochs_run (output t) /\
  epochs_run (output t) <= Z.to_nat ep /\
  exists j, lr t = halved j lr0 /\ j <= epochs_run (output t) /\
    (0 < j -> (es + Z.of_nat j <= Z.of_nat (epochs_run (output t)) + 1)%Z).
Proof.
  cbn zeta. unfold do_training.
  set (ep := match epochs with Some e => e | None => 5000%Z end).
  set (bs := match batch_size with Some b => b | None => 5000%Z end).
  set (es := match early_stop with Some e => e | None => 6%Z end).
  set (t0 := mkTraining m lr0 None [] [Beginning ep bs]).
  pose (I := fun (d : nat) (t : training S) =>
    length (loss_history t) = d /\
    epochs_run (output t) = length (loss_history t) /\
    exists j, lr t = halved j lr0 /\ j <= length (loss_history t) /\
      (0 < j -> (es + Z.of_nat j <= Z.of_nat (length (loss_history t)) + 1)%Z)).
  assert (I0 : I 0 t0).
  { split; [reflexivity|]. split; [reflexivity|]. exists 0. cbn.
    repeat split; lia. }
  assert (Step : forall d t e t', I d t ->
            epoch_body train_batch n_train bs es t e = (t', GoOn) ->
            I (Datatypes.S d) t').
  { intros d t e t' (Hd & HI) E.
    destruct (epoch_keeps_rate _ _ lr0 _ _ E HI) as (HI' & _ & Hg).
    split; [rewrite Hg by reflexivity; lia|exact HI']. }
  destruct (epochs_loop train_batch n_train bs es t0 (seq 1 (Z.to_nat ep)))
    as [t r] eqn:E.
  cbn [fst].
  destruct (@epochs_loop_end S train_batch n_train bs es I Step _ _ _ _ _ I0 E)
    as [(_ & Hd & Hr & Hj)|(d' & t1 & _ & Hlt & (Hd & HI) & Hend)].
  - rewrite length_seq in Hd. rewrite Hr. split; [reflexivity|].
    split; [cbn in Hd; lia|exact Hj].
  - rewrite length_seq in Hlt.
    assert (exists r', epoch_body train_batch n_train bs es t1
                         (nth (d' - 0) (seq 1 (Z.to_nat ep)) 0) = (t, r'))
      as [r' E'] by (destruct Hend as [[? _]|(x & ? & _)]; eauto).
    destruct (epoch_keeps_rate _ _ lr0 _ _ E' HI) as ((Hr & Hj) & Hlen & _).
    rewrite Hr. split; [reflexivity|]. split; [lia|exact Hj].
Qed.

(** X13: when [do_training] returns without an exception, either all the
    epochs were completed, or the last epoch is at or past [early_stop],
    left the learning rate below [1e-8] and printed the discontinuing
    line. *)
Theorem do_training_stops_on_small_rate (m : S) (lr0 : spec_float)
    (epochs batch_size early_stop : option Z) :
  let run := do_training train_batch n_train m lr0 epochs batch_size
               early_stop in
  let es := match early_stop with Some e => e | None => 6%Z end in
  let ep := match epochs with Some e => e | None => 5000%Z end in
  snd run = None ->
  epochs_run (output (fst run)) = Z.to_nat ep \/
  (SFltb (lr (fst run)) d_1e_8 = true /\
   last (output (fst run)) (Beginning 0 0) = Discontinuing /\
   (es <= Z.of_nat (epochs_run (output (fst run))))%Z).
Proof.
  cbn zeta. unfold do_training.
  set (ep := match epochs with Some e => e | None => 5000%Z end).
  set (bs := match batch_size with Some b => b | None => 5000%Z end).
  set (es := match early_stop with Some e => e | None => 6%Z end).
  set (t0 := mkTraining m lr0 None [] [Beginning ep bs]).
  pose (I := fun (d : nat) (t : training S) =>
    length (loss_history t) = d /\
    epochs_run (output t) = length (loss_history t)).
  assert (I0 : I 0 t0) by (split; reflexivity).
  assert (Keep : forall t e t' r,
            epochs_run (output t) = length (loss_history t) ->
            epoch_body train_batch n_train bs es t e = (t', r) ->
            epochs_run (output t') = length (loss_history t') /\
            (r = GoOn ->
             length (loss_history t') = Datatypes.S (length (loss_history t)))).
  { intros t e t' r Hr E.
    assert (HI : epochs_run (output t) = length (loss_history t) /\
                 exists j, lr t = halved j (lr t) /\
                   j <= length (loss_history t) /\
                   (0 < j -> (es + Z.of_nat j
                              <= Z.of_nat (length (loss_history t)) + 1)%Z)).
    { split; [assumption|]. exists 0. cbn. repeat split; lia. }
    destruct (epoch_keeps_rate _ _ (lr t) _ _ E HI) as ((H1 & _) & _ & H3).
    auto. }
  assert (Step : forall d t e t', I d t ->
            epoch_body train_batch n_train bs es t e = (t', GoOn) ->
            I (Datatypes.S d) t').
  { intros d t e t' (Hd & Hr) E. destruct (Keep _ _ _ _ Hr E) as (H1 & H2).
    split; [rewrite H2 by reflexivity; lia|assumption]. }
  destruct (epochs_loop train_batch n_train bs es t0 (seq 1 (Z.to_nat ep)))
    as [t r] eqn:E.
  cbn [fst snd]. intros ->.
  destruct (@epochs_loop_end S train_batch n_train bs es I Step _ _ _ _ _ I0 E)
    as [(_ & Hd & Hr)|(d' & t1 & _ & _ & (Hd & Hr) & [(EB & _)|(x & _ & Hx)])];
    [|clear E|discriminate].
  - left. rewrite Hr, Hd, length_seq. reflexivity.
  - right. destruct (Keep _ _ _ _ Hr EB) as (Hr' & _).
    destruct (epoch_body_spec _ _ _ _ _ _ EB)
      as [(_ & _ & _ & [(H & _)|(H & _)])|(l & _ & Hh & H)];
      try discriminate.
    cbn zeta in H.
    destruct H as [(H & _)|[(_ & _ & _ & [(H & _)|(H & _)])
                           |(Hge & _ & _ & [(H & _)|(_ & Hlr & Ho)])]];
      try discriminate.
    split; [assumption|]. split.
    + rewrite Ho. change [EpochLine _ l (lr t1); Discontinuing]
        with ([EpochLine (nth (d' - 0) (seq 1 (Z.to_nat ep)) 0) l (lr t1)]
              ++ [Discontinuing]).
      now rewrite app_assoc, last_last.
    + rewrite Hr'. exact Hge.
Qed.

End TrainingClaims.

Section TrainingErrors.

Variable S : Type.
Variable train_batch : S -> spec_float -> nat -> Z -> S * spec_float.
Variable n_train : nat.

(** X14: [do_training] does not survive an epoch, at or past
    [early_stop >= 0], whose loss is exactly zero: when the last recorded
    loss is a zero and the history has at least [early_stop] entries, the
    division [diff/loss_history[-1]] has raised [ZeroDivisionError]. *)
Theorem do_training_zero_loss_raises (m : S) (lr0 : spec_float)
    (epochs batch_size early_stop : option Z) :
  let run := do_training train_batch n_train m lr0 epochs batch_size
               early_stop in
  let es := match early_stop with Some e => e | None => 6%Z end in
  loss_history (fst run) <> [] ->
  (0 <= es <= Z.of_nat (length (loss_history (fst run))))%Z ->
  (exists s, last (loss_history (fst run)) dzero = S754_zero s) ->
  snd run = Some ZeroDivisionError.
Proof.
  cbn zeta. unfold do_training.
  set (ep := match epochs with Some e => e | None => 5000%Z end).
  set (bs := match batch_size with Some b => b | None => 5000%Z end).
  set (es := match early_stop with Some e => e | None => 6%Z end).
  set (t0 := mkTraining m lr0 None [] [Beginning ep bs]).
  pose (J := fun (d : nat) (t : training S) =>
    loss_history t = [] \/
    (Z.of_nat (length (loss_history t)) < es)%Z \/
    (forall s, last (loss_history t) dzero <> S754_zero s)).
  assert (J0 : J 0 t0) by (left; reflexivity).
  assert (Step : forall d t e t', J d t ->
            epoch_body train_batch n_train bs es t e = (t', GoOn) ->
            J (Datatypes.S d) t').
  { intros d t e t' _ E.
    destruct (epoch_body_spec _ _ _ _ _ _ E)
      as [(_ & _ & _ & [(H & _)|(H & _)])|(l & _ & Hh & H)];
      try discriminate.
    unfold J. cbn zeta in H. rewrite Hh in *.
    destruct H as [(_ & Hlt & _)|[(_ & _ & _ & [(H & _)|(H & _)])
                                 |(_ & Hnz & _)]]; try discriminate.
    - right. left. assumption.
    - right. right. now rewrite last_last. }
  destruct (epochs_loop train_batch n_train bs es t0 (seq 1 (Z.to_nat ep)))
    as [t r] eqn:E.
  cbn [fst snd]. intros Hne Hes (s & Hz).
  assert (NJ : forall d, ~ J d t).
  { intros d [H|[H|H]]; [contradiction|lia|now apply (H s)]. }
  destruct (@epochs_loop_end S train_batch n_train bs es J Step _ _ _ _ _ J0 E)
    as [(_ & HJ)|(d' & t1 & _ & _ & HJ & Hend)].
  { now apply NJ in HJ. }
  assert (exists r', epoch_body train_batch n_train bs es t1
                       (nth (d' - 0) (seq 1 (Z.to_nat ep)) 0) = (t, r') /\
                     r = match r' with Throw x => Some x | _ => None end /\
                     r' <> GoOn)
    as (r' & E' & -> & Hr').
  { destruct Hend as [[? ->]|(x & ? & ->)]; eexists; repeat split; eauto;
      discriminate. }
  destruct (epoch_body_spec _ _ _ _ _ _ E')
    as [(_ & Hh & _)|(l & _ & Hh & H)].
  { exfalso. apply (NJ d'). unfold J in *. now rewrite Hh. }
  cbn zeta in H. rewrite Hh, last_last in Hz. subst l.
  destruct H as [(-> & _)|[(_ & _ & _ & [(-> & Hneg)|(-> & _)])
                          |(_ & Hnz & _)]].
  - contradiction.
  - lia.
  - reflexivity.
  - now specialize (Hnz s).
Qed.

(** X15: without a batch to train on, when the training set is empty or
    the batch size negative, the first epoch raises [UnboundLocalError] at
    the line that prints the loss; with a batch size of zero it raises
    [ValueError].  In both cases the model, the learning rate and the
    history are as they were. *)
Theorem do_training_without_batches (m : S) (lr0 : spec_float)
    (epochs bs : Z) (early_stop : option Z) :
  (1 <= epochs)%Z ->
  (n_train = 0 \/ (bs < 0)%Z ->
   (bs <> 0)%Z ->
   do_training train_batch n_train m lr0 (Some epochs) (Some bs) early_stop =
   (mkTraining m lr0 None [] [Beginning epochs bs], Some UnboundLocalError)) /\
  (bs = 0%Z ->
   do_training train_batch n_train m lr0 (Some epochs) (Some bs) early_stop =
   (mkTraining m lr0 None [] [Beginning epochs bs],
    Some (Builtin ValueError))).
Proof.
  intros Hep.
  assert (Es : exists k, seq 1 (Z.to_nat epochs) = 1 :: k).
  { destruct (Z.to_nat epochs) eqn:E; [lia|]. eexists. reflexivity. }
  destruct Es as [k Ek]. unfold do_training. rewrite Ek.
  cbn [epochs_loop]. unfold epoch_body, range_step. split.
  - intros H Hbs. destruct (Z.eqb_spec bs 0); [contradiction|].
    destruct (Z.ltb_spec bs 0); [reflexivity|].
    destruct H as [->|H]; [|lia].
    rewrite Nat.div_small by lia. reflexivity.
  - intros ->. reflexivity.
Qed.

End TrainingErrors.

Lemma skipn_repeat {A : Type} (c : A) (k n : nat) :
  skipn n (repeat c k) = repeat c (k - n).
Proof.
  revert n. induction k as [|k IH]; intros [|n]; cbn; auto.
Qed.

Lemma repeat_snoc {A : Type} (c : A) (k : nat) :
  repeat c k ++ [c] = repeat c (Datatypes.S k).
Proof. induction k as [|k IH]; cbn; [reflexivity|]. now rewrite IH. Qed.

Lemma fold_keep_constant (f : spec_float -> spec_float -> bool)
    (c : spec_float) (k : nat) :
  fold_left (fun best w => if f best w then w else best) (repeat c k) c = c.
Proof.
  induction k as [|k IH]; cbn; [reflexivity|]. now destruct (f c c).
Qed.

Lemma py_max_repeat (c : spec_float) (k : nat) :
  py_max (repeat c (Datatypes.S k)) = inr c.
Proof. cbn [repeat py_max]. f_equal. apply fold_keep_constant. Qed.

Lemma py_min_repeat (c : spec_float) (k : nat) :
  py_min (repeat c (Datatypes.S k)) = inr c.
Proof.
  cbn [repeat py_min]. f_equal.
  apply (fold_keep_constant (fun best w => SFltb w best)).
Qed.

Lemma last_two {A : Type} (l : list A) (a b d : A) :
  last (l ++ [a; b]) d = b.
Proof.
  change [a; b] with ([a] ++ [b]). now rewrite app_assoc, last_last.
Qed.

Section ConstantLoss.

Variable S : Type.
Variable train_batch : S -> spec_float -> nat -> Z -> S * spec_float.
Variable n_train : nat.
Variables bs es : Z.
Variables (sc : bool) (mc : positive) (ec : Z).

Hypothesis Hconst : forall m l start b,
  snd (train_batch m l start b) = S754_finite sc mc ec.
Hypothesis Hn : 0 < n_train.
Hypothesis Hbs : (0 < bs)%Z.
Hypothesis Hes : (1 <= es)%Z.

Lemma batches_constant (starts : list nat) (t : training S) :
  starts <> [] ->
  loss (fold_left (batch_body train_batch bs) starts t)
    = Some (S754_finite sc mc ec).
Proof.
  revert t. induction starts as [|a starts IH]; intros t Hne; [congruence|].
  cbn [fold_left]. destruct starts as [|b starts].
  - cbn [fold_left]. unfold batch_body.
    specialize (Hconst (model t) (lr t) a bs).
    destruct (train_batch _ _ _ _). cbn in *. now rewrite Hconst.
  - apply IH. discriminate.
Qed.

Lemma range_step_nonempty :
  exists a starts, range_step n_train bs = inr (a :: starts).
Proof.
  unfold range_step.
  destruct (Z.eqb_spec bs 0); [lia|]. destruct (Z.ltb_spec bs 0); [lia|].
  assert (Hdiv : 1 <= (n_train + Z.to_nat bs - 1) / Z.to_nat bs).
  { apply Nat.div_le_lower_bound; lia. }
  destruct ((n_train + Z.to_nat bs - 1) / Z.to_nat bs); [lia|].
  cbn [seq map]. eauto.
Qed.

(** One epoch on a history of [d] constant losses. *)
Lemma constant_epoch (t t' : training S) (epoch d : nat) (r : epoch_end) :
  loss_history t = repeat (S754_finite sc mc ec) d ->
  epoch_body train_batch n_train bs es t epoch = (t', r) ->
  loss_history t' = repeat (S754_finite sc mc ec) (Datatypes.S d) /\
  ((Z.of_nat (Datatypes.S d) < es)%Z /\ lr t' = lr t /\
   output t' = output t ++ [EpochLine epoch (S754_finite sc mc ec) (lr t)] /\
   r = GoOn \/
   (es <= Z.of_nat (Datatypes.S d))%Z /\
   lr t' = SFdiv 53 1024 (lr t) d_two /\
   (SFltb (lr t') d_1e_8 = false /\
    output t' = output t ++ [EpochLine epoch (S754_finite sc mc ec) (lr t)] /\
    r = GoOn \/
    SFltb (lr t') d_1e_8 = true /\
    output t' = output t
                ++ [EpochLine epoch (S754_finite sc mc ec) (lr t);
                    Discontinuing] /\
    r = Break)).
Proof.
  intros Hh E. unfold epoch_body in E.
  destruct range_step_nonempty as (a & starts & ER). rewrite ER in E.
  destruct (batches_keep train_batch bs (a :: starts) t) as (K1 & K2 & K3 & _).
  rewrite (@batches_constant (a :: starts) t) in E by discriminate.
  cbn [loss_history lr output model loss] in E. rewrite K1, K2, K3, Hh in E.
  rewrite repeat_snoc, repeat_length in E.
  destruct (Z.ltb_spec (Z.of_nat (Datatypes.S d)) es) as [Hlt|Hge].
  { injection E as <- <-. cbn. split; [reflexivity|]. left. auto. }
  assert (Hs : exists k, slice_from (- es) (repeat (S754_finite sc mc ec)
                                              (Datatypes.S d))
                         = repeat (S754_finite sc mc ec) (Datatypes.S k)).
  { unfold slice_from. rewrite skipn_repeat, repeat_length.
    destruct (Z.ltb_spec (- es) 0); [|lia].
    exists (d - Z.to_nat (Z.max (Z.of_nat (Datatypes.S d) + - es) 0)).
    f_equal. lia. }
  destruct Hs as [k Hs]. rewrite Hs, py_max_repeat, py_min_repeat in E.
  rewrite <- repeat_snoc, last_last in E.
  assert (Hq : py_div (dsub (S754_finite sc mc ec) (S754_finite sc mc ec))
                 (S754_finite sc mc ec) = inr (S754_zero sc)).
  { unfold dsub. change (SFsub 53 1024) with (fsub 53 1024).
    rewrite fsub_diag by reflexivity. now destruct sc. }
  rewrite Hq in E. replace (SFltb (S754_zero sc) d_0_005) with true in E
    by now destruct sc.
  cbn [loss_history lr output model loss] in E. rewrite repeat_snoc in E.
  destruct (SFltb (SFdiv 53 1024 (lr t) d_two) d_1e_8) eqn:EB;
    injection E as <- <-; cbn [loss_history lr output];
    (split; [reflexivity|]); right; (split; [assumption|]);
    (split; [reflexivity|]); [right|left]; repeat split; try assumption.
  now rewrite <- app_assoc.
Qed.

End ConstantLoss.

(** X16: when every batch gives one and the same finite, non-zero loss,
    [do_training] halves the learning rate in every epoch from epoch
    [early_stop >= 1] on, and returns, after printing the discontinuing
    line, at the end of the first epoch that leaves the rate below [1e-8]:
    if that takes [j] halvings, after [early_stop + j - 1] epochs. *)
Theorem do_training_constant_loss (S : Type)
    (train_batch : S -> spec_float -> nat -> Z -> S * spec_float)
    (n_train : nat) (m : S) (lr0 : spec_float) (epochs bs es : Z)
    (sc : bool) (mc : positive) (ec : Z) (j : nat) :
  (forall m l start b, snd (train_batch m l start b) = S754_finite sc mc ec) ->
  0 < n_train -> (0 < bs)%Z -> (1 <= es)%Z -> 1 <= j ->
  (forall i, 1 <= i -> i < j -> SFltb (halved i lr0) d_1e_8 = false) ->
  SFltb (halved j lr0) d_1e_8 = true ->
  (es + Z.of_nat j - 1 <= epochs)%Z ->
  let run := do_training train_batch n_train m lr0 (Some epochs) (Some bs)
               (Some es) in
  snd run = None /\
  lr (fst run) = halved j lr0 /\
  epochs_run (output (fst run)) = Z.to_nat es + j - 1 /\
  loss_history (fst run) =
    repeat (S754_finite sc mc ec) (Z.to_nat es + j - 1) /\
  last (output (fst run)) (Beginning 0 0) = Discontinuing.
Proof.
  intros Hconst Hn Hbs Hes Hj Hmin Hlast Hep. cbn zeta. unfold do_training.
  set (t0 := mkTraining m lr0 None [] [Beginning epochs bs]).
  set (c := S754_finite sc mc ec).
  set (esn := Z.to_nat es).
  assert (Hesn : Z.of_nat esn = es) by (unfold esn; lia).
  pose (I := fun (d : nat) (t : training S) =>
    loss_history t = repeat c d /\ epochs_run (output t) = d /\
    lr t = halved (d + 1 - esn) lr0 /\ d + 1 - esn < j).
  assert (I0 : I 0 t0).
  { unfold I. replace (0 + 1 - esn) with 0 by lia. repeat split. lia. }
  assert (Body : forall d t e t' r, I d t ->
            epoch_body train_batch n_train bs es t e = (t', r) ->
            (r = GoOn /\ I (Datatypes.S d) t') \/
            (r = Break /\ Datatypes.S d = esn + j - 1 /\
             loss_history t' = repeat c (Datatypes.S d) /\
             epochs_run (output t') = Datatypes.S d /\
             lr t' = halved j lr0 /\
             last (output t') (Beginning 0 0) = Discontinuing)).
  { intros d t e t' r (Hh & Hr & Hlr & Hd) E.
    destruct (@constant_epoch S train_batch n_train bs es sc mc ec
                Hconst Hn Hbs Hes t t' e d r Hh E)
      as (Hh' & [(Hlt & Hlr' & Ho & ->)
                |(Hge & Hlr' & [(Hf & Ho & ->)|(Ht & Ho & ->)])]).
    - left. split; [reflexivity|]. unfold I.
      replace (Datatypes.S d + 1 - esn) with 0 by lia.
      replace (d + 1 - esn) with 0 in Hlr by lia.
      rewrite Ho, epochs_run_app, Hr, Hlr', Hlr. cbn.
      repeat split; [assumption|lia|lia].
    - assert (Hh2 : lr t' = halved (Datatypes.S (d + 1 - esn)) lr0)
        by (cbn [halved]; now rewrite <- Hlr).
      left. split; [reflexivity|]. unfold I.
      replace (Datatypes.S d + 1 - esn) with (Datatypes.S (d + 1 - esn)) by lia.
      rewrite Ho, epochs_run_app, Hr. cbn.
      repeat split; [assumption|lia|assumption|].
      destruct (Nat.eq_dec (Datatypes.S (d + 1 - esn)) j) as [Ej|Ej]; [|lia].
      rewrite Hh2, Ej, Hlast in Hf. discriminate.
    - assert (Hh2 : lr t' = halved (Datatypes.S (d + 1 - esn)) lr0)
        by (cbn [halved]; now rewrite <- Hlr).
      assert (Ej : Datatypes.S (d + 1 - esn) = j).
      { destruct (Nat.eq_dec (Datatypes.S (d + 1 - esn)) j) as [Ej|Ej];
          [assumption|].
        rewrite Hh2, Hmin in Ht by lia. discriminate. }
      right. split; [reflexivity|]. split; [lia|]. split; [assumption|].
      rewrite Ho, epochs_run_app, Hr. cbn.
      split; [lia|]. split; [now rewrite Hh2, Ej|].
      apply last_two. }
  assert (Step : forall d t e t', I d t ->
            epoch_body train_batch n_train bs es t e = (t', GoOn) ->
            I (Datatypes.S d) t').
  { intros d t e t' HI E.
    destruct (Body _ _ _ _ _ HI E) as [(_ & H)|(H & _)];
      [assumption|discriminate]. }
  destruct (epochs_loop train_batch n_train bs es t0 (seq 1 (Z.to_nat epochs)))
    as [t r] eqn:E.
  cbn [fst snd].
  destruct (@epochs_loop_end S train_batch n_train bs es I Step _ _ _ _ _ I0 E)
    as [(_ & _ & _ & _ & Hd)|(d' & t1 & _ & _ & HI & [(EB & ->)|(x & EB & _)])].
  - rewrite length_seq in Hd. lia.
  - destruct (Body _ _ _ _ _ HI EB)
      as [(H & _)|(_ & Hd & Hh & Hr & Hlr & Hl)]; [discriminate|].
    fold esn. rewrite <- Hd. auto.
  - destruct (Body _ _ _ _ _ HI EB) as [(H & _)|(H & _)]; discriminate.
Qed.

Lemma do_training_constant_loss_witness :
  snd (do_training count_batch 10 0 d_1e_4 (Some 5000%Z) (Some 5%Z)
         (Some 6%Z)) = None /\
  lr (fst (do_training count_batch 10 0 d_1e_4 (Some 5000%Z) (Some 5%Z)
             (Some 6%Z))) = halved 14 d_1e_4 /\
  epochs_run (output (fst (do_training count_batch 10 0 d_1e_4 (Some 5000%Z)
                             (Some 5%Z) (Some 6%Z)))) = Z.to_nat 6 + 14 - 1 /\
  loss_history (fst (do_training count_batch 10 0 d_1e_4 (Some 5000%Z)
                       (Some 5%Z) (Some 6%Z)))
    = repeat (S754_finite false 4503599627370496 (-52)) (Z.to_nat 6 + 14 - 1) /\
  last (output (fst (do_training count_batch 10 0 d_1e_4 (Some 5000%Z)
                       (Some 5%Z) (Some 6%Z)))) (Beginning 0 0)
    = Discontinuing.
Proof.
  apply (@do_training_constant_loss nat count_batch 10 0 d_1e_4 5000 5 6
           false 4503599627370496 (-52) 14);
    try reflexivity; try lia.
  intros i H1 H2.
  do 14 (destruct i as [|i]; [try lia; reflexivity|]). lia.
Defined.

Lemma do_training_stops_on_small_rate_witness :
  epochs_run (output (fst (do_training count_batch 10 0 d_1e_4 (Some 30%Z)
                             (Some 5%Z) None))) = Z.to_nat 30 \/
  (SFltb (lr (fst (do_training count_batch 10 0 d_1e_4 (Some 30%Z) (Some 5%Z)
                     None))) d_1e_8 = true /\
   last (output (fst (do_training count_batch 10 0 d_1e_4 (Some 30%Z)
                        (Some 5%Z) None))) (Beginning 0 0) = Discontinuing /\
   (6 <= Z.of_nat (epochs_run (output (fst (do_training count_batch 10%nat
                                              0%nat d_1e_4 (Some 30%Z)
                                              (Some 5%Z) None)))))%Z).
Proof.
  apply (@do_training_stops_on_small_rate nat count_batch 10 0 d_1e_4
           (Some 30%Z) (Some 5%Z) None).
  vm_compute. reflexivity.
Defined.

Lemma do_training_zero_loss_raises_witness :
  snd (do_training zero_batch 10 0 d_1e_4 (Some 30%Z) (Some 5%Z) (Some 3%Z))
    = Some ZeroDivisionError.
Proof.
  apply (@do_training_zero_loss_raises nat zero_batch 10 0 d_1e_4
           (Some 30%Z) (Some 5%Z) (Some 3%Z)).
  - vm_compute. discriminate.
  - vm_compute. split; discriminate.
  - exists false. vm_compute. reflexivity.
Defined.

Lemma do_training_without_batches_witness :
  do_training count_batch 0 0 d_1e_4 (Some 30%Z) (Some 5%Z) None =
    (mkTraining 0 d_1e_4 None [] [Beginning 30 5], Some UnboundLocalError) /\
  do_training count_batch 10 0 d_1e_4 (Some 30%Z) (Some 0%Z) None =
    (mkTraining 0 d_1e_4 None [] [Beginning 30 0], Some (Builtin ValueError)).
Proof.
  split.
  - apply (proj1 (@do_training_without_batches nat count_batch 0 0 d_1e_4
                    30%Z 5%Z None ltac:(lia))); [left; reflexivity|lia].
  - apply (proj2 (@do_training_without_batches nat count_batch 10 0 d_1e_4
                    30%Z 0%Z None ltac:(lia))). reflexivity.
Defined.

(** ** The scalar distance *)

(** X17: [distance_3d] is symmetric and is zero from a point to itself;
    the only exception it can raise is [OverflowError], and a distance it
    returns is neither NaN nor negative. *)
Theorem distance_3d_metric (a b : Point3D.t) :
  distance_3d a b = distance_3d b a /\
  distance_3d a a = inr (S754_zero false) /\
  (distance_3d a b = inl OverflowError \/
   exists r, distance_3d a b = inr r /\ has_sign false r).
Proof.
  split; [|split].
  - unfold distance_3d. cbv zeta.
    replace ((Point3D.x b - Point3D.x a) ^ 2 + (Point3D.y b - Point3D.y a) ^ 2
             + (Point3D.z b - Point3D.z a) ^ 2)%Z
      with ((Point3D.x a - Point3D.x b) ^ 2 + (Point3D.y a - Point3D.y b) ^ 2
            + (Point3D.z a - Point3D.z b) ^ 2)%Z by ring.
    reflexivity.
  - unfold distance_3d. cbv zeta. rewrite !Z.sub_diag. reflexivity.
  - unfold distance_3d. cbv zeta.
    set (n := (_ + _ + _)%Z).
    assert (Hn : (0 <= n)%Z) by (unfold n; nia).
    unfold int_to_float.
    assert (Hs : has_sign false (binary_normalize 53 1024 n 0 false)).
    { destruct n as [|p|p]; [reflexivity| |lia]. apply binary_round_sign. }
    destruct (binary_normalize 53 1024 n 0 false) as [s|s| |s m e] eqn:E;
      cbn in Hs; try contradiction; subst s; [|left; reflexivity|];
      right; unfold math_sqrt.
    + eexists. split; [reflexivity|reflexivity].
    + cbn [SFltb SFcompare]. eexists. split; [reflexivity|].
      apply (fsqrt_sign 53 1024 (S754_finite false m e)). reflexivity.
Qed.

(** ** The encoding of the target *)

Section DictFacts.

Variables K V : Type.
Variable K_eq_dec : forall a b : K, {a = b} + {a <> b}.

Lemma dict_set_new (k : K) (v : V) (d : list (K * V)) :
  ~ In k (map fst d) -> dict_set K_eq_dec k v d = d ++ [(k, v)].
Proof.
  induction d as [|[k' v'] d IH]; intros H; [reflexivity|].
  cbn [dict_set app]. cbn in H.
  destruct (K_eq_dec k k') as [->|_]; [tauto|].
  rewrite IH by tauto. reflexivity.
Qed.

Lemma dict_of_distinct_acc (pairs acc : list (K * V)) :
  NoDup (map fst (acc ++ pairs)) ->
  fold_left (fun d kv => dict_set K_eq_dec (fst kv) (snd kv) d) pairs acc
  = acc ++ pairs.
Proof.
  revert acc. induction pairs as [|[k v] pairs IH]; intros acc H.
  - now rewrite app_nil_r.
  - cbn [fold_left fst snd]. rewrite dict_set_new.
    + rewrite IH; rewrite <- app_assoc; [reflexivity|exact H].
    + rewrite map_app in H. cbn in H. apply NoDup_remove_2 in H.
      intros Hin. apply H. apply in_or_app. now left.
Qed.

(** With distinct keys the dictionary is the list of pairs itself. *)
Lemma dict_of_distinct (pairs : list (K * V)) :
  NoDup (map fst pairs) -> dict_of K_eq_dec pairs = pairs.
Proof. intros H. now apply (dict_of_distinct_acc pairs []). Qed.

Lemma dict_get_absent (k : K) (d : list (K * V)) :
  ~ In k (map fst d) -> dict_get K_eq_dec k d = None.
Proof.
  induction d as [|[k' v] d IH]; intros H; [reflexivity|].
  cbn in *. destruct (K_eq_dec k k') as [->|_]; [tauto|]. apply IH. tauto.
Qed.

Lemma dict_get_combine (keys : list K) (vals : list V) (i : nat) (dk : K)
    (dv : V) :
  NoDup keys -> length keys = length vals -> i < length keys ->
  dict_get K_eq_dec (nth i keys dk) (combine keys vals) = Some (nth i vals dv).
Proof.
  revert vals i. induction keys as [|k keys IH]; intros [|v vals] i ND L Hi;
    cbn in *; try lia.
  inversion ND; subst.
  destruct i as [|i].
  - destruct (K_eq_dec k k); [reflexivity|congruence].
  - destruct (K_eq_dec (nth i keys dk) k) as [E|_].
    + exfalso. match goal with H : ~ In k keys |- _ => apply H end.
      rewrite <- E. apply nth_In. lia.
    + apply IH; [assumption|lia|lia].
Qed.

End DictFacts.

Lemma map_swap_combine {A B : Type} (l : list A) (l' : list B) :
  map (fun kv => (snd kv, fst kv)) (combine l l') = combine l' l.
Proof.
  revert l'. induction l as [|a l IH]; intros [|b l']; cbn; try reflexivity.
  now rewrite IH.
Qed.

Lemma map_fst_combine {A B : Type} (l : list A) (l' : list B) :
  length l = length l' -> map fst (combine l l') = l.
Proof.
  revert l'. induction l as [|a l IH]; intros [|b l'] H; cbn in *;
    try reflexivity; try lia.
  rewrite IH by lia. reflexivity.
Qed.

(** X18: for sizes that are pairwise distinct, [size_to_num] maps the size
    at position [i] to [i], [num_to_size] maps [i] back to that size, a
    string that is no size and a number that is no position are missing
    keys, and both dictionaries list their items in the order of
    [sizes]. *)
Theorem size_encoding_round_trip (sizes : list String.string) :
  NoDup sizes ->
  Garments.size_to_num sizes = combine sizes (seq 0 (length sizes)) /\
  Garments.num_to_size sizes = combine (seq 0 (length sizes)) sizes /\
  (forall i, i < length sizes ->
     dict_get String.string_dec (nth i sizes String.EmptyString)
       (Garments.size_to_num sizes) = Some i /\
     dict_get Nat.eq_dec i (Garments.num_to_size sizes)
       = Some (nth i sizes String.EmptyString)) /\
  (forall s, ~ In s sizes ->
     dict_get String.string_dec s (Garments.size_to_num sizes) = None) /\
  (forall i, length sizes <= i ->
     dict_get Nat.eq_dec i (Garments.num_to_size sizes) = None).
Proof.
  intros ND.
  assert (L : length sizes = length (seq 0 (length sizes)))
    by now rewrite length_seq.
  assert (E1 : Garments.size_to_num sizes = combine sizes (seq 0 (length sizes))).
  { unfold Garments.size_to_num. apply dict_of_distinct.
    now rewrite map_fst_combine. }
  assert (E2 : Garments.num_to_size sizes = combine (seq 0 (length sizes)) sizes).
  { unfold Garments.num_to_size. rewrite E1, map_swap_combine.
    apply dict_of_distinct. rewrite map_fst_combine by now rewrite length_seq.
    apply seq_NoDup. }
  split; [exact E1|]. split; [exact E2|]. rewrite E1, E2. split; [|split].
  - intros i Hi. split.
    + rewrite (dict_get_combine String.string_dec _ String.EmptyString 0 ND L Hi).
      now rewrite seq_nth.
    + assert (G := @dict_get_combine nat String.string Nat.eq_dec
                       (seq 0 (length sizes)) sizes i 0 String.EmptyString
                       (seq_NoDup (length sizes) 0)).
      rewrite length_seq, seq_nth in G by assumption. now apply G.
  - intros s Hs. apply dict_get_absent. now rewrite map_fst_combine.
  - intros i Hi. apply dict_get_absent.
    rewrite map_fst_combine by now rewrite length_seq.
    rewrite in_seq. lia.
Qed.

Lemma size_encoding_round_trip_witness :
  Garments.size_to_num Garments.sizes
    = combine Garments.sizes (seq 0 (length Garments.sizes)) /\
  Garments.num_to_size Garments.sizes
    = combine (seq 0 (length Garments.sizes)) Garments.sizes /\
  (forall i, i < length Garments.sizes ->
     dict_get String.string_dec (nth i Garments.sizes String.EmptyString)
       (Garments.size_to_num Garments.sizes) = Some i /\
     dict_get Nat.eq_dec i (Garments.num_to_size Garments.sizes)
       = Some (nth i Garments.sizes String.EmptyString)) /\
  (forall s, ~ In s Garments.sizes ->
     dict_get String.string_dec s (Garments.size_to_num Garments.sizes) =
       None) /\
  (forall i, length Garments.sizes <= i ->
     dict_get Nat.eq_dec i (Garments.num_to_size Garments.sizes) = None).
Proof.
  apply (@size_encoding_round_trip Garments.sizes).
  unfold Garments.sizes.
  repeat (constructor; [cbn; intuition discriminate|]). constructor.
Defined.

(** The comparison the notebook prints: on its four points the entries of
    [pairwise_distance(A, B)] are the doubles of [distance_3d] rounded to
    float32. *)
Example distance_3d_agrees_with_pairwise_distance :
  exists D, pairwise_distance p32 e32 b32 points_A (Some points_B) = Ok D /\
    forall r00 r01 r10 r11,
      distance_3d a1 b1 = inr r00 -> distance_3d a1 b2 = inr r01 ->
      distance_3d a2 b1 = inr r10 -> distance_3d a2 b2 = inr r11 ->
      data D = map (of_double p32 e32) [r00; r01; r10; r11].
Proof.
  eexists. split; [vm_compute; reflexivity|].
  intros r00 r01 r10 r11 H00 H01 H10 H11.
  vm_compute in H00, H01, H10, H11.
  injection H00 as <-. injection H01 as <-.
  injection H10 as <-. injection H11 as <-.
  vm_compute. reflexivity.
Qed.

(** ** A fixed point of the update *)

(** X19: when an iteration leaves every centroid, all of them finite,
    exactly where it was, the shift is zero and [kmeans] returns in that
    iteration, for every tolerance whose square root is above zero in the
    tensor's format. *)
Theorem kmeans_fixed_point_returns (prec emax : Z) (lib : backend)
    (X C C' : tensor spec_float)
    (clusters : tensor nat) (n m k : nat) (sqrt_tol : spec_float)
    (stop : bool) (fuel : nat) :
  shape X = [n; m] -> shape C = [k; m] -> wf C -> all_finite C ->
  kmeans_pass prec emax lib X (Z.of_nat k) sqrt_tol C =
    Ok (clusters, C', stop) ->
  data C' = data C ->
  SFltb fzero (of_double prec emax sqrt_tol) = true ->
  total_shift prec emax lib C' C k m = fzero /\
  kmeans_loop prec emax lib (Datatypes.S fuel) X (Z.of_nat k) sqrt_tol C
    = Returns (clusters, C').
Proof.
  intros EX EC W FC EP Ed Ht.
  destruct (@kmeans_pass_inv prec emax lib X C C' clusters n m k sqrt_tol stop
              EX EC W EP) as (_ & _ & Hstop).
  assert (T : total_shift prec emax lib C' C k m = fzero).
  { unfold total_shift. rewrite Ed. apply fsum_zeros.
    apply Forall_forall. intros x Hx. apply in_map_iff in Hx.
    destruct Hx as (c & <- & _). unfold euclid.
    rewrite fsum_zeros; [apply sqrt_zero|].
    apply Forall_forall. intros y Hy. apply in_map_iff in Hy.
    destruct Hy as (d & <- & _).
    rewrite fsub_diag by now apply nth_all_finite. reflexivity. }
  split; [exact T|].
  cbn [kmeans_loop]. rewrite EP. rewrite T, Ht in Hstop. now rewrite Hstop.
Qed.

Lemma kmeans_fixed_point_returns_witness :
  total_shift p32 e32 b32 centroids_mid centroids_mid 2 2 = fzero /\
  kmeans_loop p32 e32 b32 (Datatypes.S 0) four_points (Z.of_nat 2)
    (SFsqrt 53 1024 default_tol) centroids_mid
    = Returns (mkTensor [4] [0; 0; 1; 1], centroids_mid).
Proof.
  apply (@kmeans_fixed_point_returns p32 e32 b32 four_points centroids_mid
           centroids_mid (mkTensor [4] [0; 0; 1; 1]) 4 2 2
           (SFsqrt 53 1024 default_tol) true 0);
    [reflexivity|reflexivity|reflexivity|repeat constructor
    |vm_compute; reflexivity|reflexivity|reflexivity].
Defined.
